(** * Customer-churn pipeline: feature aggregation, dataset splitting, drift monitoring

    A shallow embedding of [churn_pipeline/features.py],
    [churn_pipeline/trainer.py] (the two split functions),
    [churn_pipeline/monitoring.py], [churn_pipeline/data_loader.py] (the
    cleaning), [api/main.py] (the prediction service) and
    [scripts/analysis.py] (the event labels and the cap on users).

    Conventions of the embedding.
    - A timestamp ([pd.Timestamp] built from epoch milliseconds) is a [Z]
      number of milliseconds; a [pd.Timedelta] is a [Z] number of
      milliseconds as well, and [.days] is the floor division by
      [ms_per_day].
    - A Python/NumPy float is a [fval]: an exact rational kept in lowest
      terms, or the not-a-number [FNaN].  Rounding is not modelled.
    - A pandas column with missing entries is a list of [option]s.
    - An exception is the left injection of a sum. *)

From Stdlib Require Import ZArith QArith Qabs Qround Lia.
From stdpp Require Import base option list sorting gmap strings.

Local Open Scope Z_scope.

(** ** Floating-point values *)

Module Float.

Inductive fval : Type :=
| FNum (q : Q)
| FNaN.

Definition fnum (q : Q) : fval := FNum (Qred q).
Definition of_Z (z : Z) : fval := fnum (inject_Z z).
Definition of_nat (n : nat) : fval := of_Z (Z.of_nat n).
Definition zero : fval := FNum 0.

Definition isnan (v : fval) : bool :=
  match v with FNaN => true | FNum _ => false end.

Definition lift2 (op : Q → Q → Q) (a b : fval) : fval :=
  match a, b with
  | FNum x, FNum y => fnum (op x y)
  | _, _ => FNaN
  end.

Definition fadd : fval → fval → fval := lift2 Qplus.
Definition fsub : fval → fval → fval := lift2 Qminus.
Definition fmul : fval → fval → fval := lift2 Qmult.

(** Division of floats.  Every call site of the sources guards the zero
    denominator or divides by a positive constant; a zero denominator is
    mapped to [FNaN]. *)
Definition fdiv (a b : fval) : fval :=
  match a, b with
  | FNum x, FNum y => if Qeq_bool y 0 then FNaN else fnum (x / y)
  | _, _ => FNaN
  end.

Definition fabs (a : fval) : fval :=
  match a with FNum x => fnum (Qabs x) | FNaN => FNaN end.
Definition fneg (a : fval) : fval :=
  match a with FNum x => fnum (- x) | FNaN => FNaN end.

Definition Qlt_bool (x y : Q) : bool := negb (Qle_bool y x).

(** Comparisons with a NaN operand are false, as in IEEE 754. *)
Definition flt (a b : fval) : bool :=
  match a, b with FNum x, FNum y => Qlt_bool x y | _, _ => false end.
Definition fgt (a b : fval) : bool := flt b a.
Definition feq (a b : fval) : bool :=
  match a, b with FNum x, FNum y => Qeq_bool x y | _, _ => false end.

(** [x if not isnan(x) else 0.0] *)
Definition nan_to_zero (v : fval) : fval :=
  if isnan v then zero else v.

Global Instance Qle_decision (x y : Q) : Decision (x <= y)%Q.
Proof.
  destruct (Qle_bool x y) eqn:E.
  - left. by apply Qle_bool_iff.
  - right. intros H. apply Qle_bool_iff in H. congruence.
Defined.

Definition Qsum (xs : list Q) : Q := foldr Qplus 0%Q xs.
Definition Qlen (xs : list Q) : Q := inject_Z (Z.of_nat (length xs)).

(** [Series.mean()]: NaN on an empty series. *)
Definition mean (xs : list Q) : fval :=
  match xs with
  | [] => FNaN
  | _ => fnum (Qsum xs / Qlen xs)
  end.

(** [Series.median()]: NaN on an empty series, otherwise the middle of
    the sorted values (the mean of the two middle ones for an even
    count). *)
Definition median (xs : list Q) : fval :=
  let s := merge_sort Qle xs in
  let n := length s in
  match n with
  | O => FNaN
  | _ =>
      if Nat.even n
      then fnum ((nth (n / 2 - 1) s 0%Q + nth (n / 2) s 0%Q) / 2)
      else fnum (nth (n / 2) s 0%Q)
  end.

Section Std.
(** [np.sqrt] on non-negative finite floats; not modelled further. *)
Variable sqrtQ : Q → Q.

(** [Series.std(ddof=0)]: the population standard deviation. *)
Definition std0 (xs : list Q) : fval :=
  match xs with
  | [] => FNaN
  | _ =>
      let m := (Qsum xs / Qlen xs)%Q in
      fnum (sqrtQ (Qsum ((λ x, (x - m) * (x - m))%Q <$> xs) / Qlen xs))
  end.
End Std.

End Float.
Import Float.

(** ** Data model *)

Record EventRecord : Type := mkEvent {
  ts : Z;
  userId : string;
  sessionId : Z;
  page : string;
  itemInSession : Z;
  level : option string;
  song_length : option Q;   (* the [length] column; [None] is NaN *)
  artist : option string;
  song : option string;
  gender : option string;
  location : option string;
  registration : option Z   (* [None] is NaT *)
}.

(** An event table: the column names that are present and the rows. The
    mandatory columns are always read by the code; only ["gender"],
    ["location"] and ["registration"] are tested for presence. *)
Record EventLog : Type := mkLog {
  columns : list string;
  records : list EventRecord
}.

Record FeatureConfig : Type := mkFeatureConfig {
  lookback_days : Z;
  min_events_per_user : Z;
  min_sessions_per_user : Z;
  include_gender : bool;
  include_level : bool;
  include_location : bool
}.

(** One row of the feature table, and the Python dict that the row is
    built from.  An optional key is an [option]: [None] in a dict that
    lacks the key, and in a row of a table that has no such column. *)
Record Snapshot : Type := mkSnapshot {
  snap_userId : string;
  label_ts : Z;
  churned : Z;
  num_events : nat;
  num_sessions : nat;
  num_songs : nat;
  num_errors : nat;
  num_add_friend : nat;
  num_add_playlist : nat;
  num_roll_advert : nat;
  num_thumb_up : nat;
  num_thumb_down : nat;
  avg_items_per_session : fval;
  std_items_per_session : fval;
  total_listening_minutes : fval;
  event_rate_per_hour : fval;
  distinct_artists : nat;
  distinct_songs : nat;
  avg_session_minutes : fval;
  median_session_minutes : fval;
  std_session_minutes : fval;
  paid_event_ratio : fval;
  gender_M : option Z;
  gender_F : option Z;
  current_level_paid : option Z;
  num_locations : option nat;
  account_age_days : option fval;
  active_days : fval
}.

Definition CHURN_EVENT : string := "Cancellation Confirmation".
Definition ms_per_day : Z := 86400000.
Definition ms_per_hour : Z := 3600000.
Definition ms_per_minute : Z := 60000.

(** ** pandas helpers on columns *)

(** [Series.max()] and [Series.min()] of a timestamp or integer column;
    [None] (NaT/NaN) on an empty column. *)
Definition series_max (l : list Z) : option Z :=
  match l with
  | [] => None
  | x :: r => Some (foldr Z.max x r)
  end.

Definition series_min (l : list Z) : option Z :=
  match l with
  | [] => None
  | x :: r => Some (foldr Z.min x r)
  end.

(** [Series.dropna()] *)
Definition dropna {A} (l : list (option A)) : list A := omap id l.

(** [Series.unique()]: the distinct values in order of first appearance. *)
Fixpoint unique_from {A} `{EqDecision A} (seen l : list A) : list A :=
  match l with
  | [] => []
  | x :: r =>
      if decide (x ∈ seen) then unique_from seen r
      else x :: unique_from (x :: seen) r
  end.

Definition unique {A} `{EqDecision A} (l : list A) : list A :=
  unique_from [] l.

(** [Series.nunique()]: the number of distinct non-missing values. *)
Definition nunique {A} `{EqDecision A} (l : list A) : nat :=
  length (remove_dups l).

(** [(column == value).sum()] *)
Definition count_page (p : string) (evs : list EventRecord) : nat :=
  length (filter (λ e, page e = p) evs).

(** [DataFrame.sort_values("ts")].  The order that pandas gives to rows
    with equal timestamps is left to the sorting algorithm; here it is the
    order of [merge_sort]. *)
Definition ts_le (a b : EventRecord) : Prop := ts a ≤ ts b.

Global Instance ts_le_dec a b : Decision (ts_le a b).
Proof. unfold ts_le. apply _. Defined.

Definition sort_values_ts (evs : list EventRecord) : list EventRecord :=
  merge_sort ts_le evs.

(** [DataFrame.groupby(key)]: the groups in ascending key order, each with
    its rows in their original order. *)
Definition groupby_sessionId (evs : list EventRecord)
  : list (Z * list EventRecord) :=
  (λ s, (s, filter (λ e, sessionId e = s) evs))
    <$> merge_sort Z.le (remove_dups (sessionId <$> evs)).

Definition str_le (a b : string) : Prop := String.leb a b = true.

Global Instance str_le_dec a b : Decision (str_le a b).
Proof. unfold str_le. apply _. Defined.

Definition user_events_of (u : string) (evs : list EventRecord)
  : list EventRecord :=
  filter (λ e, userId e = u) evs.

Definition groupby_userId (evs : list EventRecord)
  : list (string * list EventRecord) :=
  (λ u, (u, user_events_of u evs))
    <$> merge_sort str_le (remove_dups (userId <$> evs)).

(** ** features.py *)

Section Features.

Variable sqrtQ : Q → Q.

(** Durations, in minutes, of the sessions of [events]:
    [(grouped.max() - grouped.min()).dt.total_seconds() / 60.0]. *)
Definition session_durations (events : list EventRecord) : list Q :=
  omap (λ g : Z * list EventRecord,
          hi ← series_max (ts <$> g.2);
          lo ← series_min (ts <$> g.2);
          Some (inject_Z (hi - lo) / inject_Z ms_per_minute)%Q)
       (groupby_sessionId events).

Definition _session_stats (events : list EventRecord) : fval * fval * fval :=
  match events with
  | [] => (zero, zero, zero)
  | _ =>
      let durations := session_durations events in
      match durations with
      | [] => (zero, zero, zero)
      | _ =>
          let mean_val := mean durations in
          let median_val := median durations in
          let std_val :=
            if decide (1 < length durations)%nat
            then std0 sqrtQ durations else zero in
          (nan_to_zero mean_val, nan_to_zero median_val, nan_to_zero std_val)
      end
  end.

Definition _event_rate (events : list EventRecord) : fval :=
  match events with
  | [] => zero
  | _ =>
      match series_max (ts <$> events), series_min (ts <$> events) with
      | Some hi, Some lo =>
          let timespan := (inject_Z (hi - lo) / inject_Z ms_per_hour)%Q in
          if Qle_bool timespan 0 then of_nat (length events)
          else fnum (inject_Z (Z.of_nat (length events)) / timespan)
      | _, _ => FNaN   (* NaT - NaT; not reached on a non-empty table *)
      end
  end.

Definition _safe_ratio (numerator denominator : nat) : fval :=
  if decide (denominator = 0%nat) then zero
  else fnum (inject_Z (Z.of_nat numerator) / inject_Z (Z.of_nat denominator)).

(** Lines 57-63: churn detection and the cutoff.  The result is
    [(churned, cutoff_ts, user_events)]; [None] when the group is empty
    (pandas never yields such a group). *)
Definition apply_cutoff (sorted : list EventRecord)
  : option (bool * Z * list EventRecord) :=
  match series_max (ts <$> sorted) with
  | None => None
  | Some latest =>
      match filter (λ e, page e = CHURN_EVENT) sorted with
      | [] => Some (false, latest, sorted)
      | c :: _ => Some (true, ts c, filter (λ e, ts e < ts c) sorted)
      end
  end.

(** Lines 65-67: the lookback window. *)
Definition apply_lookback (cfg : FeatureConfig) (cutoff_ts : Z)
    (evs : list EventRecord) : list EventRecord :=
  if decide (lookback_days cfg = 0) then evs
  else
    let window_start := cutoff_ts - lookback_days cfg * ms_per_day in
    filter (λ e, window_start ≤ ts e) evs.

(** The rows of one user that are left when line 69 is reached. *)
Definition working_subset (cfg : FeatureConfig)
    (user_events : list EventRecord) : list EventRecord :=
  match apply_cutoff (sort_values_ts user_events) with
  | Some (_, cutoff_ts, evs) => apply_lookback cfg cutoff_ts evs
  | None => []
  end.

Definition has_column (cols : list string) (name : string) : bool :=
  bool_decide (name ∈ cols).

Definition flag (b : bool) : Z := if b then 1 else 0.

(** Lines 107-112. *)
Definition gender_fields (cfg : FeatureConfig) (cols : list string)
    (user_events : list EventRecord) : option Z * option Z :=
  if include_gender cfg && has_column cols "gender" then
    let genders := unique (dropna (gender <$> user_events)) in
    let last_gender := last genders in
    (Some (flag (bool_decide (last_gender = Some "M"%string))),
     Some (flag (bool_decide (last_gender = Some "F"%string))))
  else (None, None).

(** Lines 114-117. *)
Definition level_field (cfg : FeatureConfig)
    (user_events : list EventRecord) : option Z :=
  if include_level cfg then
    let levels := dropna (level <$> user_events) in
    let last_level := last levels in
    Some (flag (bool_decide (last_level = Some "paid"%string)))
  else None.

(** Lines 119-120. *)
Definition location_field (cfg : FeatureConfig) (cols : list string)
    (user_events : list EventRecord) : option nat :=
  if include_location cfg && has_column cols "location"
  then Some (nunique (dropna (location <$> user_events)))
  else None.

(** Lines 122-126. *)
Definition account_age_field (cols : list string) (cutoff_ts : Z)
    (user_events : list EventRecord) : option fval :=
  if has_column cols "registration" then
    match dropna (registration <$> user_events) with
    | [] => None
    | reg_time :: _ => Some (of_Z ((cutoff_ts - reg_time) `div` ms_per_day))
    end
  else None.

(** Lines 128-129. *)
Definition active_days_field (user_events : list EventRecord) : fval :=
  match series_max (ts <$> user_events), series_min (ts <$> user_events) with
  | Some hi, Some lo => of_Z ((hi - lo) `div` ms_per_day)
  | _, _ => of_Z 0
  end.

(** Lines 76-129: the row built from the rows [user_events] that passed
    the thresholds. *)
Definition make_snapshot (cfg : FeatureConfig) (cols : list string)
    (user_id : string) (cutoff_ts : Z) (is_churned : bool) (sessions : nat)
    (user_events : list EventRecord) : Snapshot :=
  let session_item_counts :=
    omap (λ g : Z * list EventRecord, series_max (itemInSession <$> g.2))
         (groupby_sessionId user_events) in
  let session_item_std :=
    if decide (1 < length session_item_counts)%nat
    then std0 sqrtQ (inject_Z <$> session_item_counts) else zero in
  let stats := _session_stats user_events in
  let paid_events :=
    length (filter (λ e, level e = Some "paid"%string) user_events) in
  let genders := gender_fields cfg cols user_events in
  {| snap_userId := user_id;
     label_ts := cutoff_ts;
     churned := flag is_churned;
     num_events := length user_events;
     num_sessions := sessions;
     num_songs := count_page "NextSong" user_events;
     num_errors := count_page "Error" user_events;
     num_add_friend := count_page "Add Friend" user_events;
     num_add_playlist := count_page "Add to Playlist" user_events;
     num_roll_advert := count_page "Roll Advert" user_events;
     num_thumb_up := count_page "Thumbs Up" user_events;
     num_thumb_down := count_page "Thumbs Down" user_events;
     avg_items_per_session := mean (inject_Z <$> session_item_counts);
     std_items_per_session := session_item_std;
     total_listening_minutes :=
       fnum (Qsum ((default 0%Q <$> (song_length <$> user_events))) / 60);
     event_rate_per_hour := _event_rate user_events;
     distinct_artists := nunique (dropna (artist <$> user_events));
     distinct_songs := nunique (dropna (song <$> user_events));
     avg_session_minutes := stats.1.1;
     median_session_minutes := stats.1.2;
     std_session_minutes := stats.2;
     paid_event_ratio := _safe_ratio paid_events (length user_events);
     gender_M := genders.1;
     gender_F := genders.2;
     current_level_paid := level_field cfg user_events;
     num_locations := location_field cfg cols user_events;
     account_age_days := account_age_field cols cutoff_ts user_events;
     active_days := active_days_field user_events |}.

(** The body of the loop of [build_user_features] for one group:
    [None] is [continue]. *)
Definition user_row (cfg : FeatureConfig) (cols : list string)
    (user_id : string) (user_events : list EventRecord) : option Snapshot :=
  match apply_cutoff (sort_values_ts user_events) with
  | None => None
  | Some (is_churned, cutoff_ts, evs) =>
      let evs := apply_lookback cfg cutoff_ts evs in
      if decide (Z.of_nat (length evs) < min_events_per_user cfg) then None
      else
        let sessions := nunique (sessionId <$> evs) in
        if decide (Z.of_nat sessions < min_sessions_per_user cfg) then None
        else Some (make_snapshot cfg cols user_id cutoff_ts is_churned
                                 sessions evs)
  end.

Definition label_ts_le (a b : Snapshot) : Prop := label_ts a ≤ label_ts b.

Global Instance label_ts_le_dec a b : Decision (label_ts_le a b).
Proof. unfold label_ts_le. apply _. Defined.

(** The list [feature_rows] after the loop: the dict of each user that
    passed the thresholds, in the order of the groups. *)
Definition feature_rows (events : EventLog) (cfg : FeatureConfig)
  : list Snapshot :=
  omap (λ g : string * list EventRecord,
          user_row cfg (columns events) g.1 g.2)
       (groupby_userId (records events)).

(** [row] with another [account_age_days] cell. *)
Definition with_account_age (age : option fval) (row : Snapshot) : Snapshot :=
  {| snap_userId := snap_userId row;
     label_ts := label_ts row;
     churned := churned row;
     num_events := num_events row;
     num_sessions := num_sessions row;
     num_songs := num_songs row;
     num_errors := num_errors row;
     num_add_friend := num_add_friend row;
     num_add_playlist := num_add_playlist row;
     num_roll_advert := num_roll_advert row;
     num_thumb_up := num_thumb_up row;
     num_thumb_down := num_thumb_down row;
     avg_items_per_session := avg_items_per_session row;
     std_items_per_session := std_items_per_session row;
     total_listening_minutes := total_listening_minutes row;
     event_rate_per_hour := event_rate_per_hour row;
     distinct_artists := distinct_artists row;
     distinct_songs := distinct_songs row;
     avg_session_minutes := avg_session_minutes row;
     median_session_minutes := median_session_minutes row;
     std_session_minutes := std_session_minutes row;
     paid_event_ratio := paid_event_ratio row;
     gender_M := gender_M row;
     gender_F := gender_F row;
     current_level_paid := current_level_paid row;
     num_locations := num_locations row;
     account_age_days := age;
     active_days := active_days row |}.

(** Some dict of the list has the key [account_age_days]. *)
Definition has_account_age (rows : list Snapshot) : bool :=
  bool_decide (Exists (λ r, is_Some (account_age_days r)) rows).

(** One row of [pd.DataFrame(feature_rows)]: a NaN cell for a key that
    this dict lacks and another dict of the list has. *)
Definition align_account_age (present : bool) (row : Snapshot) : Snapshot :=
  match account_age_days row with
  | None => if present then with_account_age (Some FNaN) row else row
  | Some _ => row
  end.

(** [pd.DataFrame(feature_rows)], line 133: the table has a column for
    each key of some dict and a NaN cell where a dict lacks the key.
    [account_age_days] is the one key that a dict may lack while another
    dict has it; the other optional keys depend on the configuration and on
    the columns of the log alone, so that all dicts have them or none
    has. *)
Definition frame_of_dicts (rows : list Snapshot) : list Snapshot :=
  align_account_age (has_account_age rows) <$> rows.

(** The feature table, as the list of its rows ([userId] is the index). *)
Definition build_user_features (events : EventLog) (cfg : FeatureConfig)
  : list Snapshot :=
  merge_sort label_ts_le (frame_of_dicts (feature_rows events cfg)).

Definition build_feature_matrix (events : EventLog) (cfg : FeatureConfig)
  : list Snapshot :=
  build_user_features events cfg.

End Features.

(** ** config.py *)

Inductive SplitMethod : Type := temporal | stratified.

Record SplitConfig : Type := mkSplitConfig {
  method : SplitMethod;
  test_ratio : Q;
  min_train_users : Z;
  temporal_holdout_days : Z
}.

Record TrainingConfig : Type := mkTrainingConfig {
  random_state : Z;
  feature_config : FeatureConfig;
  split_config : SplitConfig;
  target_column : string
}.

(** ** Exceptions *)

(** [OutOfBoundsDatetime] is the error of pandas for an instant outside
    the range of [pd.Timestamp]. *)
Inductive exn : Type :=
| KeyError (key : string)
| TypeError
| ValueError
| OutOfBoundsDatetime.

Definition result (A : Type) : Type := exn + A.

Definition raise {A} (e : exn) : result A := inl e.
Definition ret {A} (a : A) : result A := inr a.
Definition bind {A B} (m : result A) (k : A → result B) : result B :=
  match m with
  | inl e => inl e
  | inr a => k a
  end.

Notation "'let*' x ':=' m 'in' k" := (bind m (λ x, k))
  (at level 10, x name, m at level 100, k at level 200).

(** [df[name]] on a table that may lack the column. *)
Definition require_column (cols : list string) (name : string) : result unit :=
  if has_column cols name then ret tt else raise (KeyError name).

(** ** trainer.py: the two split functions *)

(** The feature table handed to the splitter: its column names and its
    rows, indexed by [userId]. *)
Record FeatureTable : Type := mkTable {
  tbl_columns : list string;
  tbl_rows : list Snapshot
}.

Definition tbl_index (t : FeatureTable) : list string :=
  snap_userId <$> tbl_rows t.

Definition tbl_len (t : FeatureTable) : nat := length (tbl_rows t).

(** [df[mask]]: the rows that satisfy the mask, columns unchanged. *)
Definition tbl_filter (P : Snapshot → Prop) `{∀ r, Decision (P r)}
    (t : FeatureTable) : FeatureTable :=
  {| tbl_columns := tbl_columns t; tbl_rows := filter P (tbl_rows t) |}.

(** [df.loc[labels]]: for each label in turn the rows that carry it;
    [KeyError] for a label that no row carries. *)
Fixpoint loc_rows (rows : list Snapshot) (labels : list string)
  : result (list Snapshot) :=
  match labels with
  | [] => ret []
  | i :: rest =>
      match filter (λ r, snap_userId r = i) rows with
      | [] => raise (KeyError i)
      | hit => let* tl := loc_rows rows rest in ret (hit ++ tl)
      end
  end.

Definition tbl_loc (t : FeatureTable) (labels : list string)
  : result FeatureTable :=
  let* rows := loc_rows (tbl_rows t) labels in
  ret {| tbl_columns := tbl_columns t; tbl_rows := rows |}.

(** [feature_df[name]] for a key that every snapshot dict carries
    ([label_ts], [churned]): a table with a row has the column, and a table
    without rows has the columns that it lists, none at all for the
    [pd.DataFrame([])] that [build_user_features] returns for no row. *)
Definition tbl_getitem (t : FeatureTable) (name : string) : result unit :=
  match tbl_rows t with
  | [] => require_column (tbl_columns t) name
  | _ :: _ => ret tt
  end.

Section Trainer.

(** [sklearn.model_selection.train_test_split(index, test_size=...,
    random_state=..., stratify=...)]: an external, seeded shuffle that
    returns the two index parts or raises.  It is a parameter. *)
Variable train_test_split :
  list string → Q → Z → list Z → result (list string * list string).

(** The argument [stratify=feature_df["churned"]] is evaluated before the
    call. *)
Definition _stratified_split (feature_df : FeatureTable) (ratio : Q)
    (seed : Z) : result (FeatureTable * FeatureTable) :=
  let* stratify := tbl_getitem feature_df "churned" in
  let* parts := train_test_split (tbl_index feature_df) ratio seed
                                 (churned <$> tbl_rows feature_df) in
  let* train_df := tbl_loc feature_df parts.1 in
  let* test_df := tbl_loc feature_df parts.2 in
  ret (train_df, test_df).

(** [label_ts < cutoff] with a NaT cutoff (empty table) is false. *)
Definition before_cutoff (cutoff : option Z) (r : Snapshot) : Prop :=
  match cutoff with Some c => label_ts r < c | None => False end.

Definition from_cutoff (cutoff : option Z) (r : Snapshot) : Prop :=
  match cutoff with Some c => c ≤ label_ts r | None => False end.

Global Instance before_cutoff_dec c r : Decision (before_cutoff c r).
Proof. destruct c; simpl; apply _. Defined.

Global Instance from_cutoff_dec c r : Decision (from_cutoff c r).
Proof. destruct c; simpl; apply _. Defined.

Definition _temporal_split (feature_df : FeatureTable)
    (config : TrainingConfig) : result (FeatureTable * FeatureTable) :=
  let holdout_days := temporal_holdout_days (split_config config) in
  let* label_column := tbl_getitem feature_df "label_ts" in
  let cutoff :=
    (λ latest, latest - holdout_days * ms_per_day)
      <$> series_max (label_ts <$> tbl_rows feature_df) in
  let train_df := tbl_filter (before_cutoff cutoff) feature_df in
  let test_df := tbl_filter (from_cutoff cutoff) feature_df in
  if decide (Z.of_nat (tbl_len train_df) < min_train_users (split_config config)
             ∨ tbl_len test_df = 0%nat)
  then _stratified_split feature_df (test_ratio (split_config config))
                         (random_state config)
  else ret (train_df, test_df).

(** The dispatch in [train]. *)
Definition split (feature_df : FeatureTable) (config : TrainingConfig)
  : result (FeatureTable * FeatureTable) :=
  match method (split_config config) with
  | temporal => _temporal_split feature_df config
  | stratified =>
      _stratified_split feature_df (test_ratio (split_config config))
                        (random_state config)
  end.

End Trainer.

(** ** monitoring.py *)

(** A numeric pandas series: [FNaN] is a missing value, and [dropna]
    keeps the finite values, in lowest terms. *)
Definition dropna_num (s : list fval) : list Q :=
  omap (λ v, match v with FNum q => Some (Qred q) | FNaN => None end) s.

(** [np.linspace(0.0, 1.0, buckets + 1)] *)
Definition linspace01 (buckets : nat) : list Q :=
  match buckets with
  | O => [0%Q]
  | _ => (λ i, inject_Z (Z.of_nat i) / inject_Z (Z.of_nat buckets))%Q
           <$> seq 0 (S buckets)
  end.

(** [np.quantile(a, q)] with the default linear interpolation, on the
    already sorted values. *)
Definition quantile_sorted (sorted : list Q) (q : Q) : Q :=
  let n := length sorted in
  let h := (q * inject_Z (Z.of_nat (n - 1)))%Q in
  let j := Z.to_nat (Qfloor h) in
  let g := (h - inject_Z (Qfloor h))%Q in
  let lower := nth j sorted 0%Q in
  let upper := nth (Nat.min (S j) (n - 1)) sorted 0%Q in
  (lower + g * (upper - lower))%Q.

(** [np.unique] on floats: sort, then drop the repeats. *)
Fixpoint drop_repeats (l : list Q) : list Q :=
  match l with
  | [] => []
  | x :: r =>
      match r with
      | [] => [x]
      | y :: _ => if Qeq_bool x y then drop_repeats r else x :: drop_repeats r
      end
  end.

Definition np_unique (l : list Q) : list Q :=
  drop_repeats (merge_sort Qle l).

(** [np.digitize(x, bins, right=False)] for increasing [bins]: the number
    of edges that are at most [x]. *)
Definition digitize (bins : list Q) (x : Q) : Z :=
  Z.of_nat (length (filter (λ b, (b <= x)%Q) bins)).

(** [np.clip] on integers *)
Definition clip (v lo hi : Z) : Z := Z.min (Z.max v lo) hi.

Definition bin_of (breaks : list Q) (x : Q) : Z :=
  clip (digitize breaks x - 1) 0 (Z.of_nat (length breaks) - 2).

(** [max((bins == b).sum() / len(values), epsilon)] *)
Definition bin_ratio (bins : list Z) (b : Z) (epsilon : Q) : Q :=
  let share := (inject_Z (Z.of_nat (length (filter (λ k, k = b) bins)))
                / inject_Z (Z.of_nat (length bins)))%Q in
  if Qlt_bool share epsilon then epsilon else share.

Inductive column : Type :=
| NumCol (values : list fval)
| ObjCol.

(** A table for the drift report: its columns in order. *)
Abbreviation DataFrame := (list (string * column)).

Fixpoint df_get (df : DataFrame) (name : string) : option column :=
  match df with
  | [] => None
  | (c, v) :: rest => if decide (c = name) then Some v else df_get rest name
  end.

Definition is_numeric_dtype (c : column) : bool :=
  match c with NumCol _ => true | ObjCol => false end.

Record DriftRecord : Type := mkDriftRecord {
  feature : string;
  psi : fval;
  ks : fval
}.

Record DriftReport : Type := mkDriftReport {
  feature_metrics : list DriftRecord;
  flag_psi : bool;
  flag_ks : bool
}.

(** The order of [sort_values("psi", ascending=False)]: descending, with
    the NaN rows last. *)
Definition psi_desc (a b : DriftRecord) : Prop :=
  match psi a, psi b with
  | _, FNaN => True
  | FNaN, FNum _ => False
  | FNum x, FNum y => (y <= x)%Q
  end.

Global Instance psi_desc_dec a b : Decision (psi_desc a b).
Proof. unfold psi_desc. destruct (psi a), (psi b); apply _. Defined.

Inductive metric_value : Type :=
| VFloat (v : fval)
| VBool (b : bool).

Section Monitoring.

(** [np.log] on positive finite floats; not modelled further. *)
Variable lnQ : Q → Q.

(** [np.log]: a number on a positive argument, otherwise not finite. *)
Definition flog (v : fval) : fval :=
  match v with
  | FNum q => if Qlt_bool 0 q then fnum (lnQ q) else FNaN
  | FNaN => FNaN
  end.

Definition population_stability_index (expected actual : list fval)
    (buckets : nat) (epsilon : Q) : fval :=
  let expected := dropna_num expected in
  let actual := dropna_num actual in
  match expected, actual with
  | [], _ | _, [] => FNaN
  | _, _ =>
      let quantiles := linspace01 buckets in
      let breaks :=
        np_unique (quantile_sorted (merge_sort Qle expected) <$> quantiles) in
      if decide (length breaks < 2)%nat then zero
      else
        let expected_bins := bin_of breaks <$> expected in
        let actual_bins := bin_of breaks <$> actual in
        foldl (λ psi b,
                 let exp_ratio := bin_ratio expected_bins b epsilon in
                 let act_ratio := bin_ratio actual_bins b epsilon in
                 fadd psi
                   (fmul (fsub (FNum act_ratio) (FNum exp_ratio))
                         (flog (fdiv (FNum act_ratio) (FNum exp_ratio)))))
              zero
              (Z.of_nat <$> seq 0 (length breaks - 1))
  end.

(** [np.searchsorted(a, v, side="right")] *)
Definition searchsorted_right (a : list Q) (v : Q) : nat :=
  length (filter (λ x, (x <= v)%Q) a).

Definition Qmax_list (l : list Q) : fval :=
  match l with
  | [] => FNaN
  | x :: r => fnum (foldr (λ a b, if Qlt_bool a b then b else a) x r)
  end.

Definition kolmogorov_smirnov_statistic (expected actual : list fval)
  : fval :=
  let expected := merge_sort Qle (dropna_num expected) in
  let actual := merge_sort Qle (dropna_num actual) in
  match expected, actual with
  | [], _ | _, [] => FNaN
  | _, _ =>
      let all_values := np_unique (expected ++ actual) in
      let cdf (a : list Q) (v : Q) : Q :=
        (inject_Z (Z.of_nat (searchsorted_right a v))
         / inject_Z (Z.of_nat (length a)))%Q in
      Qmax_list ((λ v, Qabs (cdf expected v - cdf actual v)) <$> all_values)
  end.

(** One turn of the loop of [compute_data_drift_report] over the state
    [(records, flags)]. *)
Definition drift_step (baseline current : DataFrame)
    (psi_threshold ks_threshold : fval)
    (state : list DriftRecord * (bool * bool)) (col : string)
  : result (list DriftRecord * (bool * bool)) :=
  match df_get current col with
  | None => ret state
  | Some cur =>
      match df_get baseline col with
      | None => raise (KeyError col)
      | Some ObjCol => ret state
      | Some (NumCol base) =>
          match cur with
          | ObjCol => raise TypeError
          | NumCol now =>
              let psi := population_stability_index base now 10 (1 # 1000000) in
              let ks := kolmogorov_smirnov_statistic base now in
              let records := state.1 ++ [mkDriftRecord col psi ks] in
              let fpsi := if negb (isnan psi) && fgt psi psi_threshold
                          then true else state.2.1 in
              let fks := if negb (isnan ks) && fgt ks ks_threshold
                         then true else state.2.2 in
              ret (records, (fpsi, fks))
          end
      end
  end.

Fixpoint drift_loop (baseline current : DataFrame)
    (psi_threshold ks_threshold : fval) (cols : list string)
    (state : list DriftRecord * (bool * bool))
  : result (list DriftRecord * (bool * bool)) :=
  match cols with
  | [] => ret state
  | col :: rest =>
      let* state' := drift_step baseline current psi_threshold ks_threshold
                                state col in
      drift_loop baseline current psi_threshold ks_threshold rest state'
  end.

(** [pd.DataFrame(records).sort_values("psi", ascending=False)]: a table
    built from no records has no column, and sorting it by ["psi"]
    raises [KeyError]. *)
Definition sort_by_psi (records : list DriftRecord)
  : result (list DriftRecord) :=
  match records with
  | [] => raise (KeyError "psi")
  | _ => ret (merge_sort psi_desc records)
  end.

(** Lines 69-72: the columns to compare, the numeric columns of the
    baseline when none are given. *)
Definition selected_columns (baseline : DataFrame)
    (feature_columns : option (list string)) : list string :=
  match feature_columns with
  | Some cols => cols
  | None => (filter (λ p, is_numeric_dtype p.2 = true) baseline).*1
  end.

Definition compute_data_drift_report (baseline current : DataFrame)
    (feature_columns : option (list string))
    (psi_threshold ks_threshold : fval) : result DriftReport :=
  let feature_columns := selected_columns baseline feature_columns in
  let* final := drift_loop baseline current psi_threshold ks_threshold
                           feature_columns ([], (false, false)) in
  let* metrics_df := sort_by_psi final.1 in
  ret {| feature_metrics := metrics_df;
         flag_psi := final.2.1;
         flag_ks := final.2.2 |}.

(** The relative change of one metric. *)
Definition metric_delta (baseline_value current_value : fval) : fval :=
  if feq baseline_value zero then FNaN
  else fdiv (fsub current_value baseline_value) (fabs baseline_value).

(** One turn of the loop of [performance_drift]. *)
Definition delta_step (current_metrics : gmap string fval)
    (deltas : gmap string fval) (item : string * fval) : gmap string fval :=
  match current_metrics !! item.1 with
  | None => deltas
  | Some current_value => <[item.1 := metric_delta item.2 current_value]> deltas
  end.

Definition performance_drift (baseline_metrics current_metrics : gmap string fval)
    (degrade_threshold : fval) : gmap string metric_value :=
  let deltas :=
    foldl (delta_step current_metrics) ∅ (map_to_list baseline_metrics) in
  let needs_retrain :=
    existsb (λ kv : string * fval, flt kv.2 (fneg (fabs degrade_threshold)))
            (filter (λ kv, kv.1 ≠ "needs_retrain"%string) (map_to_list deltas)) in
  <["needs_retrain"%string := VBool needs_retrain]> (VFloat <$> deltas).

End Monitoring.

(** ** Specification predicates *)

(** [row] is the dict [dict] as a row of the feature table: the dict
    itself, or the dict with a NaN in the [account_age_days] that it does
    not have. *)
Definition row_of_dict (dict row : Snapshot) : Prop :=
  row = dict
  ∨ (account_age_days dict = None ∧ row = with_account_age (Some FNaN) dict).




(** The contract of [performance_drift] as the specification words it,
    with every shared metric name treated alike: [out] holds the relative
    delta of every shared metric, and its ["needs_retrain"] entry is true
    exactly when the delta of some shared metric is a number below
    [-|degrade_threshold|]. *)
Definition drift_contract (baseline_metrics current_metrics : gmap string fval)
    (degrade_threshold : fval) (out : gmap string metric_value) : Prop :=
  (∀ m b c,
     baseline_metrics !! m = Some b → current_metrics !! m = Some c →
     out !! m = Some (VFloat (metric_delta b c)))
  ∧ (out !! "needs_retrain"%string = Some (VBool true) ↔
     ∃ m b c,
       baseline_metrics !! m = Some b ∧ current_metrics !! m = Some c
       ∧ flt (metric_delta b c) (fneg (fabs degrade_threshold)) = true).

(** Some statistic of the row is NaN. *)
Definition row_has_nan (row : Snapshot) : bool :=
  isnan (avg_items_per_session row) || isnan (std_items_per_session row)
  || isnan (total_listening_minutes row) || isnan (event_rate_per_hour row)
  || isnan (avg_session_minutes row) || isnan (median_session_minutes row)
  || isnan (std_session_minutes row) || isnan (paid_event_ratio row)
  || from_option isnan false (account_age_days row)
  || isnan (active_days row).

(** ** Sample inputs *)

Module Samples.

Definition event (t : Z) (p : string) (g lv : option string) : EventRecord :=
  {| ts := t; userId := "u1"; sessionId := 7; page := p;
     itemInSession := 0; level := lv; song_length := None;
     artist := None; song := None; gender := g; location := None;
     registration := None |}.

Definition all_columns : list string :=
  ["ts"; "userId"; "sessionId"; "page"; "itemInSession"; "level";
   "length"; "artist"; "song"; "gender"; "location"; "registration"]%string.

(** The default [FeatureConfig()] of config.py. *)
Definition default_features : FeatureConfig :=
  {| lookback_days := 30; min_events_per_user := 10;
     min_sessions_per_user := 1; include_gender := true;
     include_level := true; include_location := false |}.

Definition with_thresholds (events sessions : Z) : FeatureConfig :=
  {| lookback_days := 30; min_events_per_user := events;
     min_sessions_per_user := sessions; include_gender := true;
     include_level := true; include_location := false |}.

(** Two songs and then the cancellation, ten minutes apart. *)
Definition three_events : list EventRecord :=
  [event 0 "NextSong" None None;
   event 600000 "NextSong" None None;
   event 1200000 "Cancellation Confirmation" None None].

(** A user whose only event is the cancellation. *)
Definition lone_cancellation : EventLog :=
  mkLog all_columns [event 1200000 "Cancellation Confirmation" None None].

(** A user whose [gender] reads M, then F, then M again. *)
Definition gender_reappears : EventLog :=
  mkLog all_columns
    [event 0 "NextSong" (Some "M"%string) (Some "paid"%string);
     event 1000 "NextSong" (Some "F"%string) (Some "free"%string);
     event 2000 "NextSong" (Some "M"%string) (Some "paid"%string)].

Definition three_log : EventLog := mkLog all_columns three_events.

(** Stand-ins for [np.sqrt] and [np.log], to run the samples. *)
Definition sqrt_floor (q : Q) : Q := inject_Z (Z.sqrt (Qfloor q)).
Definition ln_first_order (q : Q) : Q := (q - 1)%Q.

(** The row of "u1" for [three_log]. *)
Definition three_row : Snapshot :=
  make_snapshot sqrt_floor (with_thresholds 1 1) all_columns "u1" 1200000
    true 1
    [event 0 "NextSong" None None; event 600000 "NextSong" None None].

(** A feature row with the given index, label time and label. *)
Definition row (u : string) (t : Z) (label : Z) : Snapshot :=
  {| snap_userId := u; label_ts := t; churned := label;
     num_events := 12; num_sessions := 2; num_songs := 9; num_errors := 0;
     num_add_friend := 1; num_add_playlist := 0; num_roll_advert := 2;
     num_thumb_up := 0; num_thumb_down := 0;
     avg_items_per_session := FNum 6; std_items_per_session := FNum 1;
     total_listening_minutes := FNum 31; event_rate_per_hour := FNum 4;
     distinct_artists := 5; distinct_songs := 9;
     avg_session_minutes := FNum 90; median_session_minutes := FNum 90;
     std_session_minutes := FNum 10; paid_event_ratio := FNum (1 # 2);
     gender_M := Some 1; gender_F := Some 0; current_level_paid := Some 1;
     num_locations := None; account_age_days := Some (FNum 40);
     active_days := FNum 3 |}.


Definition training (min_train : Z) : TrainingConfig :=
  {| random_state := 42; feature_config := default_features;
     split_config := {| method := temporal; test_ratio := 1 # 3;
                        min_train_users := min_train;
                        temporal_holdout_days := 1 |};
     target_column := "churned" |}.


Definition series : list fval := [FNum 1; FNum 2; FNaN; FNum (5 # 2); FNum 2].

Definition text_only : DataFrame := [("plan"%string, ObjCol)].

(** The metrics of the scenario: f1 drops from 0.80 to 0.65. *)
Definition f1_baseline : gmap string fval := {[ "f1"%string := FNum (4 # 5) ]}.
Definition f1_current : gmap string fval := {[ "f1"%string := FNum (13 # 20) ]}.

(** A metric that is itself named "needs_retrain" and halves. *)
Definition reserved_baseline : gmap string fval :=
  {[ "needs_retrain"%string := FNum 1 ]}.
Definition reserved_current : gmap string fval :=
  {[ "needs_retrain"%string := FNum (1 # 2) ]}.

End Samples.

(** ** data_loader.py *)

(** A row of the raw event log.  A numeric cell is an integer or is
    missing or unparseable ([None], the NaN that [pd.to_numeric(...,
    errors="coerce")] leaves); [ts] is an integer in every row, of any
    size. *)
Record RawEvent : Type := mkRawEvent {
  raw_ts : Z;
  raw_userId : option string;
  raw_sessionId : option Z;
  raw_page : string;
  raw_itemInSession : option Z;
  raw_level : option string;
  raw_length : option Q;
  raw_artist : option string;
  raw_song : option string;
  raw_gender : option string;
  raw_location : option string;
  raw_registration : option Z
}.

Record RawLog : Type := mkRawLog {
  raw_columns : list string;
  raw_records : list RawEvent
}.

(** The instants of [pd.Timestamp] are nanoseconds since the epoch in a
    signed 64-bit integer: in milliseconds, the integers of absolute value
    at most [(2^63 - 1) / 10^6]. *)
Definition timestamp_limit_ms : Z := 9223372036854.

Definition in_timestamp_range (t : Z) : Prop :=
  - timestamp_limit_ms ≤ t ≤ timestamp_limit_ms.

Global Instance in_timestamp_range_dec t : Decision (in_timestamp_range t).
Proof. unfold in_timestamp_range. apply _. Defined.

(** [pd.to_datetime(..., unit="ms")] on the [ts] of the rows that are
    left, line 33: it raises for an instant out of range. *)
Definition convert_ts (rows : list RawEvent) : result unit :=
  if decide (Forall (λ r, in_timestamp_range (raw_ts r)) rows) then ret tt
  else raise OutOfBoundsDatetime.

(** [pd.to_datetime(..., unit="ms", errors="coerce")] on one
    [registration], line 34: NaT for an instant out of range. *)
Definition coerce_registration (reg : option Z) : option Z :=
  match reg with
  | Some t => if decide (in_timestamp_range t) then Some t else None
  | None => None
  end.

(** The column assignments of [clean_event_log] on one row that kept its
    [userId]: [sessionId] falls back to -1, [itemInSession] to 0, and
    [length] to 0.0 when the table has that column. *)
Definition clean_row (has_length : bool) (r : RawEvent) : option EventRecord :=
  u ← raw_userId r;
  Some {| ts := raw_ts r;
          userId := u;
          sessionId := default (-1) (raw_sessionId r);
          page := raw_page r;
          itemInSession := default 0 (raw_itemInSession r);
          level := raw_level r;
          song_length := if has_length then Some (default 0%Q (raw_length r))
                         else raw_length r;
          artist := raw_artist r;
          song := raw_song r;
          gender := raw_gender r;
          location := raw_location r;
          registration := coerce_registration (raw_registration r) |}.

Definition clean_event_log (df : RawLog) : result EventLog :=
  let cols := raw_columns df in
  let* u1 := require_column cols "userId" in
  let cleaned := filter (λ r, is_Some (raw_userId r)) (raw_records df) in
  let cleaned := filter (λ r, raw_userId r ≠ Some ""%string) cleaned in
  let cleaned := filter (λ r, raw_userId r ≠ Some "None"%string) cleaned in
  let* u2 := require_column cols "ts" in
  let* converted := convert_ts cleaned in
  let* u3 := require_column cols "registration" in
  let* u4 := require_column cols "sessionId" in
  let* u5 := require_column cols "itemInSession" in
  ret {| columns := cols;
         records := omap (clean_row (has_column cols "length")) cleaned |}.

(** ** api/main.py *)

(** The request model [Event]. *)
Record Event : Type := mkApiEvent {
  ev_ts : Z;
  ev_userId : string;
  ev_sessionId : Z;
  ev_page : string;
  ev_auth : option string;
  ev_method : option string;
  ev_status : option Z;
  ev_level : option string;
  ev_itemInSession : option Z;
  ev_location : option string;
  ev_userAgent : option string;
  ev_lastName : option string;
  ev_firstName : option string;
  ev_registration : option Z;
  ev_gender : option string;
  ev_artist : option string;
  ev_song : option string;
  ev_length : option Q
}.

Record PredictionResponse : Type := mkResponse {
  churn_probability : fval;
  churn_label : Z;
  user_id : string
}.

(** What [predict] can raise: the two [HTTPException]s, an exception of
    the pipeline that it does not catch, and the [IndexError] of [[0][1]]
    on no row. *)
Inductive api_exn : Type :=
| HTTPException (status_code : Z) (detail : string)
| Uncaught (e : exn)
| IndexError.

(** [a >= b] on floats; false with a NaN operand. *)
Definition fge (a b : fval) : bool :=
  match a, b with
  | FNum x, FNum y => Qle_bool y x
  | _, _ => false
  end.

(** The columns of [pd.DataFrame(event_dicts)]: the fields of [Event]. *)
Definition event_columns : list string :=
  ["ts"; "userId"; "sessionId"; "page"; "auth"; "method"; "status"; "level";
   "itemInSession"; "location"; "userAgent"; "lastName"; "firstName";
   "registration"; "gender"; "artist"; "song"; "length"]%string.

(** [event.model_dump()], as a row of the table; the fields that the
    pipeline never reads are left out of the row. *)
Definition model_dump (e : Event) : RawEvent :=
  {| raw_ts := ev_ts e;
     raw_userId := Some (ev_userId e);
     raw_sessionId := Some (ev_sessionId e);
     raw_page := ev_page e;
     raw_itemInSession := ev_itemInSession e;
     raw_level := ev_level e;
     raw_length := ev_length e;
     raw_artist := ev_artist e;
     raw_song := ev_song e;
     raw_gender := ev_gender e;
     raw_location := ev_location e;
     raw_registration := ev_registration e |}.

(** [pd.DataFrame(event_dicts)]: no column at all for no event. *)
Definition events_frame (events : list Event) : RawLog :=
  {| raw_columns := match events with [] => [] | _ => event_columns end;
     raw_records := model_dump <$> events |}.

(** A cell of the feature table. *)
Inductive cell : Type :=
| CInt (z : Z)
| CFloat (v : fval)
| CTime (t : Z).

Definition optional_item {A} (name : string) (f : A → cell) (o : option A)
  : list (string * cell) :=
  match o with
  | Some a => [(name, f a)]
  | None => []
  end.

Definition count_cell (n : nat) : cell := CInt (Z.of_nat n).

(** The columns of one row of the feature table, in the order in which
    [build_user_features] fills the dict; [userId] is the index and an
    optional key that was not set is absent. *)
Definition snapshot_items (row : Snapshot) : list (string * cell) :=
  [("label_ts", CTime (label_ts row));
   ("churned", CInt (churned row));
   ("num_events", count_cell (num_events row));
   ("num_sessions", count_cell (num_sessions row));
   ("num_songs", count_cell (num_songs row));
   ("num_errors", count_cell (num_errors row));
   ("num_add_friend", count_cell (num_add_friend row));
   ("num_add_playlist", count_cell (num_add_playlist row));
   ("num_roll_advert", count_cell (num_roll_advert row));
   ("num_thumb_up", count_cell (num_thumb_up row));
   ("num_thumb_down", count_cell (num_thumb_down row));
   ("avg_items_per_session", CFloat (avg_items_per_session row));
   ("std_items_per_session", CFloat (std_items_per_session row));
   ("total_listening_minutes", CFloat (total_listening_minutes row));
   ("event_rate_per_hour", CFloat (event_rate_per_hour row));
   ("distinct_artists", count_cell (distinct_artists row));
   ("distinct_songs", count_cell (distinct_songs row));
   ("avg_session_minutes", CFloat (avg_session_minutes row));
   ("median_session_minutes", CFloat (median_session_minutes row));
   ("std_session_minutes", CFloat (std_session_minutes row));
   ("paid_event_ratio", CFloat (paid_event_ratio row))]%string
  ++ optional_item "gender_M" CInt (gender_M row)
  ++ optional_item "gender_F" CInt (gender_F row)
  ++ optional_item "current_level_paid" CInt (current_level_paid row)
  ++ optional_item "num_locations" count_cell (num_locations row)
  ++ optional_item "account_age_days" CFloat (account_age_days row)
  ++ [("active_days"%string, CFloat (active_days row))].

(** [df.drop(columns=names, errors="ignore")] on one row. *)
Definition drop_columns (names : list string) (items : list (string * cell))
  : list (string * cell) :=
  filter (λ kv, kv.1 ∉ names) items.

(** [{event["userId"] for event in event_dicts}], as the list of the
    distinct ids. *)
Definition user_id_set (events : list Event) : list string :=
  remove_dups (ev_userId <$> events).

Section Api.

Variable sqrtQ : Q → Q.

(** [self.pipeline.predict_proba], the loaded classifier: for each row of
    the frame the probabilities of the two classes.  It is a parameter. *)
Variable predict_proba : list (list (string * cell)) → list (fval * fval).

(** [ModelService.predict] *)
Definition service_predict (config : TrainingConfig) (events : list Event)
  : api_exn + PredictionResponse :=
  match user_id_set events with
  | [uid] =>
      match clean_event_log (events_frame events) with
      | inl e => inl (Uncaught e)
      | inr df =>
          let features :=
            build_feature_matrix sqrtQ df (feature_config config) in
          match features with
          | [] => inl (HTTPException 422
                         "Insufficient data to build user features.")
          | _ =>
              let inference_df :=
                (λ row, drop_columns [target_column config; "label_ts"%string]
                          (snapshot_items row)) <$> features in
              match predict_proba inference_df with
              | [] => inl IndexError
              | (p0, p1) :: _ =>
                  inr {| churn_probability := p1;
                         churn_label := flag (fge p1 (FNum (1 # 2)));
                         user_id := uid |}
              end
          end
      end
  | _ => inl (HTTPException 400 "Events must belong to a single userId.")
  end.

End Api.

(** ** scripts/analysis.py *)

(** [assign_churn_labels]: each row with the value of its new [churned]
    column. *)
Definition assign_churn_labels (events : list EventRecord)
  : list (EventRecord * Z) :=
  let churn_users := userId <$> filter (λ e, page e = CHURN_EVENT) events in
  (λ e, (e, flag (bool_decide (userId e ∈ churn_users)))) <$> events.

(** The Python slice [values[:n]]; a negative [n] counts from the end. *)
Definition slice_to {A} (n : Z) (values : list A) : list A :=
  if decide (0 ≤ n) then take (Z.to_nat n) values
  else take (length values - Z.to_nat (- n)) values.

(** Lines 151-153 of [main]: the cap [--limit-users] on the users that
    are analysed; no cap for [None] and for 0. *)
Definition limit_users (limit : option Z) (events : list EventRecord)
  : list EventRecord :=
  match limit with
  | None => events
  | Some n =>
      if decide (n = 0) then events
      else
        let allowed_users := slice_to n (unique (userId <$> events)) in
        filter (λ e, userId e ∈ allowed_users) events
  end.

(** The raw row keeps its [userId] through the cleaning. *)
Definition valid_user (r : RawEvent) : Prop :=
  match raw_userId r with
  | Some u => u ≠ ""%string ∧ u ≠ "None"%string
  | None => False
  end.

Global Instance valid_user_dec r : Decision (valid_user r).
Proof. unfold valid_user. destruct (raw_userId r); apply _. Defined.

(** ** Further specification predicates *)

(** The event [e] lies in the window that a row with the given label and
    cutoff is built from: strictly before the cutoff of a churned user,
    and no earlier than [lookback_days] days before the cutoff when a
    lookback is set. *)
Definition in_window (cfg : FeatureConfig) (is_churned : bool) (cutoff_ts : Z)
    (e : EventRecord) : Prop :=
  (is_churned = true → ts e < cutoff_ts)
  ∧ (lookback_days cfg ≠ 0 →
     cutoff_ts - lookback_days cfg * ms_per_day ≤ ts e).

Global Instance in_window_dec cfg is_churned cutoff_ts e :
  Decision (in_window cfg is_churned cutoff_ts e).
Proof. unfold in_window. apply _. Defined.

(** The sum of the seven per-page counters of a row. *)
Definition page_counters (row : Snapshot) : nat :=
  (num_songs row + num_errors row + num_add_friend row + num_add_playlist row
   + num_roll_advert row + num_thumb_up row + num_thumb_down row)%nat.

(** The record that the loop of the drift report appends for a column
    that both tables hold as numbers. *)
Definition drift_column_record (lnQ : Q → Q) (col : string)
    (base now : list fval) : DriftRecord :=
  mkDriftRecord col
    (population_stability_index lnQ base now 10 (1 # 1000000))
    (kolmogorov_smirnov_statistic base now).

(** The flags of a state of that loop agree with its records. *)
Definition drift_flags_agree (psi_threshold ks_threshold : fval)
    (state : list DriftRecord * (bool * bool)) : Prop :=
  (state.2.1 = true ↔ ∃ r, r ∈ state.1 ∧ fgt (psi r) psi_threshold = true)
  ∧ (state.2.2 = true ↔ ∃ r, r ∈ state.1 ∧ fgt (ks r) ks_threshold = true).

(** Every record of a state is the record of one of the columns [cols]. *)
Definition drift_records_sound (lnQ : Q → Q) (baseline current : DataFrame)
    (cols : list string) (state : list DriftRecord * (bool * bool)) : Prop :=
  ∀ r, r ∈ state.1 →
    ∃ base now,
      feature r ∈ cols
      ∧ df_get baseline (feature r) = Some (NumCol base)
      ∧ df_get current (feature r) = Some (NumCol now)
      ∧ r = drift_column_record lnQ (feature r) base now.

(** ** Further sample inputs *)

Module Cases.

(** An event of a second user. *)
Definition other_event (t : Z) (p : string) : EventRecord :=
  {| ts := t; userId := "u2"; sessionId := 9; page := p;
     itemInSession := 0; level := Some "free"%string;
     song_length := Some 200%Q; artist := Some "a"%string;
     song := Some "s"%string; gender := Some "F"%string; location := None;
     registration := Some 0 |}.

(** The events of "u1" and then two events of "u2". *)
Definition two_users : list EventRecord :=
  Samples.three_events
  ++ [other_event 300000 "NextSong"; other_event 900000 "Thumbs Up"].

Definition one_one : FeatureConfig := Samples.with_thresholds 1 1.


Definition two_users_log : EventLog := mkLog Samples.all_columns two_users.

(** The row of "u1" in the table of [two_users_log]: "u2" has a
    registration and "u1" has none. *)
Definition aligned_three_row : Snapshot :=
  with_account_age (Some FNaN) Samples.three_row.


(** The row of "u1" for [Samples.gender_reappears]. *)
Definition gender_row : Snapshot :=
  make_snapshot Samples.sqrt_floor one_one Samples.all_columns "u1" 2000
    false 1 (records Samples.gender_reappears).

(** Two numeric columns. *)
Definition before : list fval := [FNum 1; FNum 2; FNum 3; FNum 4].
Definition after : list fval := [FNum 3; FNum 4; FNum 4; FNum 6].

(** Two tables with a text column between two numeric ones. *)
Definition baseline_frame : DataFrame :=
  [("num_events"%string, NumCol before);
   ("plan"%string, ObjCol);
   ("num_songs"%string, NumCol [FNum 5; FNum 5; FNaN; FNum 7])].
Definition current_frame : DataFrame :=
  [("num_events"%string, NumCol after);
   ("plan"%string, ObjCol);
   ("num_songs"%string, NumCol [FNum 5; FNum 7; FNum 5])].

(** The drift report of the two tables under [Samples.ln_first_order]. *)
Definition frame_report : DriftReport :=
  {| feature_metrics :=
       [mkDriftRecord "num_events" (FNum (187499500001 # 125000000000))
          (FNum (1 # 2));
        mkDriftRecord "num_songs" (FNum 0) (FNum 0)];
     flag_psi := true;
     flag_ks := true |}.

Definition raw_row (t : Z) (u : option string) (s : option Z) (p : string)
  : RawEvent :=
  {| raw_ts := t; raw_userId := u; raw_sessionId := s; raw_page := p;
     raw_itemInSession := None; raw_level := None; raw_length := None;
     raw_artist := None; raw_song := None; raw_gender := None;
     raw_location := None; raw_registration := None |}.

(** A raw log with a row without [userId] and a row with the [userId] "",
    and with a cancellation that has no [sessionId]. *)
Definition raw_sample : RawLog :=
  {| raw_columns := Samples.all_columns;
     raw_records :=
       [raw_row 0 (Some "u1"%string) (Some 7) "NextSong";
        raw_row 100 None (Some 7) "NextSong";
        raw_row 200 (Some ""%string) (Some 7) "NextSong";
        raw_row 300 (Some "u1"%string) None "Cancellation Confirmation"] |}.

Definition cleaned_event (t s : Z) (p : string) : EventRecord :=
  {| ts := t; userId := "u1"; sessionId := s; page := p;
     itemInSession := 0; level := None; song_length := Some 0%Q;
     artist := None; song := None; gender := None; location := None;
     registration := None |}.

(** [raw_sample] after the cleaning. *)
Definition cleaned_sample : EventLog :=
  mkLog Samples.all_columns
    [cleaned_event 0 7 "NextSong";
     cleaned_event 300 (-1) "Cancellation Confirmation"].

(** The row of "u1" for [cleaned_sample]. *)
Definition cleaned_row : Snapshot :=
  make_snapshot Samples.sqrt_floor one_one Samples.all_columns "u1" 300
    true 1 [cleaned_event 0 7 "NextSong"].

(** A request to the service: three events of "u1". *)
Definition api_event (t : Z) (p : string) : Event :=
  {| ev_ts := t; ev_userId := "u1"; ev_sessionId := 7; ev_page := p;
     ev_auth := None; ev_method := None; ev_status := None;
     ev_level := Some "paid"%string; ev_itemInSession := None;
     ev_location := None; ev_userAgent := None; ev_lastName := None;
     ev_firstName := None; ev_registration := Some 0;
     ev_gender := Some "M"%string; ev_artist := None; ev_song := None;
     ev_length := None |}.

Definition request : list Event :=
  [api_event 0 "NextSong"; api_event 600000 "NextSong";
   api_event 1200000 "Thumbs Up"].


(** A stand-in for the classifier: the same probabilities for each row. *)
Definition fixed_proba (frame : list (list (string * cell)))
  : list (fval * fval) :=
  (λ _, (FNum (1 # 4), FNum (3 # 4))) <$> frame.

Definition service_config : TrainingConfig :=
  {| random_state := 42; feature_config := one_one;
     split_config := split_config (Samples.training 1);
     target_column := "churned" |}.

Definition answer : PredictionResponse :=
  {| churn_probability := FNum (3 # 4); churn_label := 1; user_id := "u1" |}.

End Cases.

(** * Properties *)

(** ** Columns and sorting *)

Lemma series_max_elem (l : list Z) (m : Z) :
  series_max l = Some m → m ∈ l.
Proof.
  destruct l as [|x r]; [discriminate|].
  intros [= <-]. induction r as [|y r IH]; simpl.
  - apply list_elem_of_here.
  - destruct (Z.max_spec y (foldr Z.max x r)) as [[_ ->]|[_ ->]].
    + apply elem_of_cons in IH as [IH|IH].
      * rewrite IH. apply list_elem_of_here.
      * do 2 apply list_elem_of_further. exact IH.
    + apply list_elem_of_further, list_elem_of_here.
Qed.

Lemma series_max_upper (l : list Z) (m : Z) :
  series_max l = Some m → ∀ x, x ∈ l → x ≤ m.
Proof.
  destruct l as [|x r]; [discriminate|].
  intros [= <-]. induction r as [|y r IH]; intros z Hz.
  - apply list_elem_of_singleton in Hz. subst. simpl. lia.
  - simpl. apply elem_of_cons in Hz as [Hz|Hz].
    + subst z. specialize (IH x (list_elem_of_here _ _)). lia.
    + apply elem_of_cons in Hz as [Hz|Hz]; [subst z; lia|].
      specialize (IH z (list_elem_of_further _ _ _ Hz)). lia.
Qed.

Lemma series_max_is_Some (l : list Z) :
  l ≠ [] → is_Some (series_max l).
Proof. destruct l; [done|eauto]. Qed.

Global Instance ts_le_trans : Transitive ts_le.
Proof. intros a b c. unfold ts_le. lia. Qed.

Global Instance ts_le_total : Total ts_le.
Proof. intros a b. unfold ts_le. lia. Qed.

Global Instance label_ts_le_trans : Transitive label_ts_le.
Proof. intros a b c. unfold label_ts_le. lia. Qed.

Global Instance label_ts_le_total : Total label_ts_le.
Proof. intros a b. unfold label_ts_le. lia. Qed.

Lemma sort_values_ts_elem (evs : list EventRecord) (e : EventRecord) :
  e ∈ sort_values_ts evs ↔ e ∈ evs.
Proof. unfold sort_values_ts. by rewrite merge_sort_Permutation. Qed.

Lemma sort_values_ts_sorted (evs : list EventRecord) :
  StronglySorted ts_le (sort_values_ts evs).
Proof. apply StronglySorted_merge_sort; apply _. Qed.

(** In a table sorted by [ts], the first row that satisfies a mask has the
    least timestamp among the rows that satisfy it. *)
Lemma first_match_least (P : EventRecord → Prop) `{∀ e, Decision (P e)}
    (s : list EventRecord) (c : EventRecord) (rest : list EventRecord) :
  StronglySorted ts_le s →
  filter P s = c :: rest →
  ∀ e, e ∈ s → P e → ts c ≤ ts e.
Proof.
  induction 1 as [|x s Hs IH Hx]; [discriminate|].
  rewrite filter_cons. destruct (decide (P x)) as [Px|Px].
  - intros [= <- _] e He _.
    apply elem_of_cons in He as [->|He]; [lia|].
    rewrite Forall_forall in Hx. apply (Hx e He).
  - intros Hf e He Pe.
    apply elem_of_cons in He as [->|He]; [done|]. by apply IH.
Qed.

(** ** The churn cutoff and the lookback window *)

Lemma apply_cutoff_churned (s : list EventRecord) (c : Z)
    (evs : list EventRecord) :
  apply_cutoff s = Some (true, c, evs) →
  ∃ e rest, filter (λ e, page e = CHURN_EVENT) s = e :: rest
            ∧ ts e = c ∧ evs = filter (λ x, ts x < c) s.
Proof.
  unfold apply_cutoff. destruct (series_max (ts <$> s)); [|discriminate].
  destruct (filter _ s) as [|e rest] eqn:Hf; intros [= <- <-].
  by exists e, rest.
Qed.

Lemma apply_cutoff_retained (s : list EventRecord) (c : Z)
    (evs : list EventRecord) :
  apply_cutoff s = Some (false, c, evs) →
  filter (λ e, page e = CHURN_EVENT) s = [] ∧ series_max (ts <$> s) = Some c
  ∧ evs = s.
Proof.
  unfold apply_cutoff. destruct (series_max (ts <$> s)); [|discriminate].
  destruct (filter _ s) as [|e rest] eqn:Hf; by intros [= <- <-].
Qed.

Lemma apply_lookback_elem (cfg : FeatureConfig) (c : Z)
    (evs : list EventRecord) (e : EventRecord) :
  e ∈ apply_lookback cfg c evs → e ∈ evs.
Proof.
  unfold apply_lookback. case_decide; [done|].
  rewrite list_elem_of_filter. tauto.
Qed.


(** ** The feature builder *)

Section FeatureProperties.

Variable sqrtQ : Q → Q.

Lemma user_row_inv (cfg : FeatureConfig) (cols : list string) (u : string)
    (ue : list EventRecord) (row : Snapshot) :
  user_row sqrtQ cfg cols u ue = Some row →
  ∃ is_churned cutoff_ts evs,
    apply_cutoff (sort_values_ts ue) = Some (is_churned, cutoff_ts, evs)
    ∧ working_subset cfg ue = apply_lookback cfg cutoff_ts evs
    ∧ ¬ Z.of_nat (length (working_subset cfg ue)) < min_events_per_user cfg
    ∧ ¬ Z.of_nat (nunique (sessionId <$> working_subset cfg ue))
        < min_sessions_per_user cfg
    ∧ row = make_snapshot sqrtQ cfg cols u cutoff_ts is_churned
              (nunique (sessionId <$> working_subset cfg ue))
              (working_subset cfg ue).
Proof.
  unfold user_row, working_subset.
  destruct (apply_cutoff (sort_values_ts ue)) as [[[ch c] evs]|];
    [|discriminate].
  repeat case_decide; try discriminate.
  intros [= <-]. by exists ch, c, evs.
Qed.

Lemma user_row_userId (cfg : FeatureConfig) (cols : list string)
    (u : string) (ue : list EventRecord) (row : Snapshot) :
  user_row sqrtQ cfg cols u ue = Some row → snap_userId row = u.
Proof.
  intros H. apply user_row_inv in H as (ch & c & evs & _ & _ & _ & _ & ->).
  reflexivity.
Qed.

Lemma groupby_userId_elem (evs : list EventRecord)
    (g : string * list EventRecord) :
  g ∈ groupby_userId evs ↔
  g.1 ∈ userId <$> evs ∧ g.2 = user_events_of g.1 evs.
Proof.
  unfold groupby_userId. rewrite list_elem_of_fmap.
  setoid_rewrite merge_sort_Permutation.
  setoid_rewrite elem_of_remove_dups. split.
  - intros (u & -> & Hu). done.
  - intros [Hu Hg]. exists g.1. split; [|done].
    destruct g as [a b]. simpl in *. by subst.
Qed.

(** Every dict of the list is the one that the loop body builds for a
    user of the log, from that user's events. *)
Lemma feature_rows_elem (events : EventLog) (cfg : FeatureConfig)
    (dict : Snapshot) :
  dict ∈ feature_rows sqrtQ events cfg ↔
  ∃ u, u ∈ userId <$> records events
       ∧ user_row sqrtQ cfg (columns events) u
           (user_events_of u (records events)) = Some dict.
Proof.
  unfold feature_rows. rewrite list_elem_of_omap. split.
  - intros ([u ue] & Hg & Hrow). apply groupby_userId_elem in Hg as [Hu Hg].
    simpl in *. subst ue. by exists u.
  - intros (u & Hu & Hrow). exists (u, user_events_of u (records events)).
    split; [|done]. by apply groupby_userId_elem.
Qed.

Lemma feature_rows_dict (events : EventLog) (cfg : FeatureConfig)
    (dict : Snapshot) :
  dict ∈ feature_rows sqrtQ events cfg →
  user_row sqrtQ cfg (columns events) (snap_userId dict)
    (user_events_of (snap_userId dict) (records events)) = Some dict.
Proof.
  intros (u & _ & Hrow)%feature_rows_elem.
  by rewrite (user_row_userId _ _ _ _ _ Hrow).
Qed.

(** The optional keys other than [account_age_days] are set in every
    dict of the list or in none, so that the table has nothing to fill
    for them. *)
Lemma optional_keys_uniform (events : EventLog) (cfg : FeatureConfig)
    (d1 d2 : Snapshot) :
  d1 ∈ feature_rows sqrtQ events cfg →
  d2 ∈ feature_rows sqrtQ events cfg →
  (is_Some (gender_M d1) ↔ is_Some (gender_M d2))
  ∧ (is_Some (gender_F d1) ↔ is_Some (gender_F d2))
  ∧ (is_Some (current_level_paid d1) ↔ is_Some (current_level_paid d2))
  ∧ (is_Some (num_locations d1) ↔ is_Some (num_locations d2)).
Proof.
  intros H1%feature_rows_dict H2%feature_rows_dict.
  apply user_row_inv in H1 as (ch1 & c1 & evs1 & _ & _ & _ & _ & ->).
  apply user_row_inv in H2 as (ch2 & c2 & evs2 & _ & _ & _ & _ & ->).
  cbn [gender_M gender_F current_level_paid num_locations make_snapshot].
  unfold gender_fields, level_field, location_field.
  destruct (include_gender cfg && has_column (columns events) "gender"),
    (include_level cfg),
    (include_location cfg && has_column (columns events) "location");
    cbn [fst snd]; repeat split; intros []; eauto; discriminate.
Qed.

Lemma align_account_age_dict (present : bool) (dict : Snapshot) :
  row_of_dict dict (align_account_age present dict).
Proof.
  unfold align_account_age, row_of_dict.
  destruct (account_age_days dict) eqn:Hage; [by left|].
  destruct present; [by right|by left].
Qed.

Lemma row_of_dict_userId (dict row : Snapshot) :
  row_of_dict dict row → snap_userId row = snap_userId dict.
Proof. by intros [->|[_ ->]]. Qed.

Lemma align_account_age_userId (present : bool) (dict : Snapshot) :
  snap_userId (align_account_age present dict) = snap_userId dict.
Proof. apply row_of_dict_userId, align_account_age_dict. Qed.


(** Every row of the feature table is a dict of the list, aligned. *)
Lemma build_user_features_elem (events : EventLog) (cfg : FeatureConfig)
    (row : Snapshot) :
  row ∈ build_user_features sqrtQ events cfg ↔
  ∃ dict, dict ∈ feature_rows sqrtQ events cfg
          ∧ row = align_account_age
                    (has_account_age (feature_rows sqrtQ events cfg)) dict.
Proof.
  unfold build_user_features, frame_of_dicts.
  rewrite merge_sort_Permutation, list_elem_of_fmap. split.
  - intros (dict & -> & Hdict). by exists dict.
  - intros (dict & Hdict & ->). by exists dict.
Qed.

(** Every row of the feature table is the dict that the loop body builds
    for its user, from that user's events, as a row of the table. *)
Lemma build_user_features_row (events : EventLog) (cfg : FeatureConfig)
    (row : Snapshot) :
  row ∈ build_user_features sqrtQ events cfg →
  ∃ dict,
    user_row sqrtQ cfg (columns events) (snap_userId row)
      (user_events_of (snap_userId row) (records events)) = Some dict
    ∧ row_of_dict dict row.
Proof.
  intros (dict & Hdict & ->)%build_user_features_elem. exists dict.
  rewrite align_account_age_userId.
  split; [by apply feature_rows_dict|apply align_account_age_dict].
Qed.

(** Every row of the feature table is the row of a user of the log. *)
Lemma feature_row_user (events : EventLog) (cfg : FeatureConfig)
    (row : Snapshot) :
  row ∈ build_user_features sqrtQ events cfg →
  snap_userId row ∈ userId <$> records events.
Proof.
  intros (dict & Hdict & ->)%build_user_features_elem.
  rewrite align_account_age_userId.
  apply feature_rows_elem in Hdict as (u & Hu & Hdict).
  by rewrite (user_row_userId _ _ _ _ _ Hdict).
Qed.

Lemma row_of_dict_eq (dict row : Snapshot) :
  row_of_dict dict row → row = with_account_age (account_age_days row) dict.
Proof. intros [->|[_ ->]]; [by destruct dict|done]. Qed.

(** What the loop body did for a row of the table. *)
Lemma feature_row_inv (events : EventLog) (cfg : FeatureConfig)
    (row : Snapshot) :
  row ∈ build_user_features sqrtQ events cfg →
  let ue := user_events_of (snap_userId row) (records events) in
  ∃ is_churned cutoff_ts evs,
    apply_cutoff (sort_values_ts ue) = Some (is_churned, cutoff_ts, evs)
    ∧ working_subset cfg ue = apply_lookback cfg cutoff_ts evs
    ∧ ¬ Z.of_nat (length (working_subset cfg ue)) < min_events_per_user cfg
    ∧ ¬ Z.of_nat (nunique (sessionId <$> working_subset cfg ue))
        < min_sessions_per_user cfg
    ∧ row_of_dict
        (make_snapshot sqrtQ cfg (columns events) (snap_userId row) cutoff_ts
           is_churned (nunique (sessionId <$> working_subset cfg ue))
           (working_subset cfg ue)) row.
Proof.
  intros (dict & Hdict & Hrow)%build_user_features_row ue.
  apply user_row_inv in Hdict as (ch & c & evs & Hcut & Hws & Hev & Hse & ->).
  by exists ch, c, evs.
Qed.

(** Conversely, the dict of a user that passes the thresholds has its row
    in the table. *)
Lemma build_user_features_of_dict (events : EventLog) (cfg : FeatureConfig)
    (u : string) (dict : Snapshot) :
  u ∈ userId <$> records events →
  user_row sqrtQ cfg (columns events) u (user_events_of u (records events))
  = Some dict →
  ∃ row, row ∈ build_user_features sqrtQ events cfg ∧ row_of_dict dict row.
Proof.
  intros Hu Hdict.
  exists (align_account_age (has_account_age (feature_rows sqrtQ events cfg))
            dict).
  split; [|apply align_account_age_dict].
  apply build_user_features_elem. exists dict. split; [|done].
  apply feature_rows_elem. by exists u.
Qed.

Lemma omap_index_NoDup {A} (F : A → option Snapshot) (key : A → string)
    (l : list A) :
  NoDup (key <$> l) →
  (∀ a row, F a = Some row → snap_userId row = key a) →
  NoDup (snap_userId <$> omap F l).
Proof.
  intros Hnd Hkey. induction l as [|a l IH]; [constructor|].
  rewrite fmap_cons in Hnd. apply NoDup_cons in Hnd as [Ha Hnd].
  simpl. destruct (F a) as [row|] eqn:Hrow; [|by apply IH].
  rewrite fmap_cons. apply NoDup_cons. split; [|by apply IH].
  intros (row' & Heq & Hin)%list_elem_of_fmap.
  apply list_elem_of_omap in Hin as (a' & Ha' & Hrow').
  apply Ha. rewrite <- (Hkey _ _ Hrow), Heq, (Hkey _ _ Hrow').
  by apply list_elem_of_fmap_2.
Qed.

Lemma feature_rows_index_NoDup (events : EventLog) (cfg : FeatureConfig) :
  NoDup (snap_userId <$> feature_rows sqrtQ events cfg).
Proof.
  unfold feature_rows. apply (omap_index_NoDup _ fst).
  - unfold groupby_userId. rewrite <- list_fmap_compose.
    rewrite (list_fmap_ext _ id) by done. rewrite list_fmap_id.
    rewrite merge_sort_Permutation. apply NoDup_remove_dups.
  - intros [u ue] row Hrow. by apply user_row_userId in Hrow.
Qed.

(** The [userId] index of the feature table has no repeated label. *)
Lemma build_user_features_index_NoDup (events : EventLog)
    (cfg : FeatureConfig) :
  NoDup (snap_userId <$> build_user_features sqrtQ events cfg).
Proof.
  unfold build_user_features, frame_of_dicts.
  rewrite merge_sort_Permutation, <- list_fmap_compose.
  rewrite (list_fmap_ext _ snap_userId);
    [apply feature_rows_index_NoDup|].
  intros i dict _. apply align_account_age_userId.
Qed.

(** A row built from no event at all has a NaN [avg_items_per_session]. *)
Lemma eventless_row_mean (events : EventLog) (cfg : FeatureConfig)
    (row : Snapshot) :
  row ∈ build_user_features sqrtQ events cfg →
  num_events row = 0%nat →
  avg_items_per_session row = FNaN.
Proof.
  intros Hrow%feature_row_inv Hnone.
  destruct Hrow as (ch & c & evs & _ & _ & _ & _ & Hmk%row_of_dict_eq).
  rewrite Hmk in Hnone.
  cbn [num_events with_account_age make_snapshot] in Hnone.
  apply nil_length_inv in Hnone. rewrite Hmk, Hnone. reflexivity.
Qed.

(** C1. No leakage.  A row of the feature table with [churned = 1] is
    built from the working subset of its user alone: it is the dict of
    that subset, but for a NaN [account_age_days] where the dict has none
    (first conjunct);
    its [label_ts] is the timestamp of a "Cancellation Confirmation"
    event of that user, and the earliest such timestamp (second and third
    conjuncts); and every event of the working subset is an event of that
    user with a timestamp strictly below [label_ts], whatever the event
    log, the [FeatureConfig] and the lookback window are (fourth
    conjunct). *)
Theorem no_leakage (events : EventLog) (cfg : FeatureConfig)
    (row : Snapshot) :
  row ∈ build_user_features sqrtQ events cfg →
  churned row = 1 →
  let ue := user_events_of (snap_userId row) (records events) in
  let ws := working_subset cfg ue in
  row_of_dict (make_snapshot sqrtQ cfg (columns events) (snap_userId row)
                 (label_ts row) true (nunique (sessionId <$> ws)) ws) row
  ∧ (∃ c, c ∈ ue ∧ page c = CHURN_EVENT ∧ ts c = label_ts row)
  ∧ (∀ c, c ∈ ue → page c = CHURN_EVENT → label_ts row ≤ ts c)
  ∧ (∀ e, e ∈ ws → e ∈ ue ∧ ts e < label_ts row).
Proof.
  intros Hrow Hch ue ws.
  apply feature_row_inv in Hrow
    as (ch & c & evs & Hcut & Hws & _ & _ & Hmk).
  fold ue in Hcut, Hws, Hmk. fold ws in Hmk.
  pose proof (row_of_dict_eq _ _ Hmk) as Heq.
  assert (ch = true) as ->.
  { rewrite Heq in Hch.
    cbn [churned with_account_age make_snapshot flag] in Hch.
    by destruct ch. }
  assert (label_ts row = c) as Hc by (by rewrite Heq).
  apply apply_cutoff_churned in Hcut as (e0 & rest & Hf & He0 & Hevs).
  assert (e0 ∈ filter (λ e, page e = CHURN_EVENT) (sort_values_ts ue))
    as [Hp He0in]%list_elem_of_filter
    by (rewrite Hf; apply list_elem_of_here).
  apply (proj1 (sort_values_ts_elem _ _)) in He0in.
  rewrite Hc. split; [exact Hmk|].
  split; [exists e0; split; [exact He0in|split; [exact Hp|exact He0]]|].
  split.
  - intros x Hx Px. rewrite <- He0.
    apply (first_match_least _ _ _ _ (sort_values_ts_sorted ue) Hf);
      [by apply sort_values_ts_elem|done].
  - intros e He. fold ws in Hws. rewrite Hws in He.
    apply apply_lookback_elem in He. rewrite Hevs in He.
    apply list_elem_of_filter in He as [Hlt He].
    apply (proj1 (sort_values_ts_elem _ _)) in He. done.
Qed.

(** C2. Threshold filtering.  A user whose working subset has fewer
    events than [min_events_per_user], or fewer distinct [sessionId]s
    than [min_sessions_per_user], has no row in the feature table. *)
Theorem threshold_filtering (events : EventLog) (cfg : FeatureConfig)
    (u : string) :
  let ws := working_subset cfg (user_events_of u (records events)) in
  Z.of_nat (length ws) < min_events_per_user cfg
  ∨ Z.of_nat (nunique (sessionId <$> ws)) < min_sessions_per_user cfg →
  ∀ row, row ∈ build_user_features sqrtQ events cfg → snap_userId row ≠ u.
Proof.
  intros ws Hlow row Hrow Hu.
  apply feature_row_inv in Hrow as (_ & _ & _ & _ & _ & Hev & Hse & _).
  rewrite Hu in Hev, Hse. fold ws in Hev, Hse. tauto.
Qed.

End FeatureProperties.

(** ** The three-event scenario *)



Section Scenario.

Variable sqrtQ : Q → Q.


End Scenario.

(** ** Where a NaN can come from *)

Lemma nan_to_zero_number (v : fval) : isnan (nan_to_zero v) = false.
Proof. by destruct v. Qed.

Lemma mean_number (xs : list Q) : xs ≠ [] → isnan (mean xs) = false.
Proof. by destruct xs. Qed.

Lemma std0_number (sqrtQ : Q → Q) (xs : list Q) :
  xs ≠ [] → isnan (std0 sqrtQ xs) = false.
Proof. by destruct xs. Qed.

Lemma session_stats_number (sqrtQ : Q → Q) (events : list EventRecord) :
  isnan (_session_stats sqrtQ events).1.1 = false
  ∧ isnan (_session_stats sqrtQ events).1.2 = false
  ∧ isnan (_session_stats sqrtQ events).2 = false.
Proof.
  unfold _session_stats. destruct events as [|e events]; [done|].
  destruct (session_durations (e :: events)); [done|].
  cbv zeta. cbn [fst snd]. by rewrite !nan_to_zero_number.
Qed.

Lemma event_rate_number (events : list EventRecord) :
  isnan (_event_rate events) = false.
Proof.
  unfold _event_rate. destruct events as [|e events]; [done|].
  simpl. by destruct (Qle_bool _ 0).
Qed.

Lemma safe_ratio_number (n d : nat) : isnan (_safe_ratio n d) = false.
Proof. unfold _safe_ratio. by case_decide. Qed.

(** Every session of a non-empty table has a greatest [itemInSession]. *)
Lemma session_item_counts_nonempty (events : list EventRecord) :
  events ≠ [] →
  omap (λ g : Z * list EventRecord, series_max (itemInSession <$> g.2))
       (groupby_sessionId events) ≠ [].
Proof.
  destruct events as [|e events]; [done|]. intros _ Hnil.
  assert (sessionId e ∈ merge_sort Z.le
            (remove_dups (sessionId <$> e :: events))) as Hkey.
  { rewrite merge_sort_Permutation, elem_of_remove_dups, fmap_cons.
    apply list_elem_of_here. }
  set (g := (sessionId e, filter (λ x, sessionId x = sessionId e)
                                 (e :: events))).
  assert (g ∈ groupby_sessionId (e :: events)) as Hg.
  { unfold groupby_sessionId. apply list_elem_of_fmap. by exists (sessionId e). }
  assert (is_Some (series_max (itemInSession <$> g.2))) as [m Hm].
  { apply series_max_is_Some. subst g. simpl.
    rewrite filter_cons_True by done. done. }
  assert (m ∈ omap (λ g : Z * list EventRecord,
                      series_max (itemInSession <$> g.2))
                   (groupby_sessionId (e :: events))) as Hin
    by (apply list_elem_of_omap; by exists g).
  rewrite Hnil in Hin. by apply elem_of_nil in Hin.
Qed.

(** A row built from at least one event has no NaN statistic: the NaN of
    [avg_items_per_session] is confined to the empty working subset. *)
Lemma populated_row_no_nan (sqrtQ : Q → Q) (cfg : FeatureConfig)
    (cols : list string) (u : string) (c : Z) (ch : bool) (n : nat)
    (ws : list EventRecord) :
  ws ≠ [] →
  row_has_nan (make_snapshot sqrtQ cfg cols u c ch n ws) = false.
Proof.
  intros Hws. pose proof (session_item_counts_nonempty ws Hws) as Hcounts.
  destruct (session_stats_number sqrtQ ws) as (Hs1 & Hs2 & Hs3).
  unfold row_has_nan, make_snapshot.
  cbn [avg_items_per_session std_items_per_session total_listening_minutes
       event_rate_per_hour avg_session_minutes median_session_minutes
       std_session_minutes paid_event_ratio account_age_days active_days].
  rewrite Hs1, Hs2, Hs3, event_rate_number, safe_ratio_number.
  rewrite mean_number
    by (intros Hnil; by apply fmap_nil_inv in Hnil).
  assert (isnan (if decide (1 < length (omap
              (λ g : Z * list EventRecord, series_max (itemInSession <$> g.2))
              (groupby_sessionId ws)))%nat
            then std0 sqrtQ (inject_Z <$> omap
              (λ g : Z * list EventRecord, series_max (itemInSession <$> g.2))
              (groupby_sessionId ws))
            else zero) = false) as ->.
  { case_decide; [|done]. apply std0_number.
    intros Hnil. by apply fmap_nil_inv in Hnil. }
  assert (from_option isnan false (account_age_field cols c ws) = false) as ->.
  { unfold account_age_field. destruct (has_column cols "registration"); [|done].
    by destruct (dropna (registration <$> ws)). }
  assert (isnan (active_days_field ws) = false) as ->.
  { unfold active_days_field.
    by destruct (series_max (ts <$> ws)), (series_min (ts <$> ws)). }
  reflexivity.
Qed.

(** ** Defaults on an empty working subset, and the categorical fields *)

Section Defaults.

Variable sqrtQ : Q → Q.

(** A row built from an empty working subset has a NaN
    [avg_items_per_session]: the mean of no value. *)
Lemma empty_subset_mean (cfg : FeatureConfig) (cols : list string)
    (u : string) (c : Z) (ch : bool) (n : nat) :
  avg_items_per_session (make_snapshot sqrtQ cfg cols u c ch n []) = FNaN.
Proof. reflexivity. Qed.

(** C4. With both thresholds at 0, the user whose only event is the
    cancellation gets a row built from an empty working subset, and the
    [avg_items_per_session] of that row is NaN, whereas the session
    statistics, the event rate and the ratio of the same row are 0. *)
Theorem empty_subset_row_has_nan :
  ∃ row,
    build_user_features sqrtQ Samples.lone_cancellation
      (Samples.with_thresholds 0 0) = [row]
    ∧ num_events row = 0%nat
    ∧ avg_items_per_session row = FNaN
    ∧ avg_session_minutes row = zero
    ∧ median_session_minutes row = zero
    ∧ std_session_minutes row = zero
    ∧ std_items_per_session row = zero
    ∧ event_rate_per_hour row = zero
    ∧ paid_event_ratio row = zero.
Proof. eexists. split; [vm_compute; reflexivity|]. repeat split. Qed.

(** [current_level_paid] follows the last non-missing [level] of the
    rows it is given. *)
Lemma level_field_last (cfg : FeatureConfig) (evs : list EventRecord) :
  include_level cfg = true →
  level_field cfg evs
  = Some (flag (bool_decide (last (dropna (level <$> evs))
                             = Some "paid"%string))).
Proof. unfold level_field. by intros ->. Qed.

(** C5. For a user whose [gender] reads M, F, M in timestamp order the
    last observed value is M, yet the row has [gender_M = 0] and
    [gender_F = 1]: the field follows the distinct value that first
    appeared last, not the value observed last.  [current_level_paid] of the
    same row does follow the last observed [level]. *)
Theorem gender_follows_last_new_value :
  let ws := working_subset (Samples.with_thresholds 1 1)
              (user_events_of "u1" (records Samples.gender_reappears)) in
  last (dropna (gender <$> ws)) = Some "M"%string
  ∧ last (dropna (level <$> ws)) = Some "paid"%string
  ∧ ∃ row,
      build_user_features sqrtQ Samples.gender_reappears
        (Samples.with_thresholds 1 1) = [row]
      ∧ gender_M row = Some 0
      ∧ gender_F row = Some 1
      ∧ current_level_paid row = Some 1.
Proof.
  split; [vm_compute; reflexivity|]. split; [vm_compute; reflexivity|].
  eexists. split; [vm_compute; reflexivity|]. repeat split.
Qed.

End Defaults.

(** ** The dataset splitter *)









Section TrainerProperties.

Variable train_test_split :
  list string → Q → Z → list Z → result (list string * list string).

(** What the splitter relies on from scikit-learn: when
    [train_test_split] returns, the two parts together are a
    rearrangement of the index it was given. *)
Hypothesis train_test_split_parts :
  ∀ index ratio seed labels train_idx test_idx,
    train_test_split index ratio seed labels = inr (train_idx, test_idx) →
    train_idx ++ test_idx ≡ₚ index.






(** What the splitter relies on besides: [train_test_split] raises on an
    empty index, whose train part would be empty. *)
Hypothesis train_test_split_empty :
  ∀ ratio seed labels, ∃ e, train_test_split [] ratio seed labels = inl e.






End TrainerProperties.

(** ** Population stability index *)

Lemma Qred_zero (q : Q) : (q == 0)%Q → Qred q = 0%Q.
Proof. intros H. by rewrite (Qred_complete _ _ H). Qed.

Lemma Qlt_bool_true (x y : Q) : (x < y)%Q → Qlt_bool x y = true.
Proof.
  intros H. unfold Qlt_bool. destruct (Qle_bool y x) eqn:E; [|done].
  apply Qle_bool_iff in E. by destruct (Qlt_not_le _ _ H).
Qed.

Lemma Qlt_bool_false (x y : Q) : Qlt_bool x y = false → (y <= x)%Q.
Proof.
  unfold Qlt_bool. destruct (Qle_bool y x) eqn:E; [|done].
  intros _. by apply Qle_bool_iff.
Qed.

Lemma bin_ratio_pos (bins : list Z) (b : Z) (epsilon : Q) :
  (0 < epsilon)%Q → (0 < bin_ratio bins b epsilon)%Q.
Proof.
  intros Heps. unfold bin_ratio.
  destruct (Qlt_bool _ epsilon) eqn:E; [done|].
  apply Qlt_bool_false in E. by eapply Qlt_le_trans.
Qed.

Section PsiProperties.

Variable lnQ : Q → Q.

(** The term that a bin with equal expected and actual shares adds to
    the index leaves a zero index at zero. *)
Lemma psi_term_equal_shares (r : Q) :
  (0 < r)%Q →
  fadd zero (fmul (fsub (FNum r) (FNum r))
                  (flog lnQ (fdiv (FNum r) (FNum r)))) = zero.
Proof.
  intros Hr. unfold fsub, fdiv, lift2, fnum.
  assert (Qeq_bool r 0 = false) as ->.
  { destruct (Qeq_bool r 0) eqn:E; [|done].
    apply Qeq_bool_eq in E. rewrite E in Hr. by destruct (Qlt_irrefl 0). }
  rewrite (Qred_zero (r - r)) by ring.
  assert (Qred (r / r) = 1%Q) as ->.
  { rewrite (Qred_complete (r / r) 1); [done|].
    apply Qmult_inv_r. intros E. rewrite E in Hr.
    by destruct (Qlt_irrefl 0). }
  unfold flog. rewrite Qlt_bool_true by done.
  unfold fmul, fadd, lift2, fnum, zero.
  set (y := Qred (lnQ 1)). rewrite (Qred_zero (0 * y)) by ring. done.
Qed.

Lemma psi_self_zero (series : list fval) (buckets : nat) (epsilon : Q) :
  (0 < epsilon)%Q →
  dropna_num series ≠ [] →
  population_stability_index lnQ series series buckets epsilon = zero.
Proof.
  intros Heps Hne. unfold population_stability_index.
  destruct (dropna_num series) as [|x xs] eqn:Hx; [done|].
  cbv zeta. case_decide; [done|].
  match goal with |- foldl _ _ ?l = _ => generalize l end.
  intros bs. induction bs as [|b bs IH]; [done|].
  cbn [foldl]. rewrite psi_term_equal_shares by (by apply bin_ratio_pos).
  exact IH.
Qed.

(** C8. The population stability index of a series against itself, with
    the default 10 buckets and epsilon 1e-6, is exactly 0.0 as soon as
    the series has a value that is not missing; a constant series is
    included. *)
Theorem psi_self_comparison (series : list fval) :
  dropna_num series ≠ [] →
  population_stability_index lnQ series series 10 (1 # 1000000) = zero.
Proof. intros Hne. by apply psi_self_zero. Qed.

(** A constant series has a single quantile edge, and the index is the
    early 0.0. *)
Lemma psi_constant_series_edges :
  length (np_unique (quantile_sorted (merge_sort Qle [3; 3; 3]%Q)
                       <$> linspace01 10)) = 1%nat.
Proof. vm_compute. reflexivity. Qed.

End PsiProperties.

(** ** The drift report *)

Lemma df_get_absent (df : DataFrame) (name : string) :
  name ∉ df.*1 → df_get df name = None.
Proof.
  induction df as [|[c v] df IH]; [done|]. simpl.
  intros Hn. apply not_elem_of_cons in Hn as [Hne Hn].
  rewrite decide_False by done. by apply IH.
Qed.

Section DriftReportProperties.

Variable lnQ : Q → Q.

(** Columns that [current] lacks leave the state of the loop as it is. *)
Lemma drift_loop_skips (baseline current : DataFrame)
    (psi_threshold ks_threshold : fval) (cols : list string)
    (state : list DriftRecord * (bool * bool)) :
  (∀ c, c ∈ cols → c ∉ current.*1) →
  drift_loop lnQ baseline current psi_threshold ks_threshold cols state
  = inr state.
Proof.
  induction cols as [|c cols IH]; intros Hcols; [done|].
  simpl. unfold drift_step.
  rewrite (df_get_absent current c) by apply Hcols, list_elem_of_here.
  simpl. apply IH. intros x Hx. by apply Hcols, list_elem_of_further.
Qed.

Lemma selected_columns_no_numeric (baseline : DataFrame) :
  (∀ name col, (name, col) ∈ baseline → is_numeric_dtype col = false) →
  selected_columns baseline None = [].
Proof.
  intros Hobj. unfold selected_columns.
  induction baseline as [|[c v] df IH]; [done|].
  rewrite filter_cons_False.
  - apply IH. intros name col Hin. apply (Hobj name col).
    by apply list_elem_of_further.
  - simpl. rewrite (Hobj c v) by apply list_elem_of_here. done.
Qed.

(** C10. When the baseline has no numeric column and [feature_columns]
    is omitted, or when no selected column is a column of [current], the
    loop appends no record and [compute_data_drift_report] raises
    [KeyError] for the column "psi" that the empty records table lacks;
    it does not return an empty report. *)
Theorem drift_report_raises_without_records (baseline current : DataFrame)
    (feature_columns : option (list string))
    (psi_threshold ks_threshold : fval) :
  (feature_columns = None
   ∧ ∀ name col, (name, col) ∈ baseline → is_numeric_dtype col = false)
  ∨ (∀ c, c ∈ selected_columns baseline feature_columns → c ∉ current.*1) →
  compute_data_drift_report lnQ baseline current feature_columns
    psi_threshold ks_threshold = inl (KeyError "psi").
Proof.
  intros Hcase. unfold compute_data_drift_report. cbv zeta.
  rewrite drift_loop_skips; [done|].
  destruct Hcase as [[-> Hobj]|Hcur]; [|done].
  rewrite (selected_columns_no_numeric _ Hobj).
  intros c Hc. by apply elem_of_nil in Hc.
Qed.

End DriftReportProperties.

(** ** Performance drift *)

Lemma delta_fold_absent (current : gmap string fval)
    (items : list (string * fval)) (acc : gmap string fval) (m : string) :
  m ∉ items.*1 →
  foldl (delta_step current) acc items !! m = acc !! m.
Proof.
  revert acc. induction items as [|[k b] items IH]; intros acc Hm; [done|].
  rewrite fmap_cons in Hm. apply not_elem_of_cons in Hm as [Hne Hm].
  simpl. rewrite IH by done. unfold delta_step. simpl.
  destruct (current !! k); [|done]. by rewrite lookup_insert_ne.
Qed.

Lemma delta_fold_present (current : gmap string fval)
    (items : list (string * fval)) (acc : gmap string fval)
    (m : string) (b : fval) :
  NoDup items.*1 → (m, b) ∈ items →
  foldl (delta_step current) acc items !! m
  = match current !! m with
    | Some c => Some (metric_delta b c)
    | None => acc !! m
    end.
Proof.
  revert acc. induction items as [|[k v] items IH]; intros acc Hnd Hin.
  - by apply elem_of_nil in Hin.
  - rewrite fmap_cons in Hnd. apply NoDup_cons in Hnd as [Hk Hnd].
    apply elem_of_cons in Hin as [[= -> ->]|Hin]; simpl.
    + rewrite delta_fold_absent by done. unfold delta_step. simpl.
      destruct (current !! k); [|done]. by rewrite lookup_insert_eq.
    + rewrite (IH _ Hnd Hin). destruct (current !! m) eqn:Hc; [done|].
      unfold delta_step. simpl. destruct (current !! k) eqn:Hk'; [|done].
      rewrite lookup_insert_ne; [done|]. intros ->. congruence.
Qed.

(** The deltas that the loop of [performance_drift] leaves. *)
Lemma deltas_lookup (baseline current : gmap string fval) (m : string) :
  foldl (delta_step current) ∅ (map_to_list baseline) !! m
  = b ← baseline !! m; c ← current !! m; Some (metric_delta b c).
Proof.
  destruct (baseline !! m) as [b|] eqn:Hb; simpl.
  - rewrite (delta_fold_present _ _ _ m b).
    + by destruct (current !! m).
    + apply NoDup_fst_map_to_list.
    + by apply elem_of_map_to_list.
  - rewrite delta_fold_absent; [done|].
    intros ((k & v) & -> & Hin)%list_elem_of_fmap.
    apply elem_of_map_to_list in Hin. simpl in Hb. congruence.
Qed.

Lemma needs_retrain_flag (deltas : gmap string fval) (limit : fval) :
  existsb (λ kv : string * fval, flt kv.2 limit)
          (filter (λ kv, kv.1 ≠ "needs_retrain"%string) (map_to_list deltas))
  = true
  ↔ ∃ m d, m ≠ "needs_retrain"%string ∧ deltas !! m = Some d
           ∧ flt d limit = true.
Proof.
  rewrite existsb_exists. split.
  - intros ([m d] & Hin & Hlt). apply list_elem_of_In in Hin.
    apply list_elem_of_filter in Hin as [Hne Hin].
    apply elem_of_map_to_list in Hin. by exists m, d.
  - intros (m & d & Hne & Hd & Hlt). exists (m, d). split; [|done].
    apply list_elem_of_In, list_elem_of_filter. split; [done|].
    by apply elem_of_map_to_list.
Qed.

(** A delta that is NaN is below no limit, so that a metric with a zero
    baseline takes no part in the retrain decision. *)
Lemma zero_baseline_excluded (b c limit : fval) :
  feq b zero = true →
  metric_delta b c = FNaN ∧ flt (metric_delta b c) limit = false.
Proof. intros Hb. unfold metric_delta. by rewrite Hb. Qed.

(** C9, as amended.  For every pair of metric mappings and every
    threshold: the result holds, for each shared metric other than the
    reserved name "needs_retrain", the delta [(current - baseline) /
    |baseline|], which is NaN when the baseline is 0; it holds no other
    metric; its "needs_retrain" entry is a boolean that is true exactly
    when the delta of some shared metric other than "needs_retrain" is a
    number strictly below [-|degrade_threshold|] (a NaN delta is below
    nothing); and for f1 going from 0.80 to 0.65 with threshold 0.1 the
    result holds a delta for f1 that is -0.1875 to within 1e-9 and a true
    "needs_retrain", and nothing else.  (In exact arithmetic the delta is
    -0.1875; binary64 rounding moves it in the last place.) *)
Theorem performance_drift_contract
    (baseline_metrics current_metrics : gmap string fval)
    (degrade_threshold : fval) :
  let out :=
    performance_drift baseline_metrics current_metrics degrade_threshold in
  let limit := fneg (fabs degrade_threshold) in
  (∀ m b c,
     m ≠ "needs_retrain"%string →
     baseline_metrics !! m = Some b → current_metrics !! m = Some c →
     out !! m = Some (VFloat (if feq b zero then FNaN
                              else fdiv (fsub c b) (fabs b))))
  ∧ (∀ m,
       m ≠ "needs_retrain"%string →
       baseline_metrics !! m = None ∨ current_metrics !! m = None →
       out !! m = None)
  ∧ (∀ v, flt FNaN v = false)
  ∧ (∃ needs_retrain,
       out !! "needs_retrain"%string = Some (VBool needs_retrain)
       ∧ (needs_retrain = true ↔
          ∃ m b c,
            m ≠ "needs_retrain"%string
            ∧ baseline_metrics !! m = Some b ∧ current_metrics !! m = Some c
            ∧ flt (metric_delta b c) limit = true))
  ∧ (∃ delta,
       performance_drift Samples.f1_baseline Samples.f1_current
         (FNum (1 # 10))
       = {[ "f1"%string := VFloat (FNum delta);
            "needs_retrain"%string := VBool true ]}
       ∧ (Qabs (delta - - (1875 # 10000)) <= 1 # 1000000000)%Q).
Proof.
  intros out limit. subst out. unfold performance_drift.
  split; [|split; [|split; [|split]]].
  - intros m b c Hne Hb Hc.
    rewrite lookup_insert_ne by done.
    rewrite lookup_fmap, deltas_lookup, Hb. simpl. by rewrite Hc.
  - intros m Hne Hnone.
    rewrite lookup_insert_ne by done.
    rewrite lookup_fmap, deltas_lookup.
    destruct Hnone as [->| ->]; [done|]. by destruct (baseline_metrics !! m).
  - done.
  - eexists. split; [apply lookup_insert_eq|].
    fold limit. rewrite needs_retrain_flag. split.
    + intros (m & d & Hne & Hd & Hlt). rewrite deltas_lookup in Hd.
      destruct (baseline_metrics !! m) as [b|] eqn:Hb; [|done].
      destruct (current_metrics !! m) as [c|] eqn:Hc; [|done].
      simpl in Hd. injection Hd as <-. by exists m, b, c.
    + intros (m & b & c & Hne & Hb & Hc & Hlt).
      exists m, (metric_delta b c). split; [done|]. split; [|done].
      rewrite deltas_lookup, Hb. simpl. by rewrite Hc.
  - exists (-3 # 16)%Q. split; [|by apply Qle_bool_iff].
    apply map_eq. intros k.
    destruct (decide (k = "needs_retrain"%string)) as [->|Hk1];
      [vm_compute; reflexivity|].
    destruct (decide (k = "f1"%string)) as [->|Hk2];
      [vm_compute; reflexivity|].
    rewrite !lookup_insert_ne by done.
    rewrite lookup_fmap, deltas_lookup. unfold Samples.f1_baseline.
    by rewrite !lookup_singleton_ne by done.
Qed.

(** The contract as the specification words it fails for a metric that is
    itself named "needs_retrain": its delta -0.5 is below -0.1, yet the
    flag that overwrites it is false. *)
Lemma drift_contract_reserved_name :
  ¬ drift_contract Samples.reserved_baseline Samples.reserved_current
      (FNum (1 # 10))
      (performance_drift Samples.reserved_baseline Samples.reserved_current
                         (FNum (1 # 10))).
Proof.
  intros [_ Hflag].
  assert (performance_drift Samples.reserved_baseline
            Samples.reserved_current (FNum (1 # 10))
          !! "needs_retrain"%string = Some (VBool true)) as Htrue.
  { apply Hflag. exists "needs_retrain"%string, (FNum 1), (FNum (1 # 2)).
    repeat split; vm_compute; reflexivity. }
  vm_compute in Htrue. discriminate.
Qed.

(** ** The properties at the sample inputs *)



(** No leakage, at the three-event log. *)
Lemma no_leakage_witness :
  Samples.three_row
    ∈ build_user_features Samples.sqrt_floor Samples.three_log
        (Samples.with_thresholds 1 1)
  ∧ churned Samples.three_row = 1
  ∧ ∀ e,
      e ∈ working_subset (Samples.with_thresholds 1 1)
            (user_events_of (snap_userId Samples.three_row)
               (records Samples.three_log)) →
      e ∈ user_events_of (snap_userId Samples.three_row)
            (records Samples.three_log)
      ∧ ts e < label_ts Samples.three_row.
Proof.
  assert (Samples.three_row
            ∈ build_user_features Samples.sqrt_floor Samples.three_log
                (Samples.with_thresholds 1 1)) as Hrow
    by (vm_compute; constructor).
  split; [exact Hrow|]. split; [reflexivity|].
  exact (proj2 (proj2 (proj2
    (no_leakage Samples.sqrt_floor Samples.three_log
       (Samples.with_thresholds 1 1) Samples.three_row Hrow eq_refl)))).
Defined.

(** Threshold filtering: two events are fewer than the default ten. *)
Lemma threshold_filtering_witness :
  (Z.of_nat (length (working_subset Samples.default_features
       (user_events_of "u1" (records Samples.three_log))))
   < min_events_per_user Samples.default_features
   ∨ Z.of_nat (nunique (sessionId <$> working_subset Samples.default_features
       (user_events_of "u1" (records Samples.three_log))))
     < min_sessions_per_user Samples.default_features)
  ∧ ∀ row,
      row ∈ build_user_features Samples.sqrt_floor Samples.three_log
              Samples.default_features →
      snap_userId row ≠ "u1"%string.
Proof.
  assert (Z.of_nat (length (working_subset Samples.default_features
            (user_events_of "u1" (records Samples.three_log))))
          < min_events_per_user Samples.default_features) as Hfew
    by (vm_compute; reflexivity).
  split; [left; exact Hfew|].
  exact (threshold_filtering Samples.sqrt_floor Samples.three_log
           Samples.default_features "u1" (or_introl Hfew)).
Defined.






(** The index of the sample series against itself. *)
Lemma psi_self_comparison_witness :
  dropna_num Samples.series ≠ []
  ∧ population_stability_index Samples.ln_first_order Samples.series
      Samples.series 10 (1 # 1000000) = zero.
Proof.
  assert (dropna_num Samples.series ≠ []) as Hne by (vm_compute; discriminate).
  split; [exact Hne|].
  exact (psi_self_comparison Samples.ln_first_order Samples.series Hne).
Defined.

(** The drift report of a table without a numeric column. *)
Lemma drift_report_raises_witness :
  (∀ name col, (name, col) ∈ Samples.text_only → is_numeric_dtype col = false)
  ∧ compute_data_drift_report Samples.ln_first_order Samples.text_only
      Samples.text_only None (FNum (1 # 5)) (FNum (1 # 10))
    = inl (KeyError "psi").
Proof.
  assert (∀ name col, (name, col) ∈ Samples.text_only →
                      is_numeric_dtype col = false) as Hobj.
  { intros name col Hin. apply list_elem_of_singleton in Hin.
    by injection Hin as -> ->. }
  split; [exact Hobj|].
  exact (drift_report_raises_without_records Samples.ln_first_order
           Samples.text_only Samples.text_only None (FNum (1 # 5))
           (FNum (1 # 10)) (or_introl (conj eq_refl Hobj))).
Defined.

(** * Further properties of the feature builder *)

Section BuilderProperties.

Variable sqrtQ : Q → Q.

Lemma user_events_of_elem (u : string) (evs : list EventRecord)
    (e : EventRecord) :
  e ∈ user_events_of u evs ↔ userId e = u ∧ e ∈ evs.
Proof. exact (list_elem_of_filter (λ x, userId x = u) evs e). Qed.

Lemma user_events_of_nonempty (u : string) (evs : list EventRecord) :
  u ∈ userId <$> evs ↔ user_events_of u evs ≠ [].
Proof.
  split.
  - intros (e & -> & He)%list_elem_of_fmap Hnil.
    assert (e ∈ user_events_of (userId e) evs) as Hin
      by (by apply user_events_of_elem).
    rewrite Hnil in Hin. by apply elem_of_nil in Hin.
  - intros Hne. destruct (user_events_of u evs) as [|e l] eqn:Hue; [done|].
    assert (e ∈ user_events_of u evs) as [Hu He]%user_events_of_elem
      by (rewrite Hue; apply list_elem_of_here).
    rewrite <- Hu. by apply list_elem_of_fmap_2.
Qed.

Lemma sort_values_ts_nonempty (evs : list EventRecord) :
  evs ≠ [] → sort_values_ts evs ≠ [].
Proof.
  intros Hne Hnil. apply Hne. apply Permutation_nil_r.
  rewrite <- Hnil. unfold sort_values_ts. by rewrite merge_sort_Permutation.
Qed.

Lemma apply_cutoff_is_Some (sorted : list EventRecord) :
  sorted ≠ [] → is_Some (apply_cutoff sorted).
Proof.
  intros Hne. unfold apply_cutoff.
  destruct (series_max_is_Some (ts <$> sorted)) as [m ->].
  { intros Hnil. by apply fmap_nil_inv in Hnil. }
  destruct (filter _ sorted); eauto.
Qed.

(** The loop body emits a row for every non-empty group whose working
    subset meets both thresholds. *)
Lemma user_row_is_Some (cfg : FeatureConfig) (cols : list string) (u : string)
    (ue : list EventRecord) :
  ue ≠ [] →
  min_events_per_user cfg ≤ Z.of_nat (length (working_subset cfg ue)) →
  min_sessions_per_user cfg
    ≤ Z.of_nat (nunique (sessionId <$> working_subset cfg ue)) →
  is_Some (user_row sqrtQ cfg cols u ue).
Proof.
  intros Hne Hev Hse. unfold user_row, working_subset in *.
  destruct (apply_cutoff_is_Some (sort_values_ts ue)) as [[[ch c] evs] Hcut];
    [by apply sort_values_ts_nonempty|].
  rewrite Hcut in *. rewrite !decide_False by lia. eauto.
Qed.

(** X1. The index of the feature table has no repeated [userId], and a
    user is in it exactly when the log has an event of that user and the
    working subset of the user has at least [min_events_per_user] events
    and at least [min_sessions_per_user] distinct sessions. *)
Theorem feature_table_users (events : EventLog) (cfg : FeatureConfig) :
  NoDup (snap_userId <$> build_user_features sqrtQ events cfg)
  ∧ ∀ u,
      u ∈ snap_userId <$> build_user_features sqrtQ events cfg ↔
      u ∈ userId <$> records events
      ∧ min_events_per_user cfg
          ≤ Z.of_nat (length (working_subset cfg
                                (user_events_of u (records events))))
      ∧ min_sessions_per_user cfg
          ≤ Z.of_nat (nunique (sessionId <$> working_subset cfg
                                 (user_events_of u (records events)))).
Proof.
  split; [apply build_user_features_index_NoDup|].
  intros u. rewrite list_elem_of_fmap. split.
  - intros (row & -> & Hrow).
    pose proof (feature_row_inv _ _ _ _ Hrow)
      as (_ & _ & _ & _ & _ & Hev & Hse & _).
    apply build_user_features_elem in Hrow as (dict & Hdict & ->).
    rewrite align_account_age_userId in *.
    apply feature_rows_elem in Hdict as (u' & Hu' & Hdict).
    rewrite (user_row_userId _ _ _ _ _ _ Hdict) in *.
    split; [done|]. lia.
  - intros (Hu & Hev & Hse).
    destruct (user_row_is_Some cfg (columns events) u
                (user_events_of u (records events))) as [dict Hdict];
      [by apply user_events_of_nonempty|done|done|].
    destruct (build_user_features_of_dict _ _ _ _ _ Hu Hdict)
      as (row & Hrow & Hal).
    exists row. split; [|done].
    by rewrite (row_of_dict_userId _ _ Hal),
         (user_row_userId _ _ _ _ _ _ Hdict).
Qed.

(** The row of a user and the cutoff it was built with. *)
Lemma feature_row_cutoff (events : EventLog) (cfg : FeatureConfig)
    (row : Snapshot) :
  row ∈ build_user_features sqrtQ events cfg →
  let ue := user_events_of (snap_userId row) (records events) in
  ∃ is_churned evs,
    apply_cutoff (sort_values_ts ue) = Some (is_churned, label_ts row, evs)
    ∧ churned row = flag is_churned
    ∧ working_subset cfg ue = apply_lookback cfg (label_ts row) evs
    ∧ num_events row = length (working_subset cfg ue)
    ∧ num_sessions row = nunique (sessionId <$> working_subset cfg ue)
    ∧ row_of_dict
        (make_snapshot sqrtQ cfg (columns events) (snap_userId row)
           (label_ts row) is_churned (num_sessions row)
           (working_subset cfg ue)) row.
Proof.
  intros Hrow ue.
  apply feature_row_inv in Hrow as (ch & c & evs & Hcut & Hws & _ & _ & Hmk).
  fold ue in Hcut, Hws, Hmk.
  pose proof (row_of_dict_eq _ _ Hmk) as Heq.
  assert (label_ts row = c) as Hc by (by rewrite Heq).
  assert (num_sessions row = nunique (sessionId <$> working_subset cfg ue))
    as Hs by (by rewrite Heq).
  exists ch, evs. rewrite Hc, Hs.
  repeat split; try done; by rewrite Heq.
Qed.

(** X2. Every row has [churned] 0 or 1; it is 1 exactly when the user
    has a "Cancellation Confirmation" event in the log, and for a row with
    [churned = 0] the [label_ts] is the latest timestamp of the user's
    events. *)
Theorem churn_label_correct (events : EventLog) (cfg : FeatureConfig)
    (row : Snapshot) :
  row ∈ build_user_features sqrtQ events cfg →
  let ue := user_events_of (snap_userId row) (records events) in
  (churned row = 0 ∨ churned row = 1)
  ∧ (churned row = 1 ↔ ∃ e, e ∈ ue ∧ page e = CHURN_EVENT)
  ∧ (churned row = 0 →
     label_ts row ∈ ts <$> ue ∧ ∀ e, e ∈ ue → ts e ≤ label_ts row).
Proof.
  intros Hrow ue.
  destruct (feature_row_cutoff _ _ _ Hrow)
    as (ch & evs & Hcut & Hch & _). fold ue in Hcut.
  destruct ch.
  - apply apply_cutoff_churned in Hcut as (e0 & rest & Hf & _ & _).
    assert (e0 ∈ filter (λ e, page e = CHURN_EVENT) (sort_values_ts ue))
      as [Hp Hin]%list_elem_of_filter by (rewrite Hf; apply list_elem_of_here).
    apply (proj1 (sort_values_ts_elem _ _)) in Hin.
    rewrite Hch. simpl. split; [by right|]. split; [|done].
    split; [intros _; by exists e0|done].
  - apply apply_cutoff_retained in Hcut as (Hnone & Hmax & _).
    rewrite Hch. simpl. split; [by left|]. split.
    + split; [done|]. intros (e & He & Hp). exfalso.
      apply (filter_nil_not_elem_of _ _ e Hnone Hp).
      by apply sort_values_ts_elem.
    + intros _. split.
      * pose proof (series_max_elem _ _ Hmax) as Hin.
        apply list_elem_of_fmap in Hin as (e & -> & He).
        apply (proj1 (sort_values_ts_elem _ _)) in He.
        by apply list_elem_of_fmap_2.
      * intros e He. apply (series_max_upper _ _ Hmax).
        apply list_elem_of_fmap_2. by apply sort_values_ts_elem.
Qed.


(** Every row meets both thresholds. *)
Lemma feature_row_thresholds (events : EventLog) (cfg : FeatureConfig)
    (row : Snapshot) :
  row ∈ build_user_features sqrtQ events cfg →
  min_events_per_user cfg ≤ Z.of_nat (num_events row)
  ∧ min_sessions_per_user cfg ≤ Z.of_nat (num_sessions row).
Proof.
  intros Hrow.
  destruct (feature_row_cutoff _ _ _ Hrow) as (_ & _ & _ & _ & _ & -> & -> & _).
  apply feature_row_inv in Hrow as (_ & _ & _ & _ & _ & Hev & Hse & _). lia.
Qed.

Lemma apply_lookback_filter (cfg : FeatureConfig) (c : Z)
    (evs : list EventRecord) :
  apply_lookback cfg c evs
  = filter (λ e, lookback_days cfg ≠ 0 →
                 c - lookback_days cfg * ms_per_day ≤ ts e) evs.
Proof.
  unfold apply_lookback. case_decide as Hlb.
  - symmetry. induction evs as [|e evs IH]; [done|].
    rewrite filter_cons_True by done. by rewrite IH.
  - cbv zeta. apply list_filter_iff. intros e. tauto.
Qed.

(** X3. The working subset of a row is, up to order, the events of the
    user that lie in the window of the row: strictly before [label_ts]
    when the user churned, and at most [lookback_days] days before
    [label_ts] when a lookback is set.  [num_events] is their number. *)
Theorem working_subset_is_window (events : EventLog) (cfg : FeatureConfig)
    (row : Snapshot) :
  row ∈ build_user_features sqrtQ events cfg →
  let ue := user_events_of (snap_userId row) (records events) in
  let window :=
    filter (in_window cfg (bool_decide (churned row = 1)) (label_ts row)) ue in
  working_subset cfg ue ≡ₚ window
  ∧ num_events row = length window.
Proof.
  intros Hrow ue window.
  destruct (feature_row_cutoff _ _ _ Hrow)
    as (ch & evs & Hcut & Hch & Hws & Hn & _). fold ue in Hcut, Hws, Hn.
  assert (working_subset cfg ue ≡ₚ window) as Hperm.
  { rewrite Hws, apply_lookback_filter. subst window. rewrite Hch.
    destruct ch; simpl.
    - apply apply_cutoff_churned in Hcut as (_ & _ & _ & _ & ->).
      rewrite list_filter_filter. unfold sort_values_ts.
      rewrite merge_sort_Permutation.
      erewrite list_filter_iff; [done|]. intros e. unfold in_window.
      intuition (auto; discriminate).
    - apply apply_cutoff_retained in Hcut as (_ & _ & ->).
      unfold sort_values_ts. rewrite merge_sort_Permutation.
      erewrite list_filter_iff; [done|]. intros e. unfold in_window.
      intuition (auto; discriminate). }
  split; [done|]. by rewrite Hn, Hperm.
Qed.

Lemma remove_dups_length_le {A} `{EqDecision A} (l : list A) :
  (length (remove_dups l) ≤ length l)%nat.
Proof.
  induction l as [|x l IH]; [done|]. cbn [remove_dups].
  destruct (decide_rel elem_of x l); simpl; lia.
Qed.

Lemma nunique_le {A B} `{EqDecision B} (f : A → B) (l : list A) :
  (nunique (f <$> l) ≤ length l)%nat.
Proof.
  unfold nunique. etrans; [apply remove_dups_length_le|].
  by rewrite length_fmap.
Qed.

Lemma dropna_length_le {A} (l : list (option A)) :
  (length (dropna l) ≤ length l)%nat.
Proof.
  unfold dropna, omap. induction l as [|[a|] l IH]; simpl; lia.
Qed.

Lemma nunique_dropna_le {A B} `{EqDecision B} (f : A → option B)
    (l : list A) :
  (nunique (dropna (f <$> l)) ≤ length l)%nat.
Proof.
  unfold nunique. etrans; [apply remove_dups_length_le|].
  etrans; [apply dropna_length_le|]. by rewrite length_fmap.
Qed.

(** The rows whose page is one of pairwise distinct names are counted
    once each by the per-page counters. *)
Lemma count_pages_sum (names : list string) (evs : list EventRecord) :
  NoDup names →
  foldr (λ p n, (count_page p evs + n)%nat) 0%nat names
  = length (filter (λ e, page e ∈ names) evs).
Proof.
  induction 1 as [|p names Hp Hnd IH]; simpl.
  - induction evs as [|e evs IHe]; [done|].
    rewrite filter_cons_False; [done|]. apply not_elem_of_nil.
  - rewrite IH. clear IH. unfold count_page.
    induction evs as [|e evs IHe]; [done|].
    rewrite !filter_cons. destruct (decide (page e = p)) as [Heq|Hne].
    + rewrite decide_False by (rewrite Heq; exact Hp).
      rewrite decide_True by (rewrite Heq; apply list_elem_of_here).
      simpl. lia.
    + destruct (decide (page e ∈ names)) as [Hin|Hnin].
      * rewrite decide_True by (by apply list_elem_of_further). simpl. lia.
      * rewrite decide_False; [exact IHe|].
        intros [?|?]%elem_of_cons; done.
Qed.

(** X4. In every row the seven per-page counters together do not exceed
    [num_events], and neither do [num_sessions], [distinct_artists] and
    [distinct_songs]; a row with an event has a session. *)
Theorem row_counts_bounded (events : EventLog) (cfg : FeatureConfig)
    (row : Snapshot) :
  row ∈ build_user_features sqrtQ events cfg →
  (page_counters row ≤ num_events row)%nat
  ∧ (num_sessions row ≤ num_events row)%nat
  ∧ (distinct_artists row ≤ num_events row)%nat
  ∧ (distinct_songs row ≤ num_events row)%nat
  ∧ (0 < num_events row → 0 < num_sessions row)%nat.
Proof.
  intros Hrow.
  destruct (feature_row_cutoff _ _ _ Hrow)
    as (ch & evs & _ & _ & _ & _ & Hs & Hmk).
  set (ws := working_subset cfg
               (user_events_of (snap_userId row) (records events))) in *.
  rewrite Hs in Hmk. apply row_of_dict_eq in Hmk. rewrite Hmk.
  unfold page_counters.
  cbn [num_songs num_errors num_add_friend num_add_playlist num_roll_advert
       num_thumb_up num_thumb_down num_events num_sessions distinct_artists
       distinct_songs with_account_age make_snapshot].
  split; [|split; [|split; [|split]]].
  - pose proof (count_pages_sum
      ["NextSong"; "Error"; "Add Friend"; "Add to Playlist"; "Roll Advert";
       "Thumbs Up"; "Thumbs Down"]%string ws) as Hsum.
    simpl in Hsum. rewrite Nat.add_0_r in Hsum.
    pose proof (length_filter (λ e, page e ∈
      ["NextSong"; "Error"; "Add Friend"; "Add to Playlist"; "Roll Advert";
       "Thumbs Up"; "Thumbs Down"]%string) ws) as Hle.
    rewrite <- Hsum in Hle; [lia|].
    apply (bool_decide_unpack _). vm_compute. exact I.
  - apply nunique_le.
  - apply nunique_dropna_le.
  - apply nunique_dropna_le.
  - destruct ws as [|e ws']; [simpl; lia|]. intros _.
    unfold nunique. rewrite fmap_cons.
    destruct (remove_dups (sessionId e :: (sessionId <$> ws'))) eqn:Hrd;
      [|simpl; lia].
    assert (sessionId e ∈ remove_dups (sessionId e :: (sessionId <$> ws')))
      as Hin by (apply elem_of_remove_dups, list_elem_of_here).
    rewrite Hrd in Hin. by apply elem_of_nil in Hin.
Qed.


(** The [account_age_days] of a dict: set, to a number, exactly when the
    log has a "registration" column and the working subset of the user has
    a registration. *)
Lemma feature_dict_account_age (events : EventLog) (cfg : FeatureConfig)
    (dict : Snapshot) :
  dict ∈ feature_rows sqrtQ events cfg →
  let ws := working_subset cfg
              (user_events_of (snap_userId dict) (records events)) in
  (account_age_days dict = None
   ∧ (has_column (columns events) "registration" = false
      ∨ dropna (registration <$> ws) = []))
  ∨ (∃ q, account_age_days dict = Some (FNum q))
    ∧ has_column (columns events) "registration" = true
    ∧ dropna (registration <$> ws) ≠ [].
Proof.
  intros Hdict%feature_rows_dict ws.
  apply user_row_inv in Hdict as (ch & c & evs & _ & _ & _ & _ & Hmk).
  fold ws in Hmk. rewrite Hmk.
  cbn [account_age_days make_snapshot]. unfold account_age_field.
  destruct (has_column (columns events) "registration"); [|left; auto].
  destruct (dropna (registration <$> ws)) as [|reg regs]; [left; auto|].
  right. split; [|done]. unfold of_Z, fnum. eauto.
Qed.

Lemma row_has_nan_without_age (dict : Snapshot) :
  row_has_nan dict = false →
  row_has_nan (with_account_age None dict) = false.
Proof.
  unfold row_has_nan.
  cbn [avg_items_per_session std_items_per_session total_listening_minutes
       event_rate_per_hour avg_session_minutes median_session_minutes
       std_session_minutes paid_event_ratio account_age_days active_days
       with_account_age from_option].
  rewrite !orb_false_iff. tauto.
Qed.

Lemma row_has_nan_with_age (age : option fval) (dict : Snapshot) :
  row_has_nan (with_account_age None dict) = false →
  row_has_nan (with_account_age age dict) = from_option isnan false age.
Proof.
  unfold row_has_nan.
  cbn [avg_items_per_session std_items_per_session total_listening_minutes
       event_rate_per_hour avg_session_minutes median_session_minutes
       std_session_minutes paid_event_ratio account_age_days active_days
       with_account_age from_option].
  rewrite !orb_false_iff. intros (((((((((-> & ->) & ->) & ->) & ->) & ->)
    & ->) & ->) & _) & ->).
  simpl. by rewrite orb_false_r.
Qed.

(** X5. With [min_events_per_user >= 1] no statistic of a row of the
    feature table is NaN but, for some rows, [account_age_days]: this
    cell is NaN exactly when the working subset of the user has no
    registration while another row of the table has an
    [account_age_days]. *)
Theorem no_nan_with_min_events (events : EventLog) (cfg : FeatureConfig)
    (row : Snapshot) :
  1 ≤ min_events_per_user cfg →
  row ∈ build_user_features sqrtQ events cfg →
  let ws := working_subset cfg
              (user_events_of (snap_userId row) (records events)) in
  row_has_nan (with_account_age None row) = false
  ∧ (row_has_nan row = true ↔ account_age_days row = Some FNaN)
  ∧ (account_age_days row = Some FNaN ↔
     dropna (registration <$> ws) = []
     ∧ ∃ other q,
         other ∈ build_user_features sqrtQ events cfg
         ∧ account_age_days other = Some (FNum q)).
Proof.
  intros Hmin Hrow ws.
  destruct (feature_row_thresholds _ _ _ Hrow) as [Hev _].
  destruct (feature_row_cutoff _ _ _ Hrow)
    as (ch & evs & _ & _ & _ & Hn & _ & Hmk).
  fold ws in Hn, Hmk.
  assert (row_has_nan (with_account_age None row) = false) as Hstats.
  { apply row_of_dict_eq in Hmk. rewrite Hmk.
    apply (row_has_nan_without_age (make_snapshot _ _ _ _ _ _ _ _)).
    apply populated_row_no_nan.
    intros Hnil. rewrite Hn, Hnil in Hev. simpl in Hev. clear -Hmin Hev. lia. }
  split; [exact Hstats|]. split.
  - pose proof (row_has_nan_with_age (account_age_days row) row) as Hage.
    rewrite <- (row_of_dict_eq row row (or_introl eq_refl)) in Hage.
    rewrite (Hage Hstats).
    destruct (account_age_days row) as [[q|]|]; simpl; split;
      (done || discriminate).
  - apply build_user_features_elem in Hrow as (dict & Hdict & Hrow).
    remember (has_account_age (feature_rows sqrtQ events cfg)) as present
      eqn:Hpres.
    assert (snap_userId row = snap_userId dict) as Hu
      by (rewrite Hrow; apply align_account_age_userId).
    pose proof (feature_dict_account_age _ _ _ Hdict) as Hcases.
    cbv zeta in Hcases. rewrite <- Hu in Hcases. fold ws in Hcases.
    split.
    + intros Hnan.
      destruct Hcases as [[Hnone Hwhy]|[[q Hq] _]].
      * assert (present = true) as Hpresent.
        { rewrite Hrow in Hnan. unfold align_account_age in Hnan.
          rewrite Hnone in Hnan. destruct present; [done|].
          by rewrite Hnone in Hnan. }
        rewrite Hpres in Hpresent. unfold has_account_age in Hpresent.
        apply bool_decide_eq_true, Exists_exists in Hpresent
          as (d' & Hd' & Hsome).
        destruct (feature_dict_account_age _ _ _ Hd')
          as [[Hnone' _]|([q' Hq'] & Hcol & _)].
        { rewrite Hnone' in Hsome. by destruct Hsome. }
        split.
        { destruct Hwhy as [Hwhy|Hwhy]; [|done]. by rewrite Hwhy in Hcol. }
        exists d', q'. split; [|done].
        apply build_user_features_elem. exists d'. split; [done|].
        unfold align_account_age. by rewrite Hq'.
      * rewrite Hrow in Hnan. unfold align_account_age in Hnan.
        rewrite Hq in Hnan. rewrite Hq in Hnan. discriminate.
    + intros (Hnoreg & other & q & Hother & Hq).
      destruct Hcases as [[Hnone _]|(_ & _ & Hreg)]; [|done].
      apply build_user_features_elem in Hother as (d' & Hd' & Hother).
      rewrite <- Hpres in Hother.
      assert (present = true) as Hpresent.
      { rewrite Hpres. unfold has_account_age.
        apply bool_decide_eq_true, Exists_exists. exists d'.
        split; [done|]. rewrite Hother in Hq. unfold align_account_age in Hq.
        destruct (account_age_days d') as [age|] eqn:Hage; [eauto|].
        destruct present; [discriminate|]. rewrite Hage in Hq. discriminate. }
      rewrite Hrow, Hpresent. unfold align_account_age. by rewrite Hnone.
Qed.



(** X7. The row of a user depends on the events of that user alone, but
    for the alignment of [account_age_days]: for two logs with the same
    columns in which the user has the same events, in the same order, a
    row of the user in the table of one log has a counterpart in the table
    of the other, and the two are rows of one and the same dict: they
    differ at most in a NaN [account_age_days] that one of them has where
    the other has no such cell. *)
Theorem row_depends_on_own_events (cols : list string)
    (evs1 evs2 : list EventRecord) (cfg : FeatureConfig) (row : Snapshot) :
  user_events_of (snap_userId row) evs1 = user_events_of (snap_userId row) evs2 →
  row ∈ build_user_features sqrtQ (mkLog cols evs1) cfg →
  ∃ dict row',
    row' ∈ build_user_features sqrtQ (mkLog cols evs2) cfg
    ∧ row_of_dict dict row ∧ row_of_dict dict row'.
Proof.
  intros Hsame (dict & Hur & Hal)%build_user_features_row.
  simpl in Hur. rewrite Hsame in Hur.
  destruct (build_user_features_of_dict sqrtQ (mkLog cols evs2) cfg
              (snap_userId row) dict) as (row' & Hrow' & Hal');
    [|exact Hur|by exists dict, row'].
  simpl. apply user_events_of_nonempty.
  intros Hnil. rewrite Hnil in Hur. discriminate.
Qed.

(** X8. The two gender flags of a row are set together, exactly when
    [include_gender] is on and the log has a "gender" column; each is 0 or
    1 and they are never both 1. *)
Theorem gender_flags_one_hot (events : EventLog) (cfg : FeatureConfig)
    (row : Snapshot) :
  row ∈ build_user_features sqrtQ events cfg →
  (is_Some (gender_M row) ↔
   include_gender cfg = true ∧ "gender"%string ∈ columns events)
  ∧ (is_Some (gender_M row) ↔ is_Some (gender_F row))
  ∧ ∀ m f,
      gender_M row = Some m → gender_F row = Some f →
      (m = 0 ∨ m = 1) ∧ (f = 0 ∨ f = 1) ∧ m + f ≤ 1.
Proof.
  intros Hrow.
  destruct (feature_row_cutoff _ _ _ Hrow)
    as (ch & evs & _ & _ & _ & _ & _ & Hmk%row_of_dict_eq).
  rewrite Hmk. cbn [gender_M gender_F with_account_age make_snapshot].
  unfold gender_fields, has_column.
  destruct (include_gender cfg); simpl;
    [|split; [|split]; [split; [by intros [? ?]|by intros [? _]]|done|done]].
  case_bool_decide as Hcol; simpl.
  - split; [split; [done|eauto]|]. split; [split; eauto|].
    intros m f [= <-] [= <-].
    destruct (last (unique (dropna (gender <$> _)))) as [g|]; [|simpl; lia].
    repeat case_bool_decide; simplify_eq; simpl; lia.
  - split; [split; [by intros [? ?]|by intros [_ ?]]|]. done.
Qed.

Lemma safe_ratio_range (n d : nat) :
  (n ≤ d)%nat →
  ∃ q, _safe_ratio n d = FNum q ∧ (0 <= q)%Q ∧ (q <= 1)%Q.
Proof.
  intros Hle. unfold _safe_ratio. case_decide as Hd.
  - exists 0%Q. done.
  - eexists. split; [reflexivity|].
    assert (0 < inject_Z (Z.of_nat d))%Q as Hpos
      by (rewrite <- (Zlt_Qlt 0); lia).
    rewrite !Qred_correct. split.
    + apply Qle_shift_div_l; [done|]. rewrite Qmult_0_l.
      rewrite <- (Zle_Qle 0). lia.
    + apply Qle_shift_div_r; [done|]. rewrite Qmult_1_l.
      rewrite <- Zle_Qle. lia.
Qed.

(** X9. [paid_event_ratio] of every row is a number between 0 and 1. *)
Theorem paid_event_ratio_range (events : EventLog) (cfg : FeatureConfig)
    (row : Snapshot) :
  row ∈ build_user_features sqrtQ events cfg →
  ∃ q, paid_event_ratio row = FNum q ∧ (0 <= q)%Q ∧ (q <= 1)%Q.
Proof.
  intros Hrow.
  destruct (feature_row_cutoff _ _ _ Hrow)
    as (ch & evs & _ & _ & _ & _ & _ & Hmk%row_of_dict_eq).
  rewrite Hmk. cbn [paid_event_ratio with_account_age make_snapshot].
  apply safe_ratio_range, length_filter.
Qed.


Lemma series_min_le_max (l : list Z) (hi lo : Z) :
  series_max l = Some hi → series_min l = Some lo → lo ≤ hi.
Proof.
  destruct l as [|x r]; [discriminate|]. intros [= <-] [= <-].
  assert (foldr Z.min x r ≤ x ∧ x ≤ foldr Z.max x r) as [? ?]; [|lia].
  induction r as [|y r [IH1 IH2]]; simpl; lia.
Qed.

Lemma Qsum_nonneg (xs : list Q) :
  Forall (λ q, 0 <= q)%Q xs → (0 <= Qsum xs)%Q.
Proof.
  induction 1 as [|x xs Hx _ IH]; simpl; [apply Qle_refl|].
  replace 0%Q with (0 + 0)%Q by reflexivity. by apply Qplus_le_compat.
Qed.

Lemma Qlen_pos (xs : list Q) : xs ≠ [] → (0 < Qlen xs)%Q.
Proof.
  intros Hne. unfold Qlen. rewrite <- (Zlt_Qlt 0).
  destruct xs; [done|]. simpl. lia.
Qed.

Lemma mean_nonneg (xs : list Q) :
  Forall (λ q, 0 <= q)%Q xs →
  ∃ q, nan_to_zero (mean xs) = FNum q ∧ (0 <= q)%Q.
Proof.
  intros Hall. destruct xs as [|x xs]; [by exists 0%Q|].
  eexists. split; [reflexivity|]. rewrite Qred_correct.
  apply Qle_shift_div_l; [by apply Qlen_pos|]. rewrite Qmult_0_l.
  by apply Qsum_nonneg.
Qed.

Lemma nth_nonneg (xs : list Q) (i : nat) :
  Forall (λ q, 0 <= q)%Q xs → (0 <= nth i xs 0)%Q.
Proof.
  intros Hall. revert i. induction Hall as [|x xs Hx _ IH]; intros [|i]; simpl;
    auto using Qle_refl.
Qed.

Lemma median_nonneg (xs : list Q) :
  Forall (λ q, 0 <= q)%Q xs →
  ∃ q, nan_to_zero (median xs) = FNum q ∧ (0 <= q)%Q.
Proof.
  intros Hall. unfold median.
  assert (Forall (λ q, 0 <= q)%Q (merge_sort Qle xs)) as Hs
    by (by rewrite merge_sort_Permutation).
  destruct (length (merge_sort Qle xs)) as [|n] eqn:Hlen; [by exists 0%Q|].
  cbv zeta. destruct (Nat.even (S n)).
  - eexists. split; [reflexivity|]. rewrite Qred_correct.
    apply Qle_shift_div_l; [reflexivity|]. rewrite Qmult_0_l.
    replace 0%Q with (0 + 0)%Q by reflexivity.
    apply Qplus_le_compat; by apply nth_nonneg.
  - eexists. split; [reflexivity|]. rewrite Qred_correct. by apply nth_nonneg.
Qed.

Lemma session_durations_nonneg (events : list EventRecord) :
  Forall (λ q, 0 <= q)%Q (session_durations events).
Proof.
  apply Forall_forall. intros q Hq. unfold session_durations in Hq.
  apply list_elem_of_omap in Hq as ([s g] & _ & Hq). simpl in Hq.
  destruct (series_max (ts <$> g)) as [hi|] eqn:Hhi; [|discriminate].
  destruct (series_min (ts <$> g)) as [lo|] eqn:Hlo; [|discriminate].
  simpl in Hq. injection Hq as <-.
  pose proof (series_min_le_max _ _ _ Hhi Hlo) as Hle.
  apply Qle_shift_div_l; [reflexivity|]. rewrite Qmult_0_l.
  rewrite <- (Zle_Qle 0). lia.
Qed.

Lemma event_rate_sign (events : list EventRecord) :
  ∃ r, _event_rate events = FNum r ∧ (0 <= r)%Q
       ∧ (events ≠ [] → (0 < r)%Q).
Proof.
  unfold _event_rate. destruct events as [|e events].
  { exists 0%Q. repeat split; [apply Qle_refl|done]. }
  destruct (series_max (ts <$> e :: events)) as [hi|] eqn:Hhi; [|discriminate].
  destruct (series_min (ts <$> e :: events)) as [lo|] eqn:Hlo; [|discriminate].
  cbv zeta.
  assert (0 < inject_Z (Z.of_nat (length (e :: events))))%Q as Hn
    by (rewrite <- (Zlt_Qlt 0); simpl; lia).
  destruct (Qle_bool _ 0) eqn:Hspan.
  - eexists. split; [reflexivity|]. rewrite Qred_correct.
    split; [by apply Qlt_le_weak|done].
  - eexists. split; [reflexivity|]. rewrite Qred_correct.
    assert (0 < inject_Z (hi - lo) / inject_Z ms_per_hour)%Q as Hpos.
    { apply Qnot_le_lt. intros Hle. apply Qle_bool_iff in Hle. congruence. }
    assert (0 < inject_Z (Z.of_nat (length (e :: events)))
                / (inject_Z (hi - lo) / inject_Z ms_per_hour))%Q as Hr.
    { apply Qlt_shift_div_l; [done|]. by rewrite Qmult_0_l. }
    split; [by apply Qlt_le_weak|done].
Qed.

(** X10. In every row the mean and the median session length and the
    event rate are numbers that are not negative, and the event rate of a
    row with an event is positive. *)
Theorem durations_and_rate_nonneg (events : EventLog) (cfg : FeatureConfig)
    (row : Snapshot) :
  row ∈ build_user_features sqrtQ events cfg →
  ∃ a m r,
    avg_session_minutes row = FNum a ∧ (0 <= a)%Q
    ∧ median_session_minutes row = FNum m ∧ (0 <= m)%Q
    ∧ event_rate_per_hour row = FNum r ∧ (0 <= r)%Q
    ∧ ((0 < num_events row)%nat → (0 < r)%Q).
Proof.
  intros Hrow.
  destruct (feature_row_cutoff _ _ _ Hrow)
    as (ch & evs & _ & _ & _ & _ & _ & Hmk%row_of_dict_eq).
  set (ws := working_subset cfg
               (user_events_of (snap_userId row) (records events))) in *.
  destruct (event_rate_sign ws) as (r & Hr & Hr0 & Hrpos).
  assert (∃ a m, (_session_stats sqrtQ ws).1.1 = FNum a ∧ (0 <= a)%Q
                 ∧ (_session_stats sqrtQ ws).1.2 = FNum m ∧ (0 <= m)%Q)
    as (a & m & Ha & Ha0 & Hm & Hm0).
  { unfold _session_stats. destruct ws as [|e ws'].
    { exists 0%Q, 0%Q. repeat split; apply Qle_refl. }
    pose proof (session_durations_nonneg (e :: ws')) as Hd.
    destruct (session_durations (e :: ws')) as [|d ds] eqn:Hds.
    { exists 0%Q, 0%Q. repeat split; apply Qle_refl. }
    destruct (mean_nonneg _ Hd) as (a & Ha & Ha0).
    destruct (median_nonneg _ Hd) as (m & Hm & Hm0).
    exists a, m. cbv zeta. cbn [fst snd]. done. }
  exists a, m, r. rewrite Hmk.
  cbn [avg_session_minutes median_session_minutes event_rate_per_hour
       num_events with_account_age make_snapshot].
  repeat split; try done.
  intros Hpos. apply Hrpos. intros Hnil. rewrite Hnil in Hpos. simpl in Hpos.
  clear -Hpos. lia.
Qed.

End BuilderProperties.

(** * Further properties of the temporal split *)


Section TemporalSplitProperties.

Variable train_test_split :
  list string → Q → Z → list Z → result (list string * list string).




End TemporalSplitProperties.

(** * Further properties of the drift statistics *)

Lemma Qlt_bool_iff (x y : Q) : Qlt_bool x y = true ↔ (x < y)%Q.
Proof.
  split; [|apply Qlt_bool_true].
  unfold Qlt_bool. destruct (Qle_bool y x) eqn:E; [discriminate|].
  intros _. apply Qnot_le_lt. intros Hle. apply Qle_bool_iff in Hle. congruence.
Qed.

Lemma Qeq_bool_pos (q : Q) : (0 < q)%Q → Qeq_bool q 0 = false.
Proof.
  intros Hq. destruct (Qeq_bool q 0) eqn:E; [|done].
  apply Qeq_bool_eq in E. rewrite E in Hq. by destruct (Qlt_irrefl 0).
Qed.

Lemma Qdiv_pos (a e : Q) : (0 < a)%Q → (0 < e)%Q → (0 < a / e)%Q.
Proof.
  intros Ha He. apply Qlt_shift_div_l; [done|]. by rewrite Qmult_0_l.
Qed.

Section PsiRange.

Variable lnQ : Q → Q.

(** The term of one bin, for two positive shares. *)
Lemma psi_term_number (a e : Q) :
  (0 < a)%Q → (0 < e)%Q →
  fmul (fsub (FNum a) (FNum e)) (flog lnQ (fdiv (FNum a) (FNum e)))
  = FNum (Qred (Qred (a - e) * Qred (lnQ (Qred (a / e))))).
Proof.
  intros Ha He. unfold fsub, fdiv, lift2, fnum.
  rewrite (Qeq_bool_pos e He). unfold flog.
  rewrite Qlt_bool_true; [done|]. rewrite Qred_correct. by apply Qdiv_pos.
Qed.

Lemma psi_fold_number (expected_bins actual_bins bs : list Z) (epsilon : Q)
    (start : Q) :
  (0 < epsilon)%Q →
  ∃ q,
    foldl (λ psi b,
             fadd psi
               (fmul (fsub (FNum (bin_ratio actual_bins b epsilon))
                           (FNum (bin_ratio expected_bins b epsilon)))
                     (flog lnQ (fdiv (FNum (bin_ratio actual_bins b epsilon))
                                     (FNum (bin_ratio expected_bins b epsilon))))))
          (FNum start) bs = FNum q.
Proof.
  intros Heps. revert start. induction bs as [|b bs IH]; intros start.
  - by exists start.
  - cbn [foldl]. rewrite psi_term_number by (by apply bin_ratio_pos).
    unfold fadd, lift2, fnum. apply IH.
Qed.

(** X13. For a positive [epsilon] the population stability index is NaN
    exactly when one of the two series has no value left after the missing
    ones are dropped; otherwise it is a number. *)
Theorem psi_nan_iff_empty (expected actual : list fval) (buckets : nat)
    (epsilon : Q) :
  (0 < epsilon)%Q →
  population_stability_index lnQ expected actual buckets epsilon = FNaN
  ↔ dropna_num expected = [] ∨ dropna_num actual = [].
Proof.
  intros Heps. unfold population_stability_index.
  destruct (dropna_num expected) as [|x xs] eqn:Hx.
  { split; [by left|done]. }
  destruct (dropna_num actual) as [|y ys] eqn:Hy.
  { split; [by right|done]. }
  cbv zeta. split; [|by intros [?|?]].
  case_decide; [done|].
  match goal with
  | |- foldl _ _ ?l = _ → _ => generalize l
  end.
  intros bs Hnan.
  destruct (psi_fold_number (bin_of (np_unique
              (quantile_sorted (merge_sort Qle (x :: xs))
                 <$> linspace01 buckets)) <$> x :: xs)
            (bin_of (np_unique
              (quantile_sorted (merge_sort Qle (x :: xs))
                 <$> linspace01 buckets)) <$> y :: ys) bs epsilon 0 Heps)
    as [q Hq].
  unfold zero in Hnan. rewrite Hq in Hnan. discriminate.
Qed.

(** What the index relies on from the logarithm: its sign. *)
Hypothesis lnQ_sign :
  ∀ q, (0 < q)%Q →
       ((q <= 1)%Q → (lnQ q <= 0)%Q) ∧ ((1 <= q)%Q → (0 <= lnQ q)%Q).

Lemma psi_term_nonneg (a e : Q) :
  (0 < a)%Q → (0 < e)%Q →
  (0 <= Qred (Qred (a - e) * Qred (lnQ (Qred (a / e)))))%Q.
Proof.
  intros Ha He.
  assert (0 < Qred (a / e))%Q as Hpos
    by (rewrite Qred_correct; by apply Qdiv_pos).
  destruct (lnQ_sign _ Hpos) as [Hlow Hhigh].
  rewrite (Qred_correct (_ * _)), (Qred_correct (a - e)),
    (Qred_correct (lnQ _)).
  destruct (Qlt_le_dec a e) as [Hlt|Hge].
  - assert (Qred (a / e) <= 1)%Q as Hq.
    { rewrite Qred_correct. apply Qle_shift_div_r; [done|].
      rewrite Qmult_1_l. by apply Qlt_le_weak. }
    specialize (Hlow Hq).
    assert ((a - e) * lnQ (Qred (a / e))
            == (e - a) * - lnQ (Qred (a / e)))%Q as -> by ring.
    apply Qmult_le_0_compat.
    + rewrite <- (Qplus_opp_r a). apply Qplus_le_l. by apply Qlt_le_weak.
    + apply (Qopp_le_compat _ 0) in Hlow. exact Hlow.
  - assert (1 <= Qred (a / e))%Q as Hq.
    { rewrite Qred_correct. apply Qle_shift_div_l; [done|].
      by rewrite Qmult_1_l. }
    specialize (Hhigh Hq).
    apply Qmult_le_0_compat; [|done].
    rewrite <- (Qplus_opp_r e). by apply Qplus_le_l.
Qed.

Lemma psi_fold_nonneg (expected_bins actual_bins bs : list Z) (epsilon : Q)
    (start : Q) :
  (0 < epsilon)%Q → (0 <= start)%Q →
  ∃ q,
    foldl (λ psi b,
             fadd psi
               (fmul (fsub (FNum (bin_ratio actual_bins b epsilon))
                           (FNum (bin_ratio expected_bins b epsilon)))
                     (flog lnQ (fdiv (FNum (bin_ratio actual_bins b epsilon))
                                     (FNum (bin_ratio expected_bins b epsilon))))))
          (FNum start) bs = FNum q
    ∧ (0 <= q)%Q.
Proof.
  intros Heps. revert start. induction bs as [|b bs IH]; intros start Hstart.
  - by exists start.
  - cbn [foldl]. rewrite psi_term_number by (by apply bin_ratio_pos).
    unfold fadd, lift2, fnum. apply IH. rewrite Qred_correct.
    replace 0%Q with (0 + 0)%Q by reflexivity.
    apply Qplus_le_compat; [done|].
    apply psi_term_nonneg; by apply bin_ratio_pos.
Qed.

(** X14. For a positive [epsilon] and two series with a value, the
    population stability index is a number that is not negative. *)
Theorem psi_nonneg (expected actual : list fval) (buckets : nat)
    (epsilon : Q) :
  (0 < epsilon)%Q →
  dropna_num expected ≠ [] → dropna_num actual ≠ [] →
  ∃ q,
    population_stability_index lnQ expected actual buckets epsilon = FNum q
    ∧ (0 <= q)%Q.
Proof.
  intros Heps Hx Hy. unfold population_stability_index.
  destruct (dropna_num expected) as [|x xs]; [done|].
  destruct (dropna_num actual) as [|y ys]; [done|].
  cbv zeta. case_decide; [exists 0%Q; split; [done|apply Qle_refl]|].
  apply psi_fold_nonneg; [done|apply Qle_refl].
Qed.

End PsiRange.

(** ** The Kolmogorov-Smirnov statistic *)

Lemma merge_sort_nonempty {A} (R : relation A) `{∀ x y, Decision (R x y)}
    (l : list A) :
  l ≠ [] → merge_sort R l ≠ [].
Proof.
  intros Hne Hnil. apply Hne, Permutation_nil_r.
  by rewrite <- Hnil, merge_sort_Permutation.
Qed.

Lemma drop_repeats_nonempty (l : list Q) : l ≠ [] → drop_repeats l ≠ [].
Proof.
  induction l as [|x l IH]; [done|]. intros _. simpl.
  destruct l as [|y l]; [done|].
  destruct (Qeq_bool x y); [by apply IH|done].
Qed.

Lemma np_unique_nonempty (l : list Q) : l ≠ [] → np_unique l ≠ [].
Proof.
  intros Hne. by apply drop_repeats_nonempty, merge_sort_nonempty.
Qed.

(** The greatest value of a non-empty list is one of its values. *)
Lemma Qmax_list_elem (l : list Q) :
  l ≠ [] → ∃ m, m ∈ l ∧ Qmax_list l = FNum (Qred m).
Proof.
  destruct l as [|x r]; [done|]. intros _. unfold Qmax_list, fnum.
  assert (foldr (λ a b, if Qlt_bool a b then b else a) x r ∈ x :: r) as Hin.
  { induction r as [|y r IH]; simpl; [apply list_elem_of_here|].
    destruct (Qlt_bool y _).
    - apply elem_of_cons in IH as [->|IH]; [apply list_elem_of_here|].
      by do 2 apply list_elem_of_further.
    - apply list_elem_of_further, list_elem_of_here. }
  eauto.
Qed.

(** An empirical distribution function takes its values in [0, 1]. *)
Lemma cdf_range (a : list Q) (v : Q) :
  a ≠ [] →
  (0 <= inject_Z (Z.of_nat (searchsorted_right a v))
        / inject_Z (Z.of_nat (length a)))%Q
  ∧ (inject_Z (Z.of_nat (searchsorted_right a v))
     / inject_Z (Z.of_nat (length a)) <= 1)%Q.
Proof.
  intros Hne.
  assert (0 < inject_Z (Z.of_nat (length a)))%Q as Hpos
    by (rewrite <- (Zlt_Qlt 0); destruct a; [done|simpl; lia]).
  pose proof (length_filter (λ x, (x <= v)%Q) a) as Hle.
  split.
  - apply Qle_shift_div_l; [done|]. rewrite Qmult_0_l.
    rewrite <- (Zle_Qle 0). lia.
  - apply Qle_shift_div_r; [done|]. rewrite Qmult_1_l.
    rewrite <- Zle_Qle. unfold searchsorted_right. lia.
Qed.

Lemma Qabs_diff_unit (x y : Q) :
  (0 <= x)%Q → (x <= 1)%Q → (0 <= y)%Q → (y <= 1)%Q →
  (Qabs (x - y) <= 1)%Q.
Proof.
  intros Hx0 Hx1 Hy0 Hy1. apply Qabs_Qle_condition. split.
  - apply (Qplus_le_l _ _ y). ring_simplify.
    apply Qle_trans with 0%Q; [|done].
    apply (Qplus_le_l _ _ 1). ring_simplify. done.
  - apply (Qplus_le_l _ _ y). ring_simplify.
    apply Qle_trans with 1%Q; [done|].
    rewrite <- (Qplus_0_r 1) at 1. rewrite (Qplus_comm y 1).
    by apply Qplus_le_r.
Qed.

(** X15. The Kolmogorov-Smirnov statistic is NaN exactly when one of
    the two series has no value left after the missing ones are dropped;
    otherwise it is a number between 0 and 1. *)
Theorem ks_range (expected actual : list fval) :
  (kolmogorov_smirnov_statistic expected actual = FNaN
   ↔ dropna_num expected = [] ∨ dropna_num actual = [])
  ∧ (dropna_num expected ≠ [] → dropna_num actual ≠ [] →
     ∃ q, kolmogorov_smirnov_statistic expected actual = FNum q
          ∧ (0 <= q)%Q ∧ (q <= 1)%Q).
Proof.
  assert (dropna_num expected ≠ [] → dropna_num actual ≠ [] →
          ∃ q, kolmogorov_smirnov_statistic expected actual = FNum q
               ∧ (0 <= q)%Q ∧ (q <= 1)%Q) as Hnum.
  { intros Hx Hy. unfold kolmogorov_smirnov_statistic.
    pose proof (merge_sort_nonempty Qle _ Hx) as Hsx.
    pose proof (merge_sort_nonempty Qle _ Hy) as Hsy.
    destruct (merge_sort Qle (dropna_num expected)) as [|x xs] eqn:Ex; [done|].
    destruct (merge_sort Qle (dropna_num actual)) as [|y ys] eqn:Ey; [done|].
    cbv zeta.
    destruct (Qmax_list_elem
      ((λ v, Qabs (inject_Z (Z.of_nat (searchsorted_right (x :: xs) v))
                   / inject_Z (Z.of_nat (length (x :: xs)))
                   - inject_Z (Z.of_nat (searchsorted_right (y :: ys) v))
                     / inject_Z (Z.of_nat (length (y :: ys)))))
         <$> np_unique ((x :: xs) ++ y :: ys))) as (m & Hm & ->).
    { intros Hnil. apply fmap_nil_inv in Hnil.
      by apply (np_unique_nonempty ((x :: xs) ++ y :: ys)). }
    exists (Qred m). split; [done|].
    apply list_elem_of_fmap in Hm as (v & -> & _).
    rewrite Qred_correct.
    destruct (cdf_range (x :: xs) v) as [? ?]; [done|].
    destruct (cdf_range (y :: ys) v) as [? ?]; [done|].
    split; [apply Qabs_nonneg|by apply Qabs_diff_unit]. }
  split; [|exact Hnum]. split.
  - intros Hnan.
    destruct (dropna_num expected) as [|x xs] eqn:Hx; [by left|].
    destruct (dropna_num actual) as [|y ys] eqn:Hy; [by right|].
    destruct Hnum as (q & Hq & _); [done|done|]. congruence.
  - unfold kolmogorov_smirnov_statistic. intros [->| ->]; [done|].
    by destruct (merge_sort Qle (dropna_num expected)).
Qed.

(** X16. The Kolmogorov-Smirnov statistic of a series with a value
    against itself is exactly 0. *)
Theorem ks_self_comparison (series : list fval) :
  dropna_num series ≠ [] →
  kolmogorov_smirnov_statistic series series = zero.
Proof.
  intros Hx. unfold kolmogorov_smirnov_statistic.
  pose proof (merge_sort_nonempty Qle _ Hx) as Hsx.
  destruct (merge_sort Qle (dropna_num series)) as [|x xs] eqn:Ex; [done|].
  cbv zeta.
  destruct (Qmax_list_elem
    ((λ v, Qabs (inject_Z (Z.of_nat (searchsorted_right (x :: xs) v))
                 / inject_Z (Z.of_nat (length (x :: xs)))
                 - inject_Z (Z.of_nat (searchsorted_right (x :: xs) v))
                   / inject_Z (Z.of_nat (length (x :: xs)))))
       <$> np_unique ((x :: xs) ++ x :: xs))) as (m & Hm & ->).
  { intros Hnil. apply fmap_nil_inv in Hnil.
    by apply (np_unique_nonempty ((x :: xs) ++ x :: xs)). }
  apply list_elem_of_fmap in Hm as (v & -> & _).
  unfold zero. f_equal. apply Qred_zero.
  match goal with
  | |- (Qabs (?c - ?c) == 0)%Q =>
      assert (c - c == 0)%Q as -> by ring
  end.
  reflexivity.
Qed.

(** ** The drift report *)

Global Instance psi_desc_trans : Transitive psi_desc.
Proof.
  intros a b c. unfold psi_desc.
  destruct (psi a), (psi b), (psi c); try done. intros ? ?.
  by eapply Qle_trans.
Qed.

Global Instance psi_desc_total : Total psi_desc.
Proof.
  intros a b. unfold psi_desc. destruct (psi a) as [x|], (psi b) as [y|]; auto.
  destruct (Qlt_le_dec x y); [right; by apply Qlt_le_weak|by left].
Qed.

Lemma df_get_present (df : DataFrame) (name : string) :
  name ∈ df.*1 → is_Some (df_get df name).
Proof.
  induction df as [|[c v] df IH]; [by intros ?%elem_of_nil|]. simpl.
  intros Hin. case_decide; [eauto|].
  apply elem_of_cons in Hin as [?|Hin]; [by simplify_eq|]. by apply IH.
Qed.

(** The test [not isnan(x) and x > threshold] is [x > threshold]. *)
Lemma flag_update (v threshold : fval) (old : bool) :
  (if negb (isnan v) && fgt v threshold then true else old)
  = old || fgt v threshold.
Proof.
  unfold fgt, flt.
  destruct v, threshold, old; simpl; try done; by destruct (Qlt_bool _ _).
Qed.

Section DriftReportContents.

Variable lnQ : Q → Q.
Variables baseline current : DataFrame.
Variables psi_threshold ks_threshold : fval.

Local Abbreviation step :=
  (drift_step lnQ baseline current psi_threshold ks_threshold).
Local Abbreviation loop :=
  (drift_loop lnQ baseline current psi_threshold ks_threshold).
Local Abbreviation column_record := (drift_column_record lnQ).
Local Abbreviation flags_agree :=
  (drift_flags_agree psi_threshold ks_threshold).
Local Abbreviation records_sound :=
  (drift_records_sound lnQ baseline current).

Lemma drift_step_inv (state state' : list DriftRecord * (bool * bool))
    (col : string) :
  step state col = inr state' →
  (state' = state
   ∧ (df_get current col = None ∨ df_get baseline col = Some ObjCol))
  ∨ ∃ base now,
      df_get baseline col = Some (NumCol base)
      ∧ df_get current col = Some (NumCol now)
      ∧ state' = (state.1 ++ [column_record col base now],
                  (state.2.1 || fgt (psi (column_record col base now))
                                    psi_threshold,
                   state.2.2 || fgt (ks (column_record col base now))
                                    ks_threshold)).
Proof.
  unfold drift_step.
  destruct (df_get current col) as [cur|]; [|intros [= <-]; left; auto].
  destruct (df_get baseline col) as [[base|]|]; [| |discriminate].
  - destruct cur as [now|]; [|discriminate]. cbv zeta.
    rewrite !flag_update. intros [= <-]. right. by exists base, now.
  - intros [= <-]. left. auto.
Qed.

(** A property of the state that every turn keeps holds when the loop
    ends. *)
Lemma drift_loop_invariant (I : list DriftRecord * (bool * bool) → Prop)
    (cols : list string) (state state' : list DriftRecord * (bool * bool)) :
  (∀ st c st', c ∈ cols → I st → step st c = inr st' → I st') →
  I state → loop cols state = inr state' → I state'.
Proof.
  revert state. induction cols as [|c cols IH]; intros state Hkeep Hinit.
  - by intros [= <-].
  - simpl. destruct (step state c) as [e|st1] eqn:Hstep; [discriminate|].
    simpl. apply IH.
    + intros st x st' Hx. apply Hkeep. by apply list_elem_of_further.
    + eapply Hkeep; [apply list_elem_of_here|done..].
Qed.

Lemma flags_agree_step (st st' : list DriftRecord * (bool * bool))
    (c : string) :
  flags_agree st → step st c = inr st' → flags_agree st'.
Proof.
  intros [Hpsi Hks] [[-> _]|(base & now & _ & _ & ->)]%drift_step_inv;
    [done|].
  unfold drift_flags_agree. simpl. rewrite !orb_true_iff, Hpsi, Hks. split.
  - split.
    + intros [(r & Hr & Hgt)|Hgt].
      * exists r. split; [|done]. apply elem_of_app. by left.
      * exists (column_record c base now). split; [|exact Hgt].
        apply elem_of_app. right. apply list_elem_of_here.
    + intros (r & [Hr|Hr%list_elem_of_singleton]%elem_of_app & Hgt).
      * left. eauto.
      * right. by subst r.
  - split.
    + intros [(r & Hr & Hgt)|Hgt].
      * exists r. split; [|done]. apply elem_of_app. by left.
      * exists (column_record c base now). split; [|exact Hgt].
        apply elem_of_app. right. apply list_elem_of_here.
    + intros (r & [Hr|Hr%list_elem_of_singleton]%elem_of_app & Hgt).
      * left. eauto.
      * right. by subst r.
Qed.

Lemma records_sound_step (cols : list string)
    (st st' : list DriftRecord * (bool * bool)) (c : string) :
  c ∈ cols → records_sound cols st → step st c = inr st' →
  records_sound cols st'.
Proof.
  intros Hc Hst [[-> _]|(base & now & Hb & Hn & ->)]%drift_step_inv; [done|].
  intros r [Hr|Hr%list_elem_of_singleton]%elem_of_app; [by apply Hst|].
  subst r. by exists base, now.
Qed.

Lemma drift_loop_complete (cols : list string)
    (state state' : list DriftRecord * (bool * bool)) :
  loop cols state = inr state' →
  (∀ r, r ∈ state.1 → r ∈ state'.1)
  ∧ ∀ c base now,
      c ∈ cols → df_get baseline c = Some (NumCol base) →
      df_get current c = Some (NumCol now) →
      column_record c base now ∈ state'.1.
Proof.
  revert state. induction cols as [|c cols IH]; intros state.
  - intros [= <-]. split; [done|]. by intros c base now ?%elem_of_nil.
  - simpl. destruct (step state c) as [e|st1] eqn:Hstep; [discriminate|].
    simpl. intros Hloop. destruct (IH _ Hloop) as [Hgrow Hall].
    apply drift_step_inv in Hstep
      as [[-> Hskip]|(base & now & Hb & Hn & ->)].
    + split; [done|]. intros x bx nx [->|Hx]%elem_of_cons Hbx Hnx;
        [|by eapply Hall].
      destruct Hskip; congruence.
    + split.
      * intros r Hr. apply Hgrow. apply elem_of_app. by left.
      * intros x bx nx [->|Hx]%elem_of_cons Hbx Hnx; [|by eapply Hall].
        apply Hgrow. simpl. apply elem_of_app. right.
        rewrite Hb in Hbx. rewrite Hn in Hnx. simplify_eq.
        apply list_elem_of_here.
Qed.

Lemma report_inv (feature_columns : option (list string))
    (report : DriftReport) :
  compute_data_drift_report lnQ baseline current feature_columns
    psi_threshold ks_threshold = inr report →
  ∃ final,
    loop (selected_columns baseline feature_columns) ([], (false, false))
    = inr final
    ∧ final.1 ≠ []
    ∧ feature_metrics report = merge_sort psi_desc final.1
    ∧ flag_psi report = final.2.1
    ∧ flag_ks report = final.2.2.
Proof.
  unfold compute_data_drift_report. cbv zeta.
  destruct (loop _ _) as [e|final]; [discriminate|]. simpl.
  unfold sort_by_psi. destruct final.1 as [|r rs] eqn:Hrec; [discriminate|].
  simpl. intros [= <-]. exists final. rewrite Hrec. done.
Qed.

(** X17. A drift report that is returned has at least one record, its
    records are in descending order of [psi] with the undefined ones last,
    and its flag [psi] (resp. [ks]) is true exactly when the [psi] (resp.
    [ks]) of some record is a number above the threshold. *)
Theorem drift_report_flags (feature_columns : option (list string))
    (report : DriftReport) :
  compute_data_drift_report lnQ baseline current feature_columns
    psi_threshold ks_threshold = inr report →
  feature_metrics report ≠ []
  ∧ StronglySorted psi_desc (feature_metrics report)
  ∧ (flag_psi report = true ↔
     ∃ r, r ∈ feature_metrics report ∧ fgt (psi r) psi_threshold = true)
  ∧ (flag_ks report = true ↔
     ∃ r, r ∈ feature_metrics report ∧ fgt (ks r) ks_threshold = true).
Proof.
  intros (final & Hloop & Hne & Hmetrics & Hpsi & Hks)%report_inv.
  assert (flags_agree final) as [Hp Hk].
  { apply (drift_loop_invariant flags_agree _ _ _
             (λ st c st' _, flags_agree_step st st' c)) in Hloop; [done|].
    split; simpl; (split; [done|]); by intros (r & ?%elem_of_nil & _). }
  rewrite Hmetrics, Hpsi, Hks. split; [by apply merge_sort_nonempty|].
  split; [apply StronglySorted_merge_sort; apply _|].
  setoid_rewrite merge_sort_Permutation. done.
Qed.

(** X18. Every record of a returned drift report is the record of a
    selected column that the baseline and the current table both hold as
    numbers, with the index and the statistic of these two columns; and
    every such column has its record in the report. *)
Theorem drift_report_records (feature_columns : option (list string))
    (report : DriftReport) :
  compute_data_drift_report lnQ baseline current feature_columns
    psi_threshold ks_threshold = inr report →
  (∀ r, r ∈ feature_metrics report →
     ∃ base now,
       feature r ∈ selected_columns baseline feature_columns
       ∧ df_get baseline (feature r) = Some (NumCol base)
       ∧ df_get current (feature r) = Some (NumCol now)
       ∧ psi r = population_stability_index lnQ base now 10 (1 # 1000000)
       ∧ ks r = kolmogorov_smirnov_statistic base now)
  ∧ ∀ c base now,
      c ∈ selected_columns baseline feature_columns →
      df_get baseline c = Some (NumCol base) →
      df_get current c = Some (NumCol now) →
      ∃ r, r ∈ feature_metrics report ∧ feature r = c.
Proof.
  intros (final & Hloop & _ & Hmetrics & _)%report_inv.
  rewrite Hmetrics. setoid_rewrite merge_sort_Permutation. split.
  - intros r Hr.
    apply (drift_loop_invariant
             (records_sound (selected_columns baseline feature_columns))
             _ _ _ (λ st c st', records_sound_step _ st st' c)) in Hloop;
      [|by intros ? ?%elem_of_nil].
    destruct (Hloop r Hr) as (base & now & Hc & Hb & Hn & Heq).
    exists base, now. rewrite Heq at 4 5. done.
  - intros c base now Hc Hb Hn.
    destruct (drift_loop_complete _ _ _ Hloop) as [_ Hall].
    exists (column_record c base now). split; [by eapply Hall|done].
Qed.

(** X19. A column that is named in [feature_columns] and that the
    current table has but the baseline lacks is not skipped: the report
    raises. *)
Theorem drift_report_missing_baseline (cols : list string) (c : string) :
  c ∈ cols → c ∈ current.*1 → c ∉ baseline.*1 →
  ∃ e,
    compute_data_drift_report lnQ baseline current (Some cols)
      psi_threshold ks_threshold = inl e.
Proof.
  intros Hc Hcur Hbase.
  assert (∀ state, ∃ e, loop cols state = inl e) as Hraise.
  { induction cols as [|x cols IH]; [by apply elem_of_nil in Hc|].
    intros state. simpl.
    destruct (step state x) as [e|st1] eqn:Hstep; [by exists e|]. simpl.
    apply elem_of_cons in Hc as [<-|Hc]; [|by apply IH].
    unfold drift_step in Hstep.
    destruct (df_get_present _ _ Hcur) as [cur Hcurv].
    rewrite Hcurv, (df_get_absent _ _ Hbase) in Hstep. discriminate. }
  unfold compute_data_drift_report. cbv zeta. simpl.
  destruct (Hraise ([], (false, false))) as [e ->]. by exists e.
Qed.

End DriftReportContents.

(** ** Performance drift *)

(** A delta below a limit that is not positive is the delta of a value
    that fell below its baseline. *)
Lemma delta_below_limit (b c threshold : fval) :
  flt (metric_delta b c) (fneg (fabs threshold)) = true → flt c b = true.
Proof.
  unfold metric_delta. destruct (feq b zero) eqn:Hb0; [done|].
  destruct b as [qb|], c as [qc|], threshold as [t|]; try done;
    [|by destruct (fdiv _ _)].
  unfold fsub, fabs, fneg, fdiv, lift2, fnum, flt.
  destruct (Qeq_bool (Qred (Qabs qb)) 0) eqn:Hz; [done|].
  rewrite !Qlt_bool_iff. rewrite !Qred_correct. intros Hlt.
  assert (0 < Qabs qb)%Q as Hpos.
  { destruct (Qle_lt_or_eq _ _ (Qabs_nonneg qb)) as [?|Heq]; [done|].
    apply Qeq_bool_neq in Hz. destruct Hz. by rewrite Qred_correct, <- Heq. }
  apply Qnot_le_lt. intros Hle.
  apply (Qlt_not_le _ _ Hlt).
  apply Qle_trans with 0%Q.
  - apply (Qopp_le_compat 0). apply Qabs_nonneg.
  - apply Qle_shift_div_l; [done|]. rewrite Qmult_0_l.
    rewrite <- (Qplus_opp_r qb). by apply Qplus_le_l.
Qed.

(** X20. When no shared metric has a current value below its baseline,
    the ["needs_retrain"] entry of the result is false, whatever the
    threshold is. *)
Theorem no_degradation_no_retrain
    (baseline_metrics current_metrics : gmap string fval)
    (degrade_threshold : fval) :
  (∀ m b c,
     baseline_metrics !! m = Some b → current_metrics !! m = Some c →
     flt c b = false) →
  performance_drift baseline_metrics current_metrics degrade_threshold
    !! "needs_retrain"%string = Some (VBool false).
Proof.
  intros Hkeep. unfold performance_drift. rewrite lookup_insert_eq.
  do 2 f_equal. apply not_true_is_false. rewrite needs_retrain_flag.
  intros (m & d & _ & Hd & Hlt). rewrite deltas_lookup in Hd.
  destruct (baseline_metrics !! m) as [b|] eqn:Hb; [|done].
  destruct (current_metrics !! m) as [c|] eqn:Hc; [|done].
  simpl in Hd. injection Hd as <-.
  apply delta_below_limit in Hlt. rewrite (Hkeep m b c Hb Hc) in Hlt. done.
Qed.

(** * Properties of the cleaning, of the analysis script and of the service *)

Lemma require_column_spec (cols : list string) (name : string) :
  ((name ∈ cols) ∧ require_column cols name = inr tt)
  ∨ ((name ∉ cols) ∧ require_column cols name = inl (KeyError name)).
Proof.
  unfold require_column, has_column. case_bool_decide; [left|right]; done.
Qed.

Lemma valid_user_filters (rows : list RawEvent) :
  filter (λ r, raw_userId r ≠ Some "None"%string)
    (filter (λ r, raw_userId r ≠ Some ""%string)
       (filter (λ r, is_Some (raw_userId r)) rows))
  = filter valid_user rows.
Proof.
  rewrite !list_filter_filter. apply list_filter_iff. intros r.
  unfold valid_user. destruct (raw_userId r) as [u|].
  - split.
    + intros [[H1 H2] _]. split; intros ->; [by apply H2|by apply H1].
    + intros [Ha Hb]. split; [|eauto].
      split; by intros [= ->].
  - split; [by intros [_ [? ?]]|done].
Qed.

(** X21. [clean_event_log] raises [KeyError] for "userId" or else for
    "ts" when the table lacks the column; failing that it raises
    [OutOfBoundsDatetime] when a row with a valid [userId] has a [ts]
    outside the range of [pd.Timestamp]; failing that it raises [KeyError]
    for the first of "registration", "sessionId" and "itemInSession" that the
    table lacks; and otherwise it returns a table with the columns of its
    input. *)
Theorem clean_event_log_columns (df : RawLog) :
  let missing := list_find (λ c, c ∉ raw_columns df) in
  match missing ["userId"; "ts"]%string with
  | Some (_, c) => clean_event_log df = inl (KeyError c)
  | None =>
      if decide (Forall (λ r, in_timestamp_range (raw_ts r))
                   (filter valid_user (raw_records df)))
      then
        match missing ["registration"; "sessionId"; "itemInSession"]%string with
        | Some (_, c) => clean_event_log df = inl (KeyError c)
        | None =>
            ∃ out, clean_event_log df = inr out
                   ∧ columns out = raw_columns df
        end
      else clean_event_log df = inl OutOfBoundsDatetime
  end.
Proof.
  unfold clean_event_log. cbv zeta. rewrite valid_user_filters.
  cbn [list_find].
  destruct (require_column_spec (raw_columns df) "userId") as [[H1 E]|[H1 E]];
    rewrite E; clear E; cbn [bind];
    [rewrite decide_False by (intros Hn; by apply Hn)
    |by rewrite decide_True by done].
  destruct (require_column_spec (raw_columns df) "ts") as [[H2 E]|[H2 E]];
    rewrite E; clear E; cbn [bind];
    [rewrite decide_False by (intros Hn; by apply Hn)
    |by rewrite decide_True by done].
  cbn [fmap option_fmap option_map]. unfold convert_ts.
  destruct (decide (Forall (λ r, in_timestamp_range (raw_ts r))
                      (filter valid_user (raw_records df)))); [|done].
  cbn [bind ret].
  destruct (require_column_spec (raw_columns df) "registration")
    as [[H3 E]|[H3 E]];
    rewrite E; clear E; cbn [bind];
    [rewrite decide_False by (intros Hn; by apply Hn)
    |by rewrite decide_True by done].
  destruct (require_column_spec (raw_columns df) "sessionId")
    as [[H4 E]|[H4 E]];
    rewrite E; clear E; cbn [bind];
    [rewrite decide_False by (intros Hn; by apply Hn)
    |by rewrite decide_True by done].
  destruct (require_column_spec (raw_columns df) "itemInSession")
    as [[H5 E]|[H5 E]];
    rewrite E; clear E; cbn [bind];
    [rewrite decide_False by (intros Hn; by apply Hn)
    |by rewrite decide_True by done].
  simpl. eauto.
Qed.

Lemma clean_event_log_inv (df : RawLog) (out : EventLog) :
  clean_event_log df = inr out →
  columns out = raw_columns df
  ∧ records out
    = omap (clean_row (has_column (raw_columns df) "length"))
        (filter valid_user (raw_records df)).
Proof.
  unfold clean_event_log, convert_ts. cbv zeta. rewrite valid_user_filters.
  destruct (decide (Forall (λ r, in_timestamp_range (raw_ts r))
                      (filter valid_user (raw_records df))));
    repeat match goal with
    | |- context [require_column ?c ?n] =>
        destruct (require_column c n); [discriminate|]; cbn [bind ret]
    end; [|discriminate].
  by intros [= <-].
Qed.

Lemma clean_row_fields (hl : bool) (r : RawEvent) (e : EventRecord) :
  clean_row hl r = Some e →
  raw_userId r = Some (userId e) ∧ ts e = raw_ts r ∧ page e = raw_page r
  ∧ sessionId e = default (-1) (raw_sessionId r)
  ∧ itemInSession e = default 0 (raw_itemInSession r).
Proof.
  unfold clean_row. destruct (raw_userId r) as [u|]; [|discriminate].
  simpl. by intros [= <-].
Qed.

Lemma clean_row_valid (hl : bool) (r : RawEvent) :
  valid_user r → is_Some (clean_row hl r).
Proof.
  unfold valid_user, clean_row. destruct (raw_userId r); [eauto|done].
Qed.

Lemma omap_length_all {A B} (f : A → option B) (l : list A) :
  (∀ a, a ∈ l → is_Some (f a)) → length (omap f l) = length l.
Proof.
  unfold omap. induction l as [|a l IH]; intros Hall; [done|]. simpl.
  destruct (Hall a (list_elem_of_here _ _)) as [b ->]. simpl. f_equal.
  apply IH. intros x Hx. by apply Hall, list_elem_of_further.
Qed.

(** X22. In a cleaned log no row has the [userId] "" or "None"; each row
    is a raw row that had a valid [userId], with its [ts] and [page] and
    with -1 for a missing [sessionId] and 0 for a missing [itemInSession];
    and the rows are as many as the raw rows with a valid [userId]. *)
Theorem clean_event_log_rows (df : RawLog) (out : EventLog) :
  clean_event_log df = inr out →
  (∀ e, e ∈ records out →
     userId e ≠ ""%string ∧ userId e ≠ "None"%string
     ∧ ∃ r, r ∈ raw_records df
            ∧ raw_userId r = Some (userId e)
            ∧ ts e = raw_ts r ∧ page e = raw_page r
            ∧ sessionId e = default (-1) (raw_sessionId r)
            ∧ itemInSession e = default 0 (raw_itemInSession r))
  ∧ length (records out) = length (filter valid_user (raw_records df)).
Proof.
  intros [_ ->]%clean_event_log_inv. split.
  - intros e (r & [Hv Hr]%list_elem_of_filter & He)%list_elem_of_omap.
    pose proof (clean_row_fields _ _ _ He) as (Hu & Hrest).
    unfold valid_user in Hv. rewrite Hu in Hv. destruct Hv as [? ?].
    split; [done|]. split; [done|]. by exists r.
  - apply omap_length_all. intros r [Hv _]%list_elem_of_filter.
    by apply clean_row_valid.
Qed.

Section CleanedFeatures.

Variable sqrtQ : Q → Q.

Lemma row_churned_iff (events : EventLog) (cfg : FeatureConfig)
    (row : Snapshot) :
  row ∈ build_user_features sqrtQ events cfg →
  (churned row = 0 ∨ churned row = 1)
  ∧ (churned row = 1 ↔
     ∃ e, e ∈ records events ∧ userId e = snap_userId row
          ∧ page e = CHURN_EVENT).
Proof.
  intros Hrow.
  destruct (feature_row_cutoff _ _ _ _ Hrow) as (ch & evs & Hcut & Hch & _).
  rewrite Hch. destruct ch; simpl.
  - apply apply_cutoff_churned in Hcut as (e0 & rest & Hf & _ & _).
    assert (e0 ∈ filter (λ e, page e = CHURN_EVENT)
              (sort_values_ts (user_events_of (snap_userId row)
                                 (records events))))
      as [Hp Hin]%list_elem_of_filter by (rewrite Hf; apply list_elem_of_here).
    apply (proj1 (sort_values_ts_elem _ _)) in Hin.
    apply user_events_of_elem in Hin as [Hu Hin].
    split; [by right|]. split; [|done]. intros _. by exists e0.
  - apply apply_cutoff_retained in Hcut as (Hnone & _ & _).
    split; [by left|]. split; [done|]. intros (e & He & Hu & Hp). exfalso.
    apply (filter_nil_not_elem_of _ _ e Hnone Hp).
    apply sort_values_ts_elem. by apply user_events_of_elem.
Qed.

(** X23. The feature table of a cleaned log has no row for the users ""
    and "None", and a row has [churned = 1] exactly when the raw log has a
    "Cancellation Confirmation" row with the [userId] of that row. *)
Theorem cleaned_features_labels (df : RawLog) (out : EventLog)
    (cfg : FeatureConfig) (row : Snapshot) :
  clean_event_log df = inr out →
  row ∈ build_user_features sqrtQ out cfg →
  snap_userId row ≠ ""%string ∧ snap_userId row ≠ "None"%string
  ∧ (churned row = 1 ↔
     ∃ r, r ∈ raw_records df ∧ raw_userId r = Some (snap_userId row)
          ∧ raw_page r = CHURN_EVENT).
Proof.
  intros Hclean Hrow.
  pose proof (clean_event_log_inv _ _ Hclean) as [_ Hrec].
  pose proof (feature_row_user _ _ _ _ Hrow) as Hu.
  apply list_elem_of_fmap in Hu as (e & Hid & He).
  rewrite Hrec in He.
  apply list_elem_of_omap in He as (r & [Hv Hr]%list_elem_of_filter & He).
  pose proof (clean_row_fields _ _ _ He) as (Hru & _).
  unfold valid_user in Hv. rewrite Hru, <- Hid in Hv. destruct Hv as [? ?].
  split; [done|]. split; [done|].
  destruct (row_churned_iff _ _ _ Hrow) as [_ ->]. split.
  - intros (c & Hc & Hcu & Hcp). rewrite Hrec in Hc.
    apply list_elem_of_omap in Hc as (rc & [_ Hrc]%list_elem_of_filter & Hce).
    pose proof (clean_row_fields _ _ _ Hce) as (Hcid & _ & Hpage & _).
    exists rc. split; [done|]. split; congruence.
  - intros (rc & Hrc & Hcid & Hcp).
    assert (valid_user rc) as Hvc
      by (unfold valid_user; rewrite Hcid; done).
    destruct (clean_row_valid (has_column (raw_columns df) "length") rc Hvc)
      as [c Hc].
    pose proof (clean_row_fields _ _ _ Hc) as (Hcu & _ & Hpage & _).
    exists c. split.
    + rewrite Hrec. apply list_elem_of_omap. exists rc. split; [|done].
      by apply list_elem_of_filter.
    + split; congruence.
Qed.

End CleanedFeatures.

Section AnalysisProperties.

Variable sqrtQ : Q → Q.

(** X24. The labels of the analysis script and of the feature builder
    agree: every event of the user of a row gets, as its [churned] column
    value, the [churned] of that row. *)
Theorem event_labels_agree (events : EventLog) (cfg : FeatureConfig)
    (row : Snapshot) (e : EventRecord) :
  row ∈ build_user_features sqrtQ events cfg →
  e ∈ records events → userId e = snap_userId row →
  (e, churned row) ∈ assign_churn_labels (records events).
Proof.
  intros Hrow He Hu. unfold assign_churn_labels. cbv zeta.
  apply list_elem_of_fmap. exists e. split; [|done]. f_equal.
  destruct (row_churned_iff _ _ _ _ Hrow) as [Hcases Hiff].
  case_bool_decide as Hin; simpl.
  - apply Hiff. apply list_elem_of_fmap in Hin as (c & Hcu & Hc).
    apply list_elem_of_filter in Hc as [Hp Hc]. exists c.
    split; [done|]. split; [congruence|done].
  - destruct Hcases as [->|H1]; [done|]. exfalso. apply Hin.
    apply Hiff in H1 as (c & Hc & Hcu & Hp).
    apply list_elem_of_fmap. exists c. split; [congruence|].
    by apply list_elem_of_filter.
Qed.

Lemma user_events_of_allowed (allowed : list string) (u : string)
    (evs : list EventRecord) :
  u ∈ allowed →
  user_events_of u (filter (λ e, userId e ∈ allowed) evs)
  = user_events_of u evs.
Proof.
  intros Hu. unfold user_events_of. rewrite list_filter_filter.
  apply list_filter_iff. intros e. split; [by intros [? _]|].
  intros Heq. split; [done|]. by rewrite Heq.
Qed.

Lemma slice_to_length {A} (n : Z) (values : list A) :
  0 < n → Z.of_nat (length (slice_to n values)) ≤ n.
Proof.
  intros Hn. unfold slice_to. rewrite decide_True by lia.
  pose proof (firstn_le_length (Z.to_nat n) values). lia.
Qed.

(** X25. Capping the analysed users changes the row of no user that is
    kept, but for the alignment of [account_age_days]: with a cap
    [n <> 0], every row of the table of the capped log belongs to one of
    the first [n] users of the log (all but the last [-n] for a negative
    [n]) and has a counterpart in the table of the full log, and every row
    of the full table of such a user has a counterpart in the capped table;
    a row and its counterpart are rows of one and the same dict, so that
    they differ at most in a NaN [account_age_days] that one has where the
    other has no such cell.  For [n > 0] the capped table has at most [n]
    rows. *)
Theorem limit_users_rows (cols : list string) (evs : list EventRecord)
    (cfg : FeatureConfig) (n : Z) :
  n ≠ 0 →
  let allowed := slice_to n (unique (userId <$> evs)) in
  let capped :=
    build_user_features sqrtQ (mkLog cols (limit_users (Some n) evs)) cfg in
  let full := build_user_features sqrtQ (mkLog cols evs) cfg in
  (∀ row,
     row ∈ capped →
     snap_userId row ∈ allowed
     ∧ ∃ dict row',
         row' ∈ full ∧ row_of_dict dict row ∧ row_of_dict dict row')
  ∧ (∀ row',
       row' ∈ full → snap_userId row' ∈ allowed →
       ∃ dict row,
         row ∈ capped ∧ row_of_dict dict row ∧ row_of_dict dict row')
  ∧ (0 < n → Z.of_nat (length capped) ≤ n).
Proof.
  intros Hn allowed capped full.
  assert (limit_users (Some n) evs = filter (λ e, userId e ∈ allowed) evs)
    as Hlim by (unfold limit_users; by rewrite decide_False).
  assert (∀ row, row ∈ capped → snap_userId row ∈ allowed) as Hkept.
  { intros row Hrow%feature_row_user. cbn [records] in Hrow.
    rewrite Hlim in Hrow.
    apply list_elem_of_fmap in Hrow as (e & -> & He).
    by apply list_elem_of_filter in He as [? _]. }
  split; [|split].
  - intros row Hrow. pose proof (Hkept row Hrow) as Hu. split; [done|].
    apply build_user_features_row in Hrow as (dict & Hur & Hal).
    cbn [records columns] in Hur.
    rewrite Hlim, (user_events_of_allowed _ _ _ Hu) in Hur.
    destruct (build_user_features_of_dict sqrtQ (mkLog cols evs) cfg
                (snap_userId row) dict) as (row' & Hrow' & Hal');
      [|exact Hur|by exists dict, row'].
    simpl. apply user_events_of_nonempty.
    intros Hnil. rewrite Hnil in Hur. discriminate.
  - intros row' Hrow' Hu.
    apply build_user_features_row in Hrow' as (dict & Hur & Hal').
    cbn [records columns] in Hur.
    destruct (build_user_features_of_dict sqrtQ
                (mkLog cols (limit_users (Some n) evs)) cfg
                (snap_userId row') dict) as (row & Hrow & Hal);
      [| |by exists dict, row]; cbn [records columns];
      rewrite Hlim; [|by rewrite (user_events_of_allowed _ _ _ Hu)].
    apply user_events_of_nonempty.
    rewrite (user_events_of_allowed _ _ _ Hu).
    intros Hnil. rewrite Hnil in Hur. discriminate.
  - intros Hpos.
    etrans; [|apply (slice_to_length n (unique (userId <$> evs)) Hpos)].
    fold allowed. apply inj_le.
    rewrite <- (length_fmap snap_userId capped).
    apply submseteq_length, NoDup_submseteq.
    + apply build_user_features_index_NoDup.
    + intros u (row & -> & Hrow)%list_elem_of_fmap. by apply Hkept.
Qed.

End AnalysisProperties.

(** ** The prediction service *)

Lemma remove_dups_singleton {A} `{EqDecision A} (l : list A) (u : A) :
  remove_dups l = [u] ↔ l ≠ [] ∧ ∀ x, x ∈ l → x = u.
Proof.
  split.
  - intros Hrd. split.
    + intros ->. discriminate.
    + intros x Hx. apply elem_of_remove_dups in Hx. rewrite Hrd in Hx.
      by apply list_elem_of_singleton in Hx.
  - intros [Hne Hall].
    pose proof (NoDup_remove_dups l) as Hnd.
    assert (∀ x, x ∈ remove_dups l → x = u) as Hall'
      by (intros x Hx; by apply Hall, elem_of_remove_dups).
    destruct l as [|a l]; [done|].
    assert (a ∈ remove_dups (a :: l)) as Ha
      by apply elem_of_remove_dups, list_elem_of_here.
    destruct (remove_dups (a :: l)) as [|b [|c rest]].
    + by apply elem_of_nil in Ha.
    + f_equal. apply Hall'. apply list_elem_of_here.
    + exfalso. apply NoDup_cons in Hnd as [Hb _]. apply Hb.
      rewrite (Hall' b) by apply list_elem_of_here.
      rewrite <- (Hall' c) by apply list_elem_of_further, list_elem_of_here.
      apply list_elem_of_here.
Qed.

Lemma user_id_set_single (events : list Event) (uid : string) :
  user_id_set events = [uid] ↔
  events ≠ [] ∧ ∀ e, e ∈ events → ev_userId e = uid.
Proof.
  unfold user_id_set. rewrite remove_dups_singleton. split.
  - intros [Hne Hall]. split; [by intros ->|].
    intros e He. by apply Hall, list_elem_of_fmap_2.
  - intros [Hne Hall]. split; [by destruct events|].
    intros x (e & -> & He)%list_elem_of_fmap. by apply Hall.
Qed.

(** The frame of a request with an event has every column that the
    cleaning reads: the cleaning keeps the events with a valid user. *)
Lemma clean_events_frame (events : list Event) :
  events ≠ [] →
  clean_event_log (events_frame events)
  = if decide (Forall (λ r, in_timestamp_range (raw_ts r))
                 (filter valid_user (model_dump <$> events)))
    then inr {| columns := event_columns;
                records := omap (clean_row true)
                             (filter valid_user (model_dump <$> events)) |}
    else inl OutOfBoundsDatetime.
Proof.
  intros Hne. unfold clean_event_log, convert_ts. cbv zeta.
  rewrite valid_user_filters.
  destruct events as [|e events]; [done|].
  cbn [events_frame raw_columns raw_records].
  assert (∀ name, name ∈ event_columns →
                  require_column event_columns name = inr tt) as Hcol.
  { intros name Hname. unfold require_column, has_column.
    by rewrite bool_decide_eq_true_2. }
  rewrite !Hcol by (apply (bool_decide_unpack _); vm_compute; exact I).
  cbn [bind ret]. by destruct (decide _).
Qed.



Lemma cleaned_request_users (events : list Event) (uid : string)
    (e : EventRecord) :
  (∀ x, x ∈ events → ev_userId x = uid) →
  e ∈ omap (clean_row true) (filter valid_user (model_dump <$> events)) →
  userId e = uid ∧ uid ≠ ""%string ∧ uid ≠ "None"%string.
Proof.
  intros Hall (r & Hr & Hc)%list_elem_of_omap.
  apply list_elem_of_filter in Hr as [Hv Hr].
  apply list_elem_of_fmap in Hr as (x & -> & Hx).
  apply clean_row_fields in Hc as (Hu & _). simpl in Hu.
  injection Hu as Hu. unfold valid_user in Hv. simpl in Hv.
  rewrite (Hall x Hx) in Hu, Hv. by subst uid.
Qed.

Lemma omap_length_le {A B} (f : A → option B) (l : list A) :
  (length (omap f l) ≤ length l)%nat.
Proof.
  unfold omap. induction l as [|a l IH]; [done|]. simpl.
  destruct (f a); simpl; lia.
Qed.

Lemma cleaned_request_length (events : list Event) :
  (length (omap (clean_row true) (filter valid_user (model_dump <$> events)))
   ≤ length events)%nat.
Proof.
  etrans; [apply omap_length_le|]. etrans; [apply length_filter|].
  by rewrite length_fmap.
Qed.

Section ServiceProperties.

Variable sqrtQ : Q → Q.
Variable predict_proba : list (list (string * cell)) → list (fval * fval).

Local Abbreviation predict := (service_predict sqrtQ predict_proba).

(** A row is built from no more events than the log has. *)
Lemma num_events_le_records (events : EventLog) (cfg : FeatureConfig)
    (row : Snapshot) :
  row ∈ build_user_features sqrtQ events cfg →
  (num_events row ≤ length (records events))%nat.
Proof.
  intros Hrow.
  destruct (feature_row_cutoff _ _ _ _ Hrow)
    as (ch & evs & Hcut & _ & Hws & Hn & _).
  rewrite Hn, Hws, apply_lookback_filter.
  etrans; [apply length_filter|].
  assert (length evs ≤ length (sort_values_ts
            (user_events_of (snap_userId row) (records events))))%nat as Hle.
  { destruct ch.
    - apply apply_cutoff_churned in Hcut as (_ & _ & _ & _ & ->).
      apply length_filter.
    - by apply apply_cutoff_retained in Hcut as (_ & _ & ->). }
  etrans; [exact Hle|]. unfold sort_values_ts.
  rewrite merge_sort_Permutation. apply length_filter.
Qed.

(** X26. The service answers 400 exactly to a request without events and
    to a request with events of two different users. *)
Theorem predict_bad_request (config : TrainingConfig) (events : list Event) :
  predict config events
  = inl (HTTPException 400 "Events must belong to a single userId.")
  ↔ events = []
    ∨ ∃ e1 e2, e1 ∈ events ∧ e2 ∈ events ∧ ev_userId e1 ≠ ev_userId e2.
Proof.
  unfold service_predict.
  destruct (user_id_set events) as [|uid [|uid' rest]] eqn:Hset.
  - split; [intros _|done]. left. destruct events as [|e events]; [done|].
    assert (ev_userId e ∈ user_id_set (e :: events)) as Hin
      by apply elem_of_remove_dups, list_elem_of_here.
    rewrite Hset in Hin. by apply elem_of_nil in Hin.
  - apply user_id_set_single in Hset as [Hne Hall]. split.
    + intros Hres. exfalso. revert Hres.
      destruct (clean_event_log _); [discriminate|]. cbv zeta.
      destruct (build_feature_matrix _ _ _); [discriminate|].
      destruct (predict_proba _) as [|[p0 p1] ?]; discriminate.
    + intros [->|(e1 & e2 & H1 & H2 & Hne')]; [done|].
      exfalso. apply Hne'. by rewrite (Hall e1 H1), (Hall e2 H2).
  - split; [intros _|done]. right.
    assert (uid ≠ uid') as Hdiff.
    { pose proof (NoDup_remove_dups (ev_userId <$> events)) as Hnd.
      fold (user_id_set events) in Hnd. rewrite Hset in Hnd.
      apply NoDup_cons in Hnd as [Hnd _]. intros ->. apply Hnd.
      apply list_elem_of_here. }
    assert (uid ∈ ev_userId <$> events) as (e1 & H1 & He1)%list_elem_of_fmap.
    { apply elem_of_remove_dups. fold (user_id_set events). rewrite Hset.
      apply list_elem_of_here. }
    assert (uid' ∈ ev_userId <$> events) as (e2 & H2 & He2)%list_elem_of_fmap.
    { apply elem_of_remove_dups. fold (user_id_set events). rewrite Hset.
      apply list_elem_of_further, list_elem_of_here. }
    exists e1, e2. split; [done|]. split; [done|]. congruence.
Qed.


(** X28. An answer of the service names the one user of the request, who
    is neither "" nor "None" and has at least [min_events_per_user] events
    in it; the feature table of the request has exactly one row, the row of
    that user; the classifier is given this row without its "label_ts"
    column, and with its "churned" column exactly when [target_column] is
    another name; the answer carries the second probability of the
    classifier, and the label 1 exactly when it is at least 0.5. *)
Theorem predict_answer (config : TrainingConfig) (events : list Event)
    (resp : PredictionResponse) :
  predict config events = inr resp →
  (∀ e, e ∈ events → ev_userId e = user_id resp)
  ∧ user_id resp ≠ ""%string ∧ user_id resp ≠ "None"%string
  ∧ min_events_per_user (feature_config config) ≤ Z.of_nat (length events)
  ∧ churn_label resp = flag (fge (churn_probability resp) (FNum (1 # 2)))
  ∧ ∃ df row input p0 rest,
      clean_event_log (events_frame events) = inr df
      ∧ build_feature_matrix sqrtQ df (feature_config config) = [row]
      ∧ snap_userId row = user_id resp
      ∧ input = drop_columns [target_column config; "label_ts"%string]
                  (snapshot_items row)
      ∧ predict_proba [input] = (p0, churn_probability resp) :: rest
      ∧ ("label_ts"%string ∉ input.*1)
      ∧ ("churned"%string ∈ input.*1
         ↔ target_column config ≠ "churned"%string).
Proof.
  unfold service_predict.
  destruct (user_id_set events) as [|uid [|uid' rest]] eqn:Hset;
    [discriminate| |discriminate].
  apply user_id_set_single in Hset as [Hne Hall].
  rewrite (clean_events_frame _ Hne).
  destruct (decide (Forall _ _)) as [Hrange|]; [|discriminate]. cbv zeta.
  set (df := {| columns := event_columns;
                records := omap (clean_row true)
                             (filter valid_user (model_dump <$> events)) |}).
  destruct (build_feature_matrix sqrtQ df (feature_config config))
    as [|row rows] eqn:Hbuild; [discriminate|].
  assert (∀ r, r ∈ row :: rows →
            snap_userId r = uid ∧ uid ≠ ""%string ∧ uid ≠ "None"%string
            ∧ min_events_per_user (feature_config config)
              ≤ Z.of_nat (length events)) as Hrows.
  { intros r Hr. rewrite <- Hbuild in Hr. unfold build_feature_matrix in Hr.
    pose proof (feature_row_thresholds _ _ _ _ Hr) as [Hmin _].
    pose proof (num_events_le_records _ _ _ Hr) as Hle. simpl in Hle.
    pose proof (cleaned_request_length events) as Hlen.
    apply feature_row_user in Hr.
    apply list_elem_of_fmap in Hr as (e & -> & He). simpl in He.
    apply (cleaned_request_users _ _ _ Hall) in He as (? & ? & ?).
    repeat split; try done. clear -Hmin Hle Hlen. lia. }
  assert (rows = []) as ->.
  { pose proof (build_user_features_index_NoDup sqrtQ df
                  (feature_config config)) as Hnd.
    unfold build_feature_matrix in Hbuild. rewrite Hbuild in Hnd.
    destruct rows as [|row' rows]; [done|]. exfalso.
    rewrite !fmap_cons in Hnd. apply NoDup_cons in Hnd as [Hnd _].
    apply Hnd.
    rewrite (proj1 (Hrows row (list_elem_of_here _ _))).
    rewrite <- (proj1 (Hrows row'
                  (list_elem_of_further _ _ _ (list_elem_of_here _ _)))).
    apply list_elem_of_here. }
  destruct (Hrows row (list_elem_of_here _ _)) as (Hu & Hu1 & Hu2 & Hmin).
  simpl fmap.
  destruct (predict_proba _) as [|[p0 p1] rest'] eqn:Hproba; [discriminate|].
  intros [= <-]. simpl.
  repeat split; try done.
  exists df, row,
    (drop_columns [target_column config; "label_ts"%string]
       (snapshot_items row)), p0, rest'.
  repeat split; try done.
  - intros (kv & Hk & Hkv)%list_elem_of_fmap.
    apply list_elem_of_filter in Hkv as [Hnot _]. apply Hnot. rewrite <- Hk.
    apply list_elem_of_further, list_elem_of_here.
  - intros (kv & Hk & Hkv)%list_elem_of_fmap Heq.
    apply list_elem_of_filter in Hkv as [Hnot _]. apply Hnot.
    rewrite <- Hk, Heq. apply list_elem_of_here.
  - intros Htarget. apply list_elem_of_fmap.
    exists ("churned"%string, CInt (churned row)). split; [done|].
    apply list_elem_of_filter. split.
    + simpl. intros [?|[?|[]%elem_of_nil]%elem_of_cons]%elem_of_cons;
        [by apply Htarget|done].
    + unfold snapshot_items. apply elem_of_app. left.
      apply list_elem_of_further, list_elem_of_here.
Qed.

End ServiceProperties.

(** ** Sample runs of the further properties *)

Lemma three_row_built :
  Samples.three_row
    ∈ build_user_features Samples.sqrt_floor Samples.three_log Cases.one_one.
Proof. vm_compute. constructor. Defined.

Lemma gender_row_built :
  Cases.gender_row
    ∈ build_user_features Samples.sqrt_floor Samples.gender_reappears
        Cases.one_one.
Proof. vm_compute. constructor. Defined.

Lemma churn_label_correct_witness :
  Samples.three_row
    ∈ build_user_features Samples.sqrt_floor Samples.three_log Cases.one_one
  ∧ (churned Samples.three_row = 1 ↔
     ∃ e, e ∈ user_events_of (snap_userId Samples.three_row)
                (records Samples.three_log)
          ∧ page e = CHURN_EVENT).
Proof.
  split; [exact three_row_built|].
  exact (proj1 (proj2
    (churn_label_correct Samples.sqrt_floor Samples.three_log Cases.one_one
       Samples.three_row three_row_built))).
Defined.

Lemma working_subset_is_window_witness :
  Samples.three_row
    ∈ build_user_features Samples.sqrt_floor Samples.three_log Cases.one_one
  ∧ num_events Samples.three_row
    = length (filter (in_window Cases.one_one
                        (bool_decide (churned Samples.three_row = 1))
                        (label_ts Samples.three_row))
                (user_events_of (snap_userId Samples.three_row)
                   (records Samples.three_log))).
Proof.
  split; [exact three_row_built|].
  exact (proj2
    (working_subset_is_window Samples.sqrt_floor Samples.three_log
       Cases.one_one Samples.three_row three_row_built)).
Defined.

Lemma row_counts_bounded_witness :
  Cases.gender_row
    ∈ build_user_features Samples.sqrt_floor Samples.gender_reappears
        Cases.one_one
  ∧ (page_counters Cases.gender_row ≤ num_events Cases.gender_row)%nat
  ∧ (num_sessions Cases.gender_row ≤ num_events Cases.gender_row)%nat.
Proof.
  split; [exact gender_row_built|].
  pose proof (row_counts_bounded Samples.sqrt_floor Samples.gender_reappears
                Cases.one_one Cases.gender_row gender_row_built)
    as (Hpages & Hsessions & _).
  exact (conj Hpages Hsessions).
Defined.

Lemma aligned_three_row_built :
  Cases.aligned_three_row
    ∈ build_user_features Samples.sqrt_floor Cases.two_users_log
        Cases.one_one.
Proof. vm_compute. do 2 constructor. Defined.

Lemma no_nan_with_min_events_witness :
  1 ≤ min_events_per_user Cases.one_one
  ∧ Cases.aligned_three_row
      ∈ build_user_features Samples.sqrt_floor Cases.two_users_log
          Cases.one_one
  ∧ row_has_nan (with_account_age None Cases.aligned_three_row) = false
  ∧ (row_has_nan Cases.aligned_three_row = true
     ↔ account_age_days Cases.aligned_three_row = Some FNaN)
  ∧ (account_age_days Cases.aligned_three_row = Some FNaN ↔
     dropna (registration
               <$> working_subset Cases.one_one
                     (user_events_of (snap_userId Cases.aligned_three_row)
                        (records Cases.two_users_log))) = []
     ∧ ∃ other q,
         other ∈ build_user_features Samples.sqrt_floor Cases.two_users_log
                   Cases.one_one
         ∧ account_age_days other = Some (FNum q)).
Proof.
  assert (1 ≤ min_events_per_user Cases.one_one) as Hmin by (simpl; lia).
  split; [exact Hmin|]. split; [exact aligned_three_row_built|].
  exact (no_nan_with_min_events Samples.sqrt_floor Cases.two_users_log
           Cases.one_one Cases.aligned_three_row Hmin
           aligned_three_row_built).
Defined.


Lemma row_depends_on_own_events_witness :
  user_events_of (snap_userId Samples.three_row) Samples.three_events
  = user_events_of (snap_userId Samples.three_row) Cases.two_users
  ∧ Samples.three_row
      ∈ build_user_features Samples.sqrt_floor
          (mkLog Samples.all_columns Samples.three_events) Cases.one_one
  ∧ ∃ dict row',
      row' ∈ build_user_features Samples.sqrt_floor
               (mkLog Samples.all_columns Cases.two_users) Cases.one_one
      ∧ row_of_dict dict Samples.three_row ∧ row_of_dict dict row'.
Proof.
  assert (user_events_of (snap_userId Samples.three_row) Samples.three_events
          = user_events_of (snap_userId Samples.three_row) Cases.two_users)
    as Hsame by (vm_compute; reflexivity).
  split; [exact Hsame|]. split; [exact three_row_built|].
  exact (row_depends_on_own_events Samples.sqrt_floor Samples.all_columns
           Samples.three_events Cases.two_users Cases.one_one
           Samples.three_row Hsame three_row_built).
Defined.

Lemma gender_flags_one_hot_witness :
  Cases.gender_row
    ∈ build_user_features Samples.sqrt_floor Samples.gender_reappears
        Cases.one_one
  ∧ ∀ m f,
      gender_M Cases.gender_row = Some m →
      gender_F Cases.gender_row = Some f →
      (m = 0 ∨ m = 1) ∧ (f = 0 ∨ f = 1) ∧ m + f ≤ 1.
Proof.
  split; [exact gender_row_built|].
  exact (proj2 (proj2
    (gender_flags_one_hot Samples.sqrt_floor Samples.gender_reappears
       Cases.one_one Cases.gender_row gender_row_built))).
Defined.

Lemma paid_event_ratio_range_witness :
  Cases.gender_row
    ∈ build_user_features Samples.sqrt_floor Samples.gender_reappears
        Cases.one_one
  ∧ ∃ q, paid_event_ratio Cases.gender_row = FNum q
         ∧ (0 <= q)%Q ∧ (q <= 1)%Q.
Proof.
  split; [exact gender_row_built|].
  exact (paid_event_ratio_range Samples.sqrt_floor Samples.gender_reappears
           Cases.one_one Cases.gender_row gender_row_built).
Defined.

Lemma durations_and_rate_nonneg_witness :
  Samples.three_row
    ∈ build_user_features Samples.sqrt_floor Samples.three_log Cases.one_one
  ∧ ∃ a m r,
      avg_session_minutes Samples.three_row = FNum a ∧ (0 <= a)%Q
      ∧ median_session_minutes Samples.three_row = FNum m ∧ (0 <= m)%Q
      ∧ event_rate_per_hour Samples.three_row = FNum r ∧ (0 <= r)%Q
      ∧ ((0 < num_events Samples.three_row)%nat → (0 < r)%Q).
Proof.
  split; [exact three_row_built|].
  exact (durations_and_rate_nonneg Samples.sqrt_floor Samples.three_log
           Cases.one_one Samples.three_row three_row_built).
Defined.





Lemma ln_first_order_sign (q : Q) :
  (0 < q)%Q →
  ((q <= 1)%Q → (Samples.ln_first_order q <= 0)%Q)
  ∧ ((1 <= q)%Q → (0 <= Samples.ln_first_order q)%Q).
Proof.
  intros _. unfold Samples.ln_first_order. split; intros Hq.
  - apply (Qplus_le_l _ _ 1). by ring_simplify.
  - apply (Qplus_le_l _ _ 1). by ring_simplify.
Defined.

Lemma psi_nan_iff_empty_witness :
  (0 < 1 # 1000000)%Q
  ∧ (population_stability_index Samples.ln_first_order Samples.series
       [FNaN] 10 (1 # 1000000) = FNaN
     ↔ dropna_num Samples.series = [] ∨ dropna_num [FNaN] = []).
Proof.
  assert (0 < 1 # 1000000)%Q as Heps by reflexivity.
  split; [exact Heps|].
  exact (psi_nan_iff_empty Samples.ln_first_order Samples.series [FNaN] 10
           (1 # 1000000) Heps).
Defined.

Lemma psi_nonneg_witness :
  (0 < 1 # 1000000)%Q
  ∧ dropna_num Cases.before ≠ [] ∧ dropna_num Cases.after ≠ []
  ∧ ∃ q,
      population_stability_index Samples.ln_first_order Cases.before
        Cases.after 10 (1 # 1000000) = FNum q
      ∧ (0 <= q)%Q.
Proof.
  assert (0 < 1 # 1000000)%Q as Heps by reflexivity.
  assert (dropna_num Cases.before ≠ []) as Hb by (vm_compute; discriminate).
  assert (dropna_num Cases.after ≠ []) as Ha by (vm_compute; discriminate).
  split; [exact Heps|]. split; [exact Hb|]. split; [exact Ha|].
  exact (psi_nonneg Samples.ln_first_order ln_first_order_sign Cases.before
           Cases.after 10 (1 # 1000000) Heps Hb Ha).
Defined.

Lemma ks_self_comparison_witness :
  dropna_num Samples.series ≠ []
  ∧ kolmogorov_smirnov_statistic Samples.series Samples.series = zero.
Proof.
  assert (dropna_num Samples.series ≠ []) as Hne by (vm_compute; discriminate).
  split; [exact Hne|].
  exact (ks_self_comparison Samples.series Hne).
Defined.

Lemma frame_report_computed :
  compute_data_drift_report Samples.ln_first_order Cases.baseline_frame
    Cases.current_frame None (FNum (1 # 5)) (FNum (1 # 10))
  = inr Cases.frame_report.
Proof. vm_compute. reflexivity. Defined.

Lemma drift_report_flags_witness :
  compute_data_drift_report Samples.ln_first_order Cases.baseline_frame
    Cases.current_frame None (FNum (1 # 5)) (FNum (1 # 10))
  = inr Cases.frame_report
  ∧ feature_metrics Cases.frame_report ≠ []
  ∧ StronglySorted psi_desc (feature_metrics Cases.frame_report)
  ∧ (flag_psi Cases.frame_report = true ↔
     ∃ r, r ∈ feature_metrics Cases.frame_report
          ∧ fgt (psi r) (FNum (1 # 5)) = true)
  ∧ (flag_ks Cases.frame_report = true ↔
     ∃ r, r ∈ feature_metrics Cases.frame_report
          ∧ fgt (ks r) (FNum (1 # 10)) = true).
Proof.
  split; [exact frame_report_computed|].
  exact (drift_report_flags Samples.ln_first_order Cases.baseline_frame
           Cases.current_frame (FNum (1 # 5)) (FNum (1 # 10)) None
           Cases.frame_report frame_report_computed).
Defined.

Lemma drift_report_records_witness :
  compute_data_drift_report Samples.ln_first_order Cases.baseline_frame
    Cases.current_frame None (FNum (1 # 5)) (FNum (1 # 10))
  = inr Cases.frame_report
  ∧ ∀ c base now,
      c ∈ selected_columns Cases.baseline_frame None →
      df_get Cases.baseline_frame c = Some (NumCol base) →
      df_get Cases.current_frame c = Some (NumCol now) →
      ∃ r, r ∈ feature_metrics Cases.frame_report ∧ feature r = c.
Proof.
  split; [exact frame_report_computed|].
  exact (proj2
    (drift_report_records Samples.ln_first_order Cases.baseline_frame
       Cases.current_frame (FNum (1 # 5)) (FNum (1 # 10)) None
       Cases.frame_report frame_report_computed)).
Defined.

Lemma drift_report_missing_baseline_witness :
  "num_events"%string ∈ ["num_events"%string]
  ∧ "num_events"%string ∈ Cases.current_frame.*1
  ∧ ("num_events"%string ∉ Samples.text_only.*1)
  ∧ ∃ e,
      compute_data_drift_report Samples.ln_first_order Samples.text_only
        Cases.current_frame (Some ["num_events"%string]) (FNum (1 # 5))
        (FNum (1 # 10)) = inl e.
Proof.
  assert ("num_events"%string ∈ ["num_events"%string]) as Hcol
    by apply list_elem_of_here.
  assert ("num_events"%string ∈ Cases.current_frame.*1) as Hcur
    by (simpl; apply list_elem_of_here).
  assert ("num_events"%string ∉ Samples.text_only.*1) as Hbase.
  { simpl. intros Hin. apply list_elem_of_singleton in Hin. discriminate. }
  split; [exact Hcol|]. split; [exact Hcur|]. split; [exact Hbase|].
  exact (drift_report_missing_baseline Samples.ln_first_order
           Samples.text_only Cases.current_frame (FNum (1 # 5))
           (FNum (1 # 10)) ["num_events"%string] "num_events" Hcol Hcur
           Hbase).
Defined.

Lemma f1_improves (m : string) (b c : fval) :
  Samples.f1_current !! m = Some b → Samples.f1_baseline !! m = Some c →
  flt c b = false.
Proof.
  unfold Samples.f1_current, Samples.f1_baseline. intros Hb Hc.
  apply lookup_singleton_Some in Hb as [_ <-].
  apply lookup_singleton_Some in Hc as [_ <-]. reflexivity.
Defined.

Lemma no_degradation_no_retrain_witness :
  (∀ m b c,
     Samples.f1_current !! m = Some b → Samples.f1_baseline !! m = Some c →
     flt c b = false)
  ∧ performance_drift Samples.f1_current Samples.f1_baseline (FNum (1 # 10))
      !! "needs_retrain"%string = Some (VBool false).
Proof.
  split; [exact f1_improves|].
  exact (no_degradation_no_retrain Samples.f1_current Samples.f1_baseline
           (FNum (1 # 10)) f1_improves).
Defined.

Lemma raw_sample_cleaned :
  clean_event_log Cases.raw_sample = inr Cases.cleaned_sample.
Proof. vm_compute. reflexivity. Defined.

Lemma clean_event_log_rows_witness :
  clean_event_log Cases.raw_sample = inr Cases.cleaned_sample
  ∧ (∀ e, e ∈ records Cases.cleaned_sample →
       userId e ≠ ""%string ∧ userId e ≠ "None"%string
       ∧ ∃ r, r ∈ raw_records Cases.raw_sample
              ∧ raw_userId r = Some (userId e)
              ∧ ts e = raw_ts r ∧ page e = raw_page r
              ∧ sessionId e = default (-1) (raw_sessionId r)
              ∧ itemInSession e = default 0 (raw_itemInSession r))
  ∧ length (records Cases.cleaned_sample)
    = length (filter valid_user (raw_records Cases.raw_sample)).
Proof.
  split; [exact raw_sample_cleaned|].
  exact (clean_event_log_rows Cases.raw_sample Cases.cleaned_sample
           raw_sample_cleaned).
Defined.

Lemma cleaned_row_built :
  Cases.cleaned_row
    ∈ build_user_features Samples.sqrt_floor Cases.cleaned_sample
        Cases.one_one.
Proof. vm_compute. constructor. Defined.

Lemma cleaned_features_labels_witness :
  clean_event_log Cases.raw_sample = inr Cases.cleaned_sample
  ∧ Cases.cleaned_row
      ∈ build_user_features Samples.sqrt_floor Cases.cleaned_sample
          Cases.one_one
  ∧ snap_userId Cases.cleaned_row ≠ ""%string
  ∧ snap_userId Cases.cleaned_row ≠ "None"%string
  ∧ (churned Cases.cleaned_row = 1 ↔
     ∃ r, r ∈ raw_records Cases.raw_sample
          ∧ raw_userId r = Some (snap_userId Cases.cleaned_row)
          ∧ raw_page r = CHURN_EVENT).
Proof.
  split; [exact raw_sample_cleaned|]. split; [exact cleaned_row_built|].
  exact (cleaned_features_labels Samples.sqrt_floor Cases.raw_sample
           Cases.cleaned_sample Cases.one_one Cases.cleaned_row
           raw_sample_cleaned cleaned_row_built).
Defined.

Lemma event_labels_agree_witness :
  Samples.three_row
    ∈ build_user_features Samples.sqrt_floor Samples.three_log Cases.one_one
  ∧ Samples.event 0 "NextSong" None None ∈ records Samples.three_log
  ∧ userId (Samples.event 0 "NextSong" None None)
    = snap_userId Samples.three_row
  ∧ (Samples.event 0 "NextSong" None None, churned Samples.three_row)
      ∈ assign_churn_labels (records Samples.three_log).
Proof.
  assert (Samples.event 0 "NextSong" None None ∈ records Samples.three_log)
    as Hev by (simpl; apply list_elem_of_here).
  assert (userId (Samples.event 0 "NextSong" None None)
          = snap_userId Samples.three_row) as Hu by reflexivity.
  split; [exact three_row_built|]. split; [exact Hev|]. split; [exact Hu|].
  exact (event_labels_agree Samples.sqrt_floor Samples.three_log Cases.one_one
           Samples.three_row (Samples.event 0 "NextSong" None None)
           three_row_built Hev Hu).
Defined.

Lemma limit_users_rows_witness :
  1 ≠ 0
  ∧ (∀ row,
       row ∈ build_user_features Samples.sqrt_floor
               (mkLog Samples.all_columns
                  (limit_users (Some 1) Cases.two_users)) Cases.one_one →
       snap_userId row ∈ slice_to 1 (unique (userId <$> Cases.two_users))
       ∧ ∃ dict row',
           row' ∈ build_user_features Samples.sqrt_floor
                    (mkLog Samples.all_columns Cases.two_users) Cases.one_one
           ∧ row_of_dict dict row ∧ row_of_dict dict row')
  ∧ (0 < 1 →
     Z.of_nat (length (build_user_features Samples.sqrt_floor
                         (mkLog Samples.all_columns
                            (limit_users (Some 1) Cases.two_users))
                         Cases.one_one)) ≤ 1).
Proof.
  assert (1 ≠ 0) as Hcap by lia.
  split; [exact Hcap|].
  pose proof (limit_users_rows Samples.sqrt_floor Samples.all_columns
                Cases.two_users Cases.one_one 1 Hcap) as (Hkept & _ & Hlen).
  exact (conj Hkept Hlen).
Defined.







Lemma request_answered :
  service_predict Samples.sqrt_floor Cases.fixed_proba Cases.service_config
    Cases.request = inr Cases.answer.
Proof. vm_compute. reflexivity. Defined.

Lemma predict_answer_witness :
  service_predict Samples.sqrt_floor Cases.fixed_proba Cases.service_config
    Cases.request = inr Cases.answer
  ∧ (∀ e, e ∈ Cases.request → ev_userId e = user_id Cases.answer)
  ∧ user_id Cases.answer ≠ ""%string
  ∧ user_id Cases.answer ≠ "None"%string
  ∧ min_events_per_user (feature_config Cases.service_config)
      ≤ Z.of_nat (length Cases.request)
  ∧ churn_label Cases.answer
    = flag (fge (churn_probability Cases.answer) (FNum (1 # 2))).
Proof.
  split; [exact request_answered|].
  pose proof (predict_answer Samples.sqrt_floor Cases.fixed_proba
                Cases.service_config Cases.request Cases.answer
                request_answered) as (Hall & Hu1 & Hu2 & Hmin & Hlabel & _).
  exact (conj Hall (conj Hu1 (conj Hu2 (conj Hmin Hlabel)))).
Defined.
